(** * gopv: the IPC client's request/response correlation engine

    A shallow embedding of the client of [gopv] (the variant with one
    mutex per registry): the wire codec as used through [encoding/json] and
    [swallowjson], the [Client] state, the writer and reader loops, the
    dispatcher and the public operations, followed by the properties
    proved about them. *)

From Stdlib Require Import ZArith List Ascii String Bool Lia.
From stdpp Require Import gmap strings list fin_maps pretty.

Set Warnings "-register-all".

Open Scope Z_scope.
Open Scope string_scope.
Open Scope list_scope.

(** ** Go values of type [any] that travel through the codec *)

(** [Command []any] and [Data any] hold dynamically typed values.  What
    [encoding/json] produces when it decodes into [any] is [Nil], [Bool],
    a [float64], [Str], [Slice] or [Map]; callers additionally pass Go
    [int]s (subscription ids) and may pass values that JSON cannot encode
    (functions, channels), which [Func] stands for. *)
Inductive any : Type :=
| Nil
| Bool (b : bool)
| Int (n : Z)
| Float64 (n : Z)          (* a float64 with an integral value *)
| Number (lit : string)    (* any other float64, kept as its JSON literal *)
| Str (s : string)
| Slice (l : list any)
| Map (kvs : list (string * any))
| Func (h : nat).

(** ** Errors *)

Inductive error : Type :=
| ErrClosed                          (* var ErrClosed *)
| MpvError (status : string)         (* type MpvError struct *)
| io_EOF
| net_Error (msg : string)           (* a transport failure other than EOF *)
| json_UnsupportedTypeError
| json_SyntaxError
| json_UnmarshalTypeError (field : string).

(** [func (e MpvError) Error() string] *)
Definition Error_string (e : error) : string :=
  match e with
  | MpvError status => "mpv returned an error: " +:+ status
  | ErrClosed => "IPC client is closed"
  | io_EOF => "EOF"
  | net_Error msg => msg
  | json_UnsupportedTypeError => "json: unsupported type"
  | json_SyntaxError => "json: syntax error"
  | json_UnmarshalTypeError f => "json: cannot unmarshal into field " +:+ f
  end.

(** ** Characters *)

Definition dquote : ascii := Eval cbv in ascii_of_nat 34.
Definition bslash : ascii := Eval cbv in ascii_of_nat 92.
Definition newline : ascii := Eval cbv in ascii_of_nat 10.
Definition chr (c : ascii) : string := String c EmptyString.

(** Test lines are written with an apostrophe where the wire has a double
    quote; [wire] puts the double quotes back. *)
Fixpoint wire (s : string) : string :=
  match s with
  | EmptyString => EmptyString
  | String c s' => String (if Ascii.eqb c "'"%char then dquote else c) (wire s')
  end.

Definition code (c : ascii) : N := N_of_ascii c.

Definition hex_digit (n : N) : ascii :=
  ascii_of_N (if (n <? 10)%N then 48 + n else 87 + n)%N.

Definition is_digit (c : ascii) : bool := ((48 <=? code c) && (code c <=? 57))%N.

Definition is_space (c : ascii) : bool :=
  let n := code c in ((n =? 32) || (n =? 9) || (n =? 10) || (n =? 13))%N.

Definition lower (c : ascii) : ascii :=
  let n := code c in
  if ((65 <=? n) && (n <=? 90))%N then ascii_of_N (n + 32) else c.

Fixpoint fold_case (s : string) : string :=
  match s with
  | EmptyString => EmptyString
  | String c s' => String (lower c) (fold_case s')
  end.

(** ** Encoding: [json.Marshal] *)

(** One byte of a Go string inside a JSON string literal, with the HTML
    escaping that [json.Marshal] applies.  Bytes from 0x80 up are copied
    (the text is taken to be valid UTF-8). *)
Definition escape_byte (c : ascii) : string :=
  let n := code c in
  if Ascii.eqb c dquote then String bslash (chr dquote)
  else if Ascii.eqb c bslash then String bslash (chr bslash)
  else if (n =? 10)%N then String bslash "n"
  else if (n =? 13)%N then String bslash "r"
  else if (n =? 9)%N then String bslash "t"
  else if ((n <? 32) || (n =? 60) || (n =? 62) || (n =? 38))%N then
    String bslash ("u00" +:+ String (hex_digit (n / 16)) (chr (hex_digit (n mod 16))))
  else chr c.

Fixpoint escape (s : string) : string :=
  match s with
  | EmptyString => EmptyString
  | String c s' => escape_byte c +:+ escape s'
  end.

Definition quote (s : string) : string := chr dquote +:+ escape s +:+ chr dquote.

Fixpoint join (sep : string) (l : list string) : string :=
  match l with
  | [] => ""
  | [x] => x
  | x :: l' => x +:+ sep +:+ join sep l'
  end.

(** [sequence] of optional encodings: the first unsupported element makes
    the whole encoding fail. *)
Fixpoint all_some {A} (l : list (option A)) : option (list A) :=
  match l with
  | [] => Some []
  | None :: _ => None
  | Some x :: l' => match all_some l' with Some r => Some (x :: r) | None => None end
  end.

(** Keys of a Go map are written in sorted order. *)
Fixpoint insert_sorted (kv : string * string) (l : list (string * string)) :=
  match l with
  | [] => [kv]
  | kv' :: l' =>
      if String.leb (fst kv) (fst kv') then kv :: l else kv' :: insert_sorted kv l'
  end.

Definition sort_keys (l : list (string * string)) : list (string * string) :=
  fold_right insert_sorted [] l.

Fixpoint marshal_any (v : any) : option string :=
  match v with
  | Nil => Some "null"
  | Bool true => Some "true"
  | Bool false => Some "false"
  | Int n => Some (pretty n)
  | Float64 n => Some (pretty n)
  | Number lit => Some lit
  | Str s => Some (quote s)
  | Slice l =>
      match all_some (map marshal_any l) with
      | Some parts => Some ("[" +:+ join "," parts +:+ "]")
      | None => None
      end
  | Map kvs =>
      match all_some (map (fun kv => match marshal_any (snd kv) with
                                     | Some e => Some (fst kv, e)
                                     | None => None
                                     end) kvs) with
      | Some parts =>
          Some ("{" +:+ join "," (map (fun kv => quote (fst kv) +:+ ":" +:+ snd kv)
                                      (sort_keys parts)) +:+ "}")
      | None => None
      end
  | Func _ => None
  end.

(** ** Decoding: the JSON reader behind [json.Unmarshal] *)

Fixpoint skip_space (s : string) : string :=
  match s with
  | String c s' => if is_space c then skip_space s' else s
  | EmptyString => s
  end.

Fixpoint strip_prefix (p s : string) : option string :=
  match p, s with
  | EmptyString, _ => Some s
  | String a p', String b s' => if Ascii.eqb a b then strip_prefix p' s' else None
  | _, _ => None
  end.

Definition hex_value (c : ascii) : option N :=
  let n := code c in
  if ((48 <=? n) && (n <=? 57))%N then Some (n - 48)%N
  else if ((97 <=? n) && (n <=? 102))%N then Some (n - 87)%N
  else if ((65 <=? n) && (n <=? 70))%N then Some (n - 55)%N
  else None.

(** UTF-8 bytes of a code point of the basic plane. *)
Definition utf8 (u : N) : string :=
  if (u <? 128)%N then chr (ascii_of_N u)
  else if (u <? 2048)%N then
    String (ascii_of_N (192 + u / 64)) (chr (ascii_of_N (128 + u mod 64)))
  else
    String (ascii_of_N (224 + u / 4096))
      (String (ascii_of_N (128 + (u / 64) mod 64)) (chr (ascii_of_N (128 + u mod 64)))).

Definition simple_escape (c : ascii) : option ascii :=
  if Ascii.eqb c dquote then Some dquote
  else if Ascii.eqb c bslash then Some bslash
  else if Ascii.eqb c "/" then Some "/"%char
  else if Ascii.eqb c "b" then Some (ascii_of_N 8)
  else if Ascii.eqb c "f" then Some (ascii_of_N 12)
  else if Ascii.eqb c "n" then Some (ascii_of_N 10)
  else if Ascii.eqb c "r" then Some (ascii_of_N 13)
  else if Ascii.eqb c "t" then Some (ascii_of_N 9)
  else None.

(** The text of a string literal after its opening quote, and what follows
    the closing quote.  Surrogate pairs are outside the fragment. *)
Fixpoint scan_string (s : string) : option (string * string) :=
  match s with
  | EmptyString => None
  | String c rest =>
      if Ascii.eqb c dquote then Some ("", rest)
      else if Ascii.eqb c bslash then
        match rest with
        | String e rest1 =>
            if Ascii.eqb e "u" then
              match rest1 with
              | String a (String b (String c' (String d rest2))) =>
                  match hex_value a, hex_value b, hex_value c', hex_value d with
                  | Some a, Some b, Some c', Some d =>
                      let u := (((a * 16 + b) * 16 + c') * 16 + d)%N in
                      if ((55296 <=? u) && (u <=? 57343))%N then None
                      else match scan_string rest2 with
                           | Some (t, r) => Some (utf8 u +:+ t, r)
                           | None => None
                           end
                  | _, _, _, _ => None
                  end
              | _ => None
              end
            else
              match simple_escape e with
              | Some x => match scan_string rest1 with
                          | Some (t, r) => Some (String x t, r)
                          | None => None
                          end
              | None => None
              end
        | EmptyString => None
        end
      else if (code c <? 32)%N then None
      else match scan_string rest with
           | Some (t, r) => Some (String c t, r)
           | None => None
           end
  end.

Fixpoint scan_digits (s : string) : string * string :=
  match s with
  | String c s' =>
      if is_digit c then let '(d, r) := scan_digits s' in (String c d, r) else ("", s)
  | EmptyString => ("", s)
  end.

Fixpoint digits_value (acc : Z) (d : string) : Z :=
  match d with
  | EmptyString => acc
  | String c d' => digits_value (acc * 10 + Z.of_N (code c - 48)) d'
  end.

(** A number literal: [-? int frac? exp?].  An integer literal is read as
    the integral [Float64]; a literal with a fraction or an exponent is
    kept as text. *)
Definition scan_number (s : string) : option (any * string) :=
  let '(neg, s1) := match s with
                    | String "-" s' => (true, s')
                    | _ => (false, s)
                    end in
  let '(ds, s2) := scan_digits s1 in
  match ds with
  | EmptyString => None
  | String d0 ds' =>
      if Ascii.eqb d0 "0" && negb (String.eqb ds' "") then None else
      let sign := if neg then "-" else "" in
      let '(frac, s3) :=
        match s2 with
        | String "." s' => let '(f, r) := scan_digits s' in (Some f, r)
        | _ => (None, s2)
        end in
      let '(ex, s4) :=
        match s3 with
        | String e s' =>
            if Ascii.eqb e "e" || Ascii.eqb e "E" then
              let '(sg, s'') := match s' with
                                | String "+" r => ("+", r)
                                | String "-" r => ("-", r)
                                | _ => ("", s')
                                end in
              let '(x, r) := scan_digits s'' in (Some (chr e +:+ sg +:+ x, x), r)
            else (None, s3)
        | _ => (None, s3)
        end in
      match frac, ex with
      | None, None =>
          let v := digits_value 0 ds in Some (Float64 (if neg then - v else v), s2)
      | Some "", _ => None
      | _, Some (_, "") => None
      | _, _ =>
          Some (Number (sign +:+ ds
                        +:+ match frac with Some f => "." +:+ f | None => "" end
                        +:+ match ex with Some (e, _) => e | None => "" end), s4)
      end
  end.

(** Values, the elements of an array after its opening bracket, and the
    members of an object after its opening brace.  [fuel] bounds the number
    of nested calls; [decode_json] supplies more than any text needs. *)
Fixpoint parse_value (fuel : nat) (s : string) : option (any * string) :=
  match fuel with
  | O => None
  | S fuel =>
      let s := skip_space s in
      match s with
      | EmptyString => None
      | String c rest =>
          if Ascii.eqb c dquote then
            match scan_string rest with
            | Some (t, r) => Some (Str t, r)
            | None => None
            end
          else if Ascii.eqb c "[" then
            match skip_space rest with
            | String "]" r => Some (Slice [], r)
            | _ => match parse_elements fuel rest with
                   | Some (l, r) => Some (Slice l, r)
                   | None => None
                   end
            end
          else if Ascii.eqb c "{" then
            match skip_space rest with
            | String "}" r => Some (Map [], r)
            | _ => match parse_members fuel rest with
                   | Some (l, r) => Some (Map l, r)
                   | None => None
                   end
            end
          else if Ascii.eqb c "t" then
            match strip_prefix "rue" rest with Some r => Some (Bool true, r) | None => None end
          else if Ascii.eqb c "f" then
            match strip_prefix "alse" rest with Some r => Some (Bool false, r) | None => None end
          else if Ascii.eqb c "n" then
            match strip_prefix "ull" rest with Some r => Some (Nil, r) | None => None end
          else scan_number s
      end
  end
with parse_elements (fuel : nat) (s : string) : option (list any * string) :=
  match fuel with
  | O => None
  | S fuel =>
      match parse_value fuel s with
      | Some (v, r) =>
          match skip_space r with
          | String "," r' =>
              match parse_elements fuel r' with
              | Some (l, r'') => Some (v :: l, r'')
              | None => None
              end
          | String "]" r' => Some ([v], r')
          | _ => None
          end
      | None => None
      end
  end
with parse_members (fuel : nat) (s : string) : option (list (string * any) * string) :=
  match fuel with
  | O => None
  | S fuel =>
      match skip_space s with
      | String c rest =>
          if Ascii.eqb c dquote then
            match scan_string rest with
            | Some (k, r) =>
                match skip_space r with
                | String ":" r1 =>
                    match parse_value fuel r1 with
                    | Some (v, r2) =>
                        match skip_space r2 with
                        | String "," r3 =>
                            match parse_members fuel r3 with
                            | Some (l, r4) => Some ((k, v) :: l, r4)
                            | None => None
                            end
                        | String "}" r3 => Some ([(k, v)], r3)
                        | _ => None
                        end
                    | None => None
                    end
                | _ => None
                end
            | None => None
            end
          else None
      | EmptyString => None
      end
  end.

(** One complete JSON text, surrounded by optional white space. *)
Definition decode_json (raw : string) : option any :=
  match parse_value (2 * String.length raw + 2) raw with
  | Some (v, r) => match skip_space r with
                   | EmptyString => Some v
                   | _ => None
                   end
  | None => None
  end.

(** ** Data model *)

(** A [chan *ipcResponse] is a reference; [chan_id] is its address in the
    store of channels.  Address [0] is the nil channel. *)
Definition chan_id := nat.
Definition nil_chan : chan_id := 0%nat.

Module ipcResponse.
Record t : Type := mk {
  Error : string;
  Data : any;
  RequestID : Z;
  Event : string;
  EventData : gmap string any;
  ID : Z
}.
Definition zero : t := mk "" Nil 0 "" ∅ 0.
End ipcResponse.

Module ipcRequest.
Record t : Type := mk {
  Command : option (list any);     (* [None] is the nil slice *)
  RequestID : Z;
  Async : bool;
  responseChan : chan_id
}.
Definition zero : t := mk None 0 false nil_chan.
End ipcRequest.

(** [{"command":...,"request_id":...,"async":...}]: the exported fields in
    declaration order; [responseChan] is unexported and stays local. *)
Definition Marshal (req : ipcRequest.t) : string + error :=
  let command := match ipcRequest.Command req with
                 | None => Some "null"
                 | Some l => marshal_any (Slice l)
                 end in
  match command with
  | Some c =>
      inl ("{" +:+ quote "command" +:+ ":" +:+ c
           +:+ "," +:+ quote "request_id" +:+ ":" +:+ pretty (ipcRequest.RequestID req)
           +:+ "," +:+ quote "async" +:+ ":"
           +:+ (if ipcRequest.Async req then "true" else "false") +:+ "}")
  | None => inr json_UnsupportedTypeError
  end.

(** *** Typed decoding of struct fields *)

Definition in_int_range (n : Z) : bool := ((- 2 ^ 63 <=? n) && (n <? 2 ^ 63))%Z.

Definition as_string (field : string) (old : string) (v : any) : string + error :=
  match v with
  | Nil => inl old
  | Str s => inl s
  | _ => inr (json_UnmarshalTypeError field)
  end.

Definition as_int (field : string) (old : Z) (v : any) : Z + error :=
  match v with
  | Nil => inl old
  | Float64 n => if in_int_range n then inl n else inr (json_UnmarshalTypeError field)
  | _ => inr (json_UnmarshalTypeError field)
  end.

Definition as_bool (field : string) (old : bool) (v : any) : bool + error :=
  match v with
  | Nil => inl old
  | Bool b => inl b
  | _ => inr (json_UnmarshalTypeError field)
  end.

Definition as_slice (field : string) (v : any) : option (list any) + error :=
  match v with
  | Nil => inl None
  | Slice l => inl (Some l)
  | _ => inr (json_UnmarshalTypeError field)
  end.

(** The value a JSON object gives a key: of several members with the same
    key the last one counts. *)
Definition member (k : string) (kvs : list (string * any)) : option any :=
  fold_left (fun acc kv => if String.eqb (fst kv) k then Some (snd kv) else acc) kvs None.

Definition with_member {A} (k : string) (kvs : list (string * any))
    (old : A) (conv : A -> any -> A + error) : A + error :=
  match member k kvs with
  | Some v => conv old v
  | None => inl old
  end.

(** [swallowjson.UnmarshalWith(response, "EventData", data)]: the members
    named by the struct tags fill their fields, every other member is
    swallowed by the [EventData] map.  The model is meant for a line that
    holds one JSON object, each tagged key at most once, and nothing after
    it but white space. *)
Definition response_tags : list string := ["error"; "data"; "request_id"; "event"; "id"].

Definition UnmarshalWith (data : string) : ipcResponse.t + error :=
  match decode_json data with
  | None => inr json_SyntaxError
  | Some Nil => inl ipcResponse.zero
  | Some (Map kvs) =>
      match with_member "error" kvs "" (as_string "error") with
      | inr e => inr e
      | inl err =>
      match with_member "request_id" kvs 0 (as_int "request_id") with
      | inr e => inr e
      | inl rid =>
      match with_member "event" kvs "" (as_string "event") with
      | inr e => inr e
      | inl ev =>
      match with_member "id" kvs 0 (as_int "id") with
      | inr e => inr e
      | inl id =>
          let data := default Nil (member "data" kvs) in
          let rest := filter (fun kv => negb (existsb (String.eqb (fst kv)) response_tags)) kvs in
          inl (ipcResponse.mk err data rid ev (list_to_map (reverse rest)) id)
      end end end end
  | Some _ => inr (json_UnmarshalTypeError "")
  end.

(** [json.Unmarshal(requestRaw, request)]: members are matched to the
    fields by tag, exactly or else ignoring case; unknown members are
    skipped; the first type mismatch is the error reported. *)
Definition request_tags : list string := ["command"; "request_id"; "async"].

Definition request_field (k : string) : option string :=
  match find (String.eqb k) request_tags with
  | Some n => Some n
  | None => find (String.eqb (fold_case k)) request_tags
  end.

Definition set_request_field (req : ipcRequest.t) (kv : string * any) : ipcRequest.t + error :=
  let '(k, v) := kv in
  let '(ipcRequest.mk command rid async ch) := req in
  match request_field k with
  | Some "command" =>
      match as_slice "command" v with
      | inl c => inl (ipcRequest.mk c rid async ch)
      | inr e => inr e
      end
  | Some "request_id" =>
      match as_int "request_id" rid v with
      | inl n => inl (ipcRequest.mk command n async ch)
      | inr e => inr e
      end
  | Some "async" =>
      match as_bool "async" async v with
      | inl b => inl (ipcRequest.mk command rid b ch)
      | inr e => inr e
      end
  | _ => inl req
  end.

Fixpoint set_request_fields (req : ipcRequest.t) (kvs : list (string * any))
    : ipcRequest.t + error :=
  match kvs with
  | [] => inl req
  | kv :: kvs' =>
      match set_request_field req kv with
      | inl req' => set_request_fields req' kvs'
      | inr e => inr e
      end
  end.

Definition Unmarshal (raw : string) (request : ipcRequest.t) : ipcRequest.t + error :=
  match decode_json raw with
  | None => inr json_SyntaxError
  | Some Nil => inl request
  | Some (Map kvs) => set_request_fields request kvs
  | Some _ => inr (json_UnmarshalTypeError "")
  end.

(** ** The client and the world around it *)

(** A reply channel: what was sent and not yet received, its capacity, and
    whether it was closed. *)
Record rchan : Type := mk_rchan {
  buf : list ipcResponse.t;
  cap : nat;
  chan_closed : bool
}.

(** What a [go] statement starts.  Callbacks are caller-supplied functions;
    a handle stands for each. *)
Inductive goroutine : Type :=
| go_write
| go_read
| go_listener (f : nat) (payload : gmap string any)
| go_observer (f : nat) (value : any)
| go_Request (command : list any).

(** The observable steps, oldest first. *)
Inductive event : Type :=
| EvGo (g : goroutine)
| EvOnError (handler : nat) (e : error)          (* c.onError(err) *)
| EvEnqueue (req : ipcRequest.t)                 (* c.receiver <- request *)
| EvRegister (id : Z)                            (* c.requests[id] = req *)
| EvConnWrite (bytes : string) (result : option error)
| EvConnClose
| EvSend (ch : chan_id) (resp : ipcResponse.t)   (* ch <- response *)
| EvCloseChan (ch : chan_id).

(** [receiver chan *ipcRequest]: the callers parked in a send, in order of
    arrival, and whether the channel was closed. *)
Record Receiver : Type := mk_receiver {
  waiting : list ipcRequest.t;
  receiver_closed : bool
}.

Record Conn : Type := mk_conn {
  written : list string;
  conn_closed : bool
}.

Record Client : Type := mk_client {
  receiver : Receiver;
  conn : Conn;
  requestMu : bool;
  requests : option (gmap Z ipcRequest.t);       (* [None] is the nil map *)
  listenerMu : bool;
  listeners : option (gmap string nat);
  observerMu : bool;
  observers : option (gmap Z nat);
  onError : option nat;
  closed : bool
}.

(** The client together with what it shares with its callers and with the
    remote process: the store of reply channels, the source of
    [rand.Int()], what the transport will hand to [ReadBytes] and how the
    coming [Write]s will end, and the history of steps. *)
Record World : Type := mk_world {
  client : Client;
  chans : gmap chan_id rchan;
  rand_source : nat -> Z;
  rand_used : nat;
  remote : list (string * option error);
  faults : list (option error);
  trace : list event
}.

Definition set_client (f : Client -> Client) (w : World) : World :=
  mk_world (f (client w)) (chans w) (rand_source w) (rand_used w) (remote w) (faults w) (trace w).
Definition set_chans (f : gmap chan_id rchan -> gmap chan_id rchan) (w : World) : World :=
  mk_world (client w) (f (chans w)) (rand_source w) (rand_used w) (remote w) (faults w) (trace w).
Definition set_rand_used (n : nat) (w : World) : World :=
  mk_world (client w) (chans w) (rand_source w) n (remote w) (faults w) (trace w).
Definition set_remote (r : list (string * option error)) (w : World) : World :=
  mk_world (client w) (chans w) (rand_source w) (rand_used w) r (faults w) (trace w).
Definition set_faults (f : list (option error)) (w : World) : World :=
  mk_world (client w) (chans w) (rand_source w) (rand_used w) (remote w) f (trace w).
Definition log (e : event) (w : World) : World :=
  mk_world (client w) (chans w) (rand_source w) (rand_used w) (remote w) (faults w)
           (trace w ++ [e]).

Definition set_receiver (r : Receiver) (c : Client) : Client :=
  mk_client r (conn c) (requestMu c) (requests c) (listenerMu c) (listeners c)
            (observerMu c) (observers c) (onError c) (closed c).
Definition set_conn (x : Conn) (c : Client) : Client :=
  mk_client (receiver c) x (requestMu c) (requests c) (listenerMu c) (listeners c)
            (observerMu c) (observers c) (onError c) (closed c).
Definition set_requests (m : option (gmap Z ipcRequest.t)) (c : Client) : Client :=
  mk_client (receiver c) (conn c) (requestMu c) m (listenerMu c) (listeners c)
            (observerMu c) (observers c) (onError c) (closed c).
Definition set_listeners (m : option (gmap string nat)) (c : Client) : Client :=
  mk_client (receiver c) (conn c) (requestMu c) (requests c) (listenerMu c) m
            (observerMu c) (observers c) (onError c) (closed c).
Definition set_observers (m : option (gmap Z nat)) (c : Client) : Client :=
  mk_client (receiver c) (conn c) (requestMu c) (requests c) (listenerMu c) (listeners c)
            (observerMu c) m (onError c) (closed c).
Definition set_closed (b : bool) (c : Client) : Client :=
  mk_client (receiver c) (conn c) (requestMu c) (requests c) (listenerMu c) (listeners c)
            (observerMu c) (observers c) (onError c) b.

Inductive Mutex : Type := RequestMu | ListenerMu | ObserverMu.

Definition held (mu : Mutex) (c : Client) : bool :=
  match mu with
  | RequestMu => requestMu c
  | ListenerMu => listenerMu c
  | ObserverMu => observerMu c
  end.

Definition set_held (mu : Mutex) (b : bool) (c : Client) : Client :=
  match mu with
  | RequestMu =>
      mk_client (receiver c) (conn c) b (requests c) (listenerMu c) (listeners c)
                (observerMu c) (observers c) (onError c) (closed c)
  | ListenerMu =>
      mk_client (receiver c) (conn c) (requestMu c) (requests c) b (listeners c)
                (observerMu c) (observers c) (onError c) (closed c)
  | ObserverMu =>
      mk_client (receiver c) (conn c) (requestMu c) (requests c) (listenerMu c) (listeners c)
                b (observers c) (onError c) (closed c)
  end.

(** ** Computations of one goroutine *)

(** A goroutine's computation either returns, panics, or cannot go on in
    the world it has reached (it is parked on a channel or a mutex). *)
Inductive Res (A : Type) : Type :=
| Ok (a : A) (w : World)
| Panic (msg : string) (w : World)
| Blocked (w : World).
Arguments Ok {A} a w.
Arguments Panic {A} msg w.
Arguments Blocked {A} w.

Definition M (A : Type) : Type := World -> Res A.

Definition ret {A} (a : A) : M A := fun w => Ok a w.

Definition bind {A B} (m : M A) (k : A -> M B) : M B :=
  fun w => match m w with
           | Ok a w' => k a w'
           | Panic msg w' => Panic msg w'
           | Blocked w' => Blocked w'
           end.

Declare Scope go_scope.
Delimit Scope go_scope with go.
Notation "x <- m ;; k" := (bind m (fun x => k))
  (at level 100, m at next level, right associativity) : go_scope.
Notation "m ;; k" := (bind m (fun _ => k))
  (at level 100, right associativity) : go_scope.
Open Scope go_scope.

Definition gets {A} (f : Client -> A) : M A := fun w => Ok (f (client w)) w.
Definition modify (f : Client -> Client) : M unit := fun w => Ok tt (set_client f w).
Definition emit (e : event) : M unit := fun w => Ok tt (log e w).
Definition panic {A} (msg : string) : M A := fun w => Panic msg w.

(** [mu.Lock()] parks the goroutine while another one holds the mutex. *)
Definition Lock (mu : Mutex) : M unit :=
  fun w => if held mu (client w) then Blocked w
           else Ok tt (set_client (set_held mu true) w).

Definition Unlock (mu : Mutex) : M unit := modify (set_held mu false).

(** [go f(x)] *)
Definition go (g : goroutine) : M unit := emit (EvGo g).

(** [rand.Int()] *)
Definition rand_Int : M Z :=
  fun w => Ok (rand_source w (rand_used w)) (set_rand_used (S (rand_used w)) w).

(** [make(chan *ipcResponse, cap)]: a channel at an address not in use. *)
Definition make_chan (cap : nat) : M chan_id :=
  fun w => let ch := fresh ({[nil_chan]} ∪ dom (chans w) : gset nat) in
           Ok ch (set_chans (insert ch (mk_rchan [] cap false)) w).

(** [ch <- response] on a reply channel.  The receiver of a reply channel
    is the caller that made it, which takes one value from it; the value
    sent stays in [buf] until that caller picks it up.  A second send
    finds nobody to take it. *)
Definition chan_send (ch : chan_id) (resp : ipcResponse.t) : M unit :=
  fun w => match chans w !! ch with
           | None => Blocked w
           | Some c =>
               if chan_closed c then Panic "send on closed channel" w
               else match buf c with
                    | [] => Ok tt (log (EvSend ch resp)
                               (set_chans (insert ch (mk_rchan [resp] (cap c) false)) w))
                    | _ :: _ => Blocked w
                    end
           end.

(** [close(ch)] *)
Definition chan_close (ch : chan_id) : M unit :=
  fun w => match chans w !! ch with
           | None => Panic "close of nil channel" w
           | Some c =>
               if chan_closed c then Panic "close of closed channel" w
               else Ok tt (log (EvCloseChan ch)
                      (set_chans (insert ch (mk_rchan (buf c) (cap c) true)) w))
           end.

(** [<-ch] where a value is there, or the channel is closed and drained
    (the nil pointer is received); [None] when the goroutine has to wait. *)
Definition chan_poll (ch : chan_id) (w : World) : option (option ipcResponse.t * World) :=
  match chans w !! ch with
  | None => None
  | Some c =>
      match buf c with
      | r :: rest => Some (Some r, set_chans (insert ch (mk_rchan rest (cap c) (chan_closed c))) w)
      | [] => if chan_closed c then Some (None, w) else None
      end
  end.

(** [c.receiver <- request] *)
Definition send_receiver (req : ipcRequest.t) : M unit :=
  fun w => let r := receiver (client w) in
           if receiver_closed r then Panic "send on closed channel" w
           else Ok tt (log (EvEnqueue req)
                  (set_client (set_receiver (mk_receiver (waiting r ++ [req]) false)) w)).

(** [req, ok := <-c.receiver]; [None] is [ok == false]. *)
Definition recv_receiver : M (option ipcRequest.t) :=
  fun w => let r := receiver (client w) in
           if receiver_closed r then Ok None w
           else match waiting r with
                | [] => Blocked w
                | req :: rest =>
                    Ok (Some req) (set_client (set_receiver (mk_receiver rest false)) w)
                end.

(** [close(c.receiver)] *)
Definition close_receiver : M unit :=
  fun w => let r := receiver (client w) in
           if receiver_closed r then Panic "close of closed channel" w
           else Ok tt (set_client (set_receiver (mk_receiver (waiting r) true)) w).

(** [c.conn.Write(bytes)]: fails on a closed connection, and otherwise as
    the transport decides. *)
Definition conn_Write (bytes : string) : M (option error) :=
  fun w => let cn := conn (client w) in
           if conn_closed cn then
             let e := net_Error "use of closed network connection" in
             Ok (Some e) (log (EvConnWrite bytes (Some e)) w)
           else match faults w with
                | Some e :: rest =>
                    Ok (Some e) (log (EvConnWrite bytes (Some e)) (set_faults rest w))
                | _ =>
                    Ok None (log (EvConnWrite bytes None)
                      (set_client (set_conn (mk_conn (written cn ++ [bytes]) false))
                         (set_faults (tail (faults w)) w)))
                end.

(** [c.conn.Close()] *)
Definition conn_Close : M unit :=
  fun w => Ok tt (log EvConnClose
             (set_client (set_conn (mk_conn (written (conn (client w))) true)) w)).

(** [reader.ReadBytes('\n')] on an open connection: the next thing the
    transport delivers; the goroutine waits when nothing is there yet.
    What a read gives once the connection was closed is not modelled. *)
Definition ReadBytes : M (string * option error) :=
  fun w => match remote w with
           | [] => Blocked w
           | r :: rest => Ok r (set_remote rest w)
           end.

(** ** The operations of [Client] *)

(** [func (c *Client) publishError(err error)] *)
Definition publishError (err : error) : M unit :=
  h <- gets onError;;
  match h with
  | Some f => emit (EvOnError f err)
  | None => ret tt
  end.

(** [func (c *Client) Close()] *)
Definition Close : M unit :=
  modify (set_closed true);;
  close_receiver;;
  conn_Close.

(** The body of the loop of [write], from the request it took from the
    queue on; each [continue] ends the body. *)
Definition write_body (req : ipcRequest.t) : M unit :=
  match Marshal req with
  | inr err => publishError err
  | inl body =>
      Lock RequestMu;;
      m <- gets requests;;
      match m with
      | None => modify (set_requests (Some ∅))
      | Some _ => ret tt
      end;;
      modify (fun c => set_requests
                (Some (<[ipcRequest.RequestID req := req]> (default ∅ (requests c)))) c);;
      emit (EvRegister (ipcRequest.RequestID req));;
      Unlock RequestMu;;
      err <- conn_Write body;;
      match err with
      | Some err => publishError err
      | None =>
          err <- conn_Write (chr newline);;
          match err with
          | Some err => publishError err
          | None => ret tt
          end
      end
  end.

(** [func (c *Client) write()].  An iteration takes one request from the
    queue; [fuel] counts the iterations still allowed. *)
Fixpoint write_loop (fuel : nat) : M unit :=
  match fuel with
  | O => fun w => Blocked w
  | S fuel =>
      r <- recv_receiver;;
      match r with
      | None => ret tt
      | Some req => write_body req;; write_loop fuel
      end
  end.

Definition write : M unit :=
  fun w => write_loop (S (length (waiting (receiver (client w))))) w.

(** [func (c *Client) dispatch(response *ipcResponse)] *)
Definition dispatch (response : ipcResponse.t) : M unit :=
  if String.eqb (ipcResponse.Event response) "" then
    Lock RequestMu;;
    m <- gets requests;;
    match m with
    | None => Unlock RequestMu
    | Some m =>
        match m !! ipcResponse.RequestID response with
        | None => Unlock RequestMu
        | Some request =>
            chan_send (ipcRequest.responseChan request) response;;
            chan_close (ipcRequest.responseChan request);;
            modify (set_requests (Some (delete (ipcResponse.RequestID response) m)));;
            Unlock RequestMu
        end
    end
  else if String.eqb (ipcResponse.Event response) "property-change" then
    Lock ObserverMu;;
    m <- gets observers;;
    match m with
    | None => Unlock ObserverMu
    | Some m =>
        match m !! ipcResponse.ID response with
        | Some observer => go (go_observer observer (ipcResponse.Data response))
        | None => ret tt
        end;;
        Unlock ObserverMu
    end
  else
    Lock ListenerMu;;
    m <- gets listeners;;
    match m with
    | None => Unlock ListenerMu
    | Some m =>
        match m !! ipcResponse.Event response with
        | Some listener => go (go_listener listener (ipcResponse.EventData response))
        | None => ret tt
        end;;
        Unlock ListenerMu
    end.

Inductive loop : Type := Continue | Return.

Definition is_EOF (e : error) : bool :=
  match e with io_EOF => true | _ => false end.

(** One iteration of the loop of [read]. *)
Definition read_body : M loop :=
  r <- ReadBytes;;
  match snd r with
  | Some err =>
      if is_EOF err then Close;; ret Return
      else publishError err;; ret Continue
  | None =>
      match UnmarshalWith (fst r) with
      | inr err => publishError err;; ret Continue
      | inl response => dispatch response;; ret Continue
      end
  end.

(** [func (c *Client) read()] *)
Fixpoint read_loop (fuel : nat) : M unit :=
  match fuel with
  | O => fun w => Blocked w
  | S fuel =>
      l <- read_body;;
      match l with
      | Continue => read_loop fuel
      | Return => ret tt
      end
  end.

Definition read : M unit := fun w => read_loop (S (length (remote w))) w.

(** *** Waiting for a reply *)

(** While a caller is parked in [<-request.responseChan] the two loops
    run: the writer takes what is queued, then the reader goes through the
    incoming frames until the caller's channel has something for it. *)
Definition run_writer : M unit :=
  fun w => match write w with
           | Ok _ w' => Ok tt w'
           | Blocked w' => Ok tt w'
           | Panic msg w' => Panic msg w'
           end.

Fixpoint await (fuel : nat) (ch : chan_id) : M (option ipcResponse.t) :=
  fun w => match chan_poll ch w with
           | Some (r, w') => Ok r w'
           | None =>
               match fuel with
               | O => Blocked w
               | S fuel =>
                   match read_body w with
                   | Ok Continue w' => await fuel ch w'
                   | Ok Return w' => Blocked w'
                   | Panic msg w' => Panic msg w'
                   | Blocked w' => Blocked w'
                   end
               end
           end.

(** [<-ch] on a reply channel *)
Definition chan_recv (ch : chan_id) : M (option ipcResponse.t) :=
  run_writer;;
  fun w => await (length (remote w)) ch w.

(** What [requestSend] makes of the response it received. *)
Definition reply_result (response : ipcResponse.t) : any * option error :=
  if negb (String.eqb (ipcResponse.Error response) "success")
  then (Nil, Some (MpvError (ipcResponse.Error response)))
  else (ipcResponse.Data response, None).

(** [func (c *Client) requestSend(request *ipcRequest) (any, error)] *)
Definition requestSend (request : ipcRequest.t) : M (any * option error) :=
  is_closed <- gets closed;;
  if is_closed then ret (Nil, Some ErrClosed)
  else
    send_receiver request;;
    response <- chan_recv (ipcRequest.responseChan request);;
    match response with
    | None => panic "nil pointer dereference"
    | Some response => ret (reply_result response)
    end.

(** The slice a variadic call receives: nil when called without
    arguments. *)
Definition variadic (command : list any) : option (list any) :=
  match command with
  | [] => None
  | _ => Some command
  end.

(** [func (c *Client) requestInternal(command []any, async bool) (any, error)] *)
Definition requestInternal (command : option (list any)) (async : bool)
    : M (any * option error) :=
  id <- rand_Int;;
  ch <- make_chan 0;;
  requestSend (ipcRequest.mk command id async ch).

(** [func (c *Client) Request(command ...any) (any, error)] *)
Definition Request (command : list any) : M (any * option error) :=
  requestInternal (variadic command) true.

(** [func (c *Client) RequestSync(command ...any) (any, error)] *)
Definition RequestSync (command : list any) : M (any * option error) :=
  requestInternal (variadic command) false.

(** [func (c *Client) RequestJSON(requestRaw []byte) (any, error)] *)
Definition RequestJSON (requestRaw : string) : M (any * option error) :=
  match Unmarshal requestRaw ipcRequest.zero with
  | inr err => ret (Nil, Some err)
  | inl request =>
      id <- rand_Int;;
      ch <- make_chan 1;;
      requestSend (ipcRequest.mk (ipcRequest.Command request) id (ipcRequest.Async request) ch)
  end.

(** [func (c *Client) RegisterListener(event string, listener func(map[string]any)) error];
    the deferred [Unlock] runs at each [return]. *)
Definition RegisterListener (event : string) (listener : nat) : M (option error) :=
  Lock ListenerMu;;
  ls <- gets listeners;;
  err <- match ls with
         | None => modify (set_listeners (Some ∅));; ret None
         | Some m =>
             match m !! event with
             | None => r <- Request [Str "enable_event"; Str event];; ret (snd r)
             | Some _ => ret None
             end
         end;;
  match err with
  | Some err => Unlock ListenerMu;; ret (Some err)
  | None =>
      modify (fun c => set_listeners (Some (<[event := listener]> (default ∅ (listeners c)))) c);;
      Unlock ListenerMu;;
      ret None
  end.

(** [func (c *Client) UnregisterListener(event string)] *)
Definition UnregisterListener (event : string) : M unit :=
  Lock ListenerMu;;
  modify (fun c => set_listeners (delete event <$> listeners c) c);;
  Unlock ListenerMu;;
  go (go_Request [Str "disable_event"; Str event]).

(** [func (c *Client) ObserveProperty(property string, observer func(any)) (int, error)] *)
Definition ObserveProperty (property : string) (observer : nat) : M (Z * option error) :=
  id <- rand_Int;;
  r <- Request [Str "observe_property"; Int id; Str property];;
  match snd r with
  | Some err => ret (0, Some err)
  | None =>
      Lock ObserverMu;;
      m <- gets observers;;
      match m with
      | None => modify (set_observers (Some ∅))
      | Some _ => ret tt
      end;;
      modify (fun c => set_observers (Some (<[id := observer]> (default ∅ (observers c)))) c);;
      Unlock ObserverMu;;
      ret (id, None)
  end.

(** [func (c *Client) UnobserveProperty(id int)] *)
Definition UnobserveProperty (id : Z) : M unit :=
  Lock ObserverMu;;
  modify (fun c => set_observers (delete id <$> observers c) c);;
  Unlock ObserverMu;;
  go (go_Request [Str "unobserve_property"; Int id]).

(** [func connectInternal(conn net.Conn, onError func(error)) *Client],
    in a world given by its source of random numbers and by what the
    transport is going to do. *)
Definition connectInternal (onError : option nat) (rand : nat -> Z)
    (remote : list (string * option error)) (faults : list (option error)) : World :=
  mk_world
    (mk_client (mk_receiver [] false) (mk_conn [] false)
               false None false None false None onError false)
    ∅ rand 0%nat remote faults [EvGo go_write; EvGo go_read].

(** A frame as [ReadBytes] returns it: the text and the newline that ended it. *)
Definition line (s : string) : string * option error := (wire s +:+ chr newline, None).


(** ** Notions used in the statements *)

(** The world in which a goroutine's computation ended. *)
Definition final {A} (r : Res A) : World :=
  match r with
  | Ok _ w => w
  | Panic _ w => w
  | Blocked w => w
  end.

(** A computation that never resets the [closed] flag. *)
Definition stays_closed {A} (m : M A) : Prop :=
  forall w, closed (client w) = true -> closed (client (final (m w))) = true.

(** The world after the dispatcher delivered [response] to [request],
    whose channel was [c]: the response sent, the channel closed, the
    entry deleted. *)
Definition delivered (response : ipcResponse.t) (request : ipcRequest.t) (c : rchan)
    (w : World) : World :=
  let ch := ipcRequest.responseChan request in
  set_client (fun cl => set_requests
                (delete (ipcResponse.RequestID response) <$> requests cl) cl)
    (log (EvCloseChan ch) (log (EvSend ch response)
       (set_chans (insert ch (mk_rchan [response] (cap c) true)) w))).

(** The world right after [write] has put [req] into the registry. *)
Definition registered (req : ipcRequest.t) (w : World) : World :=
  log (EvRegister (ipcRequest.RequestID req))
    (set_client (fun c => set_requests
       (Some (<[ipcRequest.RequestID req := req]> (default ∅ (requests c)))) c) w).

(** The world after [publishError err]: the handler, when one is set, was
    called on [err]; nothing else changed. *)
Definition reported (err : error) (w : World) : World :=
  match onError (client w) with
  | Some h => log (EvOnError h err) w
  | None => w
  end.

Definition is_send (ch : chan_id) (e : event) : bool :=
  match e with
  | EvSend ch' _ => Nat.eqb ch ch'
  | _ => false
  end.

(** How many responses were sent on [ch] in a history. *)
Definition sends (ch : chan_id) (tr : list event) : nat :=
  length (List.filter (is_send ch) tr).

(** The dispatcher run on a sequence of frames, as the reader loop does
    with the lines it decodes. *)
Fixpoint dispatch_all (frames : list ipcResponse.t) : M unit :=
  match frames with
  | [] => ret tt
  | response :: frames' => dispatch response;; dispatch_all frames'
  end.

(** Some registered request waits for its reply on [ch]. *)
Definition waiting_on (w : World) (ch : chan_id) : Prop :=
  exists m id req, requests (client w) = Some m /\ m !! id = Some req
                   /\ ipcRequest.responseChan req = ch.

(** No goroutine is inside a critical section, and every registered
    request has a live channel of its own: open, nothing sent on it yet,
    and shared with no request registered under another id. *)
Record registry_live (w : World) : Prop := {
  live_requestMu : requestMu (client w) = false;
  live_listenerMu : listenerMu (client w) = false;
  live_observerMu : observerMu (client w) = false;
  live_channel : forall m id req,
      requests (client w) = Some m -> m !! id = Some req ->
      exists c, chans w !! ipcRequest.responseChan req = Some c
                /\ chan_closed c = false /\ buf c = [];
  live_distinct : forall m id1 id2 r1 r2,
      requests (client w) = Some m -> m !! id1 = Some r1 -> m !! id2 = Some r2 ->
      ipcRequest.responseChan r1 = ipcRequest.responseChan r2 -> id1 = id2
}.

(** *** Sample values *)

Definition get_volume : ipcRequest.t :=
  ipcRequest.mk (Some [Str "get_property"; Str "volume"]) 42 false 1%nat.

Definition get_volume_line : string :=
  wire "{'command':['get_property','volume'],'request_id':42,'async':false}".

Definition reply_50 : ipcResponse.t := ipcResponse.mk "success" (Float64 50) 42 "" ∅ 0.

Definition volume_changed : ipcResponse.t :=
  ipcResponse.mk "" (Float64 61) 0 "property-change" {[ "name" := Str "volume" ]} 1.

(** A client with [get_volume] outstanding and one observer, number 1. *)
Definition busy_world : World :=
  mk_world
    (mk_client (mk_receiver [] false) (mk_conn [get_volume_line; chr newline] false)
               false (Some {[ 42 := get_volume ]}) false None
               false (Some {[ 1 := 9%nat ]}) (Some 0%nat) false)
    {[ 1%nat := mk_rchan [] 0 false ]} (fun _ => 42) 1%nat [] [] [].

(** A fresh client whose caller has just parked [get_volume] in the queue. *)
Definition queued_world (onError : option nat) (faults : list (option error)) : World :=
  mk_world
    (mk_client (mk_receiver [get_volume] false) (mk_conn [] false)
               false None false None false None onError false)
    {[ 1%nat := mk_rchan [] 0 false ]} (fun _ => 42) 1%nat [] faults [].

(** A fresh client whose caller made the channel for [get_volume]; the
    remote process is going to answer that the property does not exist. *)
Definition not_found_world : World :=
  set_chans (insert 1%nat (mk_rchan [] 0 false))
    (connectInternal None (fun _ => 42)
       [line "{'error':'property not found','data':null,'request_id':42}"] []).

(** *** Notions for the loops as a whole *)

(** The ids under which a request is registered. *)
Definition registered_ids (w : World) : gset Z := dom (default ∅ (requests (client w))).

(** What the writer puts on the transport for a request: its encoding and
    a newline, or nothing when it has no encoding. *)
Definition frame_bytes (req : ipcRequest.t) : list string :=
  match Marshal req with
  | inl body => [body; chr newline]
  | inr _ => []
  end.

(** The id the writer registers for a request: none when the request has
    no encoding. *)
Definition encodable_id (req : ipcRequest.t) : gset Z :=
  match Marshal req with
  | inl _ => {[ ipcRequest.RequestID req ]}
  | inr _ => ∅
  end.

(** The error that an iteration of the reader reports for what
    [ReadBytes] returned, when it reports one. *)
Definition read_error (r : string * option error) : option error :=
  match snd r with
  | Some err => if is_EOF err then None else Some err
  | None => match UnmarshalWith (fst r) with
            | inr err => Some err
            | inl _ => None
            end
  end.

(** The caller of a request that is not in the registry: its channel is
    there, open and empty, and no registered request uses it. *)
Definition unanswerable (ch : chan_id) (w : World) : Prop :=
  registry_live w
  /\ receiver_closed (receiver (client w)) = false
  /\ chans w !! ch = Some (mk_rchan [] 0 false)
  /\ ~ waiting_on w ch.

(** ** Socket paths *)

(** [strconv.FormatUint(n, 10)] *)
Definition FormatUint (n : N) : string := pretty n.

(** [func generatePath() (string, error)] of connect_windows.go, on the
    number that [rand.Uint64()] returns. *)
Definition generatePath_windows (rand_Uint64 : N) : string * option error :=
  ("\\.\pipe\" +:+ FormatUint rand_Uint64, None).

(** [func generatePath() (string, error)] of the Unix build, on what
    [os.TempDir()] returns, on how [os.MkdirAll] ends for a directory, and
    on the number that [rand.Uint64()] returns. *)
Definition generatePath_unix (TempDir : string) (MkdirAll : string -> option error)
    (rand_Uint64 : N) : string * option error :=
  let socketDir := TempDir +:+ "/mpvsockets/" in
  match MkdirAll socketDir with
  | Some err => ("", Some err)
  | None => (socketDir +:+ FormatUint rand_Uint64, None)
  end.

(** *** More sample values *)

Definition seek_line : string :=
  wire "{'event':'seek','target':12,'id':3,'target':15}".

Definition request_7 : ipcRequest.t :=
  ipcRequest.mk (Some [Str "get_property"; Str "pause"]) 7 true 1%nat.

Definition request_8 : ipcRequest.t :=
  ipcRequest.mk (Some [Str "get_property"; Str "volume"]) 8 true 2%nat.

Definition reply_to (id : Z) (v : any) : ipcResponse.t :=
  ipcResponse.mk "success" v id "" ∅ 0.

(** A client with [request_7] and [request_8] outstanding. *)
Definition two_pending_world : World :=
  mk_world
    (mk_client (mk_receiver [] false) (mk_conn [] false)
               false (Some {[ 7 := request_7; 8 := request_8 ]}) false None
               false None None false)
    {[ 1%nat := mk_rchan [] 0 false; 2%nat := mk_rchan [] 0 false ]}
    (fun _ => 9) 2%nat [] [] [].

(** A client whose callers have parked [request_7] and [request_8], in
    that order. *)
Definition two_queued_world : World :=
  mk_world
    (mk_client (mk_receiver [request_7; request_8] false) (mk_conn [] false)
               false None false None false None None false)
    {[ 1%nat := mk_rchan [] 0 false; 2%nat := mk_rchan [] 0 false ]}
    (fun _ => 9) 2%nat [] [] [].

(** A client with [request_7] outstanding while another request with the
    same id is about to be written. *)
Definition request_7_again : ipcRequest.t :=
  ipcRequest.mk (Some [Str "get_property"; Str "volume"]) 7 true 2%nat.

Definition collision_world : World :=
  mk_world
    (mk_client (mk_receiver [] false) (mk_conn [] false)
               false (Some {[ 7 := request_7 ]}) false None
               false None None false)
    {[ 1%nat := mk_rchan [] 0 false; 2%nat := mk_rchan [] 0 false ]}
    (fun _ => 9) 2%nat [] [] [].

(** A fresh client that already has a listener for "seek"; its random
    numbers are 7, 8, ... *)
Definition listening_world (remote : list (string * option error)) : World :=
  set_client (set_listeners (Some {[ "seek" := 1%nat ]}))
    (connectInternal None (fun n => 7 + Z.of_nat n) remote []).

(** *** Requests that pass through the codec unchanged *)

Fixpoint all_digits (d : string) : bool :=
  match d with
  | EmptyString => true
  | String c d' => is_digit c && all_digits d'
  end.

(** What follows a value inside an array or an object. *)
Definition terminator (c : ascii) : Prop := c = ","%char \/ c = "]"%char \/ c = "}"%char.

(** The first character of an encoded value other than an object. *)
Definition starts_value (c : ascii) : bool :=
  is_digit c || Ascii.eqb c "-" || Ascii.eqb c dquote || Ascii.eqb c "["
  || Ascii.eqb c "n" || Ascii.eqb c "t" || Ascii.eqb c "f".

Fixpoint ascii_text (s : string) : bool :=
  match s with
  | EmptyString => true
  | String c s' => (code c <? 128)%N && ascii_text s'
  end.

(** Command arguments on which the model of the codec is exact: nil,
    booleans, integers that a float64 holds exactly, ASCII text, and
    slices of these.  [json.Marshal] rewrites invalid UTF-8 and escapes
    U+2028 and U+2029, and a float64 beyond 2^53 is not every integer. *)
Fixpoint plain (v : any) : bool :=
  match v with
  | Nil | Bool _ => true
  | Int n | Float64 n => (Z.abs n <=? 2 ^ 53)%Z
  | Str s => ascii_text s
  | Slice l => forallb plain l
  | _ => false
  end.

(** What [json.Unmarshal] into an [any] makes of an encoded value: every
    number is a float64. *)
Fixpoint decoded (v : any) : any :=
  match v with
  | Int n => Float64 n
  | Slice l => Slice (map decoded l)
  | _ => v
  end.

(** The nested calls [parse_value] makes on the encoding of a value. *)
Fixpoint weight (v : any) : nat :=
  match v with
  | Slice l => S (list_sum (map (fun v => S (weight v)) l))
  | _ => 1
  end.

(** A value is encoded, the decoder reads the encoding back as [decoded v]
    and stops at what follows, and [decoded v] has the same encoding. *)
Definition round_trips (v : any) : Prop :=
  exists c e,
    marshal_any v = Some (String c e)
    /\ marshal_any (decoded v) = Some (String c e)
    /\ starts_value c = true
    /\ (weight v <= String.length (String c e))%nat
    /\ forall fuel t rest, (weight v <= fuel)%nat -> terminator t ->
         parse_value fuel (String c e +:+ String t rest) = Some (decoded v, String t rest).

Definition plain_command (command : option (list any)) : bool :=
  match command with
  | None => true
  | Some l => forallb plain l
  end.

Definition plain_request (req : ipcRequest.t) : bool :=
  plain_command (ipcRequest.Command req) && in_int_range (ipcRequest.RequestID req).

(** The request [json.Unmarshal] fills from the encoding of [req],
    starting from the zero request. *)
Definition decoded_request (req : ipcRequest.t) : ipcRequest.t :=
  ipcRequest.mk (option_map (map decoded) (ipcRequest.Command req))
    (ipcRequest.RequestID req) (ipcRequest.Async req) nil_chan.

(** The text of a request around its three values. *)
Definition request_text (command : string) (id : Z) (async : bool) : string :=
  wire "{'command':" +:+ command +:+ wire ",'request_id':" +:+ pretty id
  +:+ wire ",'async':" +:+ (if async then "true" else "false") +:+ "}".

(** The text of a property-change frame around its id, the name of the
    property and the encoded value. *)
Definition property_change_text (id : Z) (name data : string) : string :=
  wire "{'event':'property-change','id':" +:+ pretty id
  +:+ wire ",'name':" +:+ quote name +:+ wire ",'data':" +:+ data +:+ "}".

Definition set_volume : ipcRequest.t :=
  ipcRequest.mk (Some [Str "set_property"; Str "volume"; Int (-5); Slice [Bool true; Nil]])
    9 true nil_chan.

(** * Properties *)

Ltac destruct_world w :=
  let cl := fresh "cl" in
  destruct w as [cl chs rnd used rem flt tr];
  destruct cl as [rcv cn rmu reqs lmu lsn omu obs sink cf]; simpl in *.

Ltac step :=
  unfold bind, ret, gets, modify, emit, go, panic, Lock, Unlock,
         set_client, set_chans, log, set_requests, set_held; simpl.

(** ** The codec on sample texts *)

Example decode_json_reply :
  decode_json (wire "{'error':'success','data':50,'request_id':42}")
  = Some (Map [("error", Str "success"); ("data", Float64 50); ("request_id", Float64 42)]).
Proof. vm_compute. reflexivity. Qed.

Example decode_json_nested :
  decode_json (wire " {'a': [1, -2.5e3, true, null, {'b':'x\ny'}], 'c' : [] } ")
  = Some (Map [("a", Slice [Float64 1; Number "-2.5e3"; Bool true; Nil;
                            Map [("b", Str ("x" +:+ chr newline +:+ "y"))]]);
               ("c", Slice [])]).
Proof. vm_compute. reflexivity. Qed.

Example marshal_any_example :
  marshal_any (Slice [Str "get_property"; Str "volume"; Int 7; Bool false; Nil])
  = Some (wire "['get_property','volume',7,false,null]").
Proof. vm_compute. reflexivity. Qed.

Example UnmarshalWith_reply :
  UnmarshalWith (wire "{'error':'success','data':50,'request_id':42}" +:+ chr newline)
  = inl (ipcResponse.mk "success" (Float64 50) 42 "" ∅ 0).
Proof. vm_compute. reflexivity. Qed.

Example UnmarshalWith_property_change :
  UnmarshalWith (wire "{'event':'property-change','id':1,'name':'volume','data':61.5}")
  = inl (ipcResponse.mk "" (Number "61.5") 0 "property-change" {[ "name" := Str "volume" ]} 1).
Proof. vm_compute. reflexivity. Qed.

Example Unmarshal_request :
  Unmarshal (wire "{'command':['set','pause','yes'],'Request_ID':5,'extra':1}") ipcRequest.zero
  = inl (ipcRequest.mk (Some [Str "set"; Str "pause"; Str "yes"]) 5 false nil_chan).
Proof. vm_compute. reflexivity. Qed.

Example Marshal_request :
  Marshal (ipcRequest.mk (Some [Str "get_property"; Str "volume"]) 42 false 1%nat)
  = inl (wire "{'command':['get_property','volume'],'request_id':42,'async':false}").
Proof. vm_compute. reflexivity. Qed.

Example RequestSync_volume :
  exists w,
    RequestSync [Str "get_property"; Str "volume"]
      (connectInternal None (fun _ => 42)
         [line "{'error':'success','data':50,'request_id':42}"] [])
    = Ok (Float64 50, None) w
    /\ written (conn (client w))
       = [wire "{'command':['get_property','volume'],'request_id':42,'async':false}";
          chr newline]
    /\ requests (client w) = Some ∅.
Proof. eexists. vm_compute. repeat split; reflexivity. Qed.

(** ** Steps that always go through *)

Lemma publishError_ok (err : error) (w : World) :
  exists w', publishError err w = Ok tt w'
             /\ client w' = client w /\ chans w' = chans w /\ remote w' = remote w
             /\ faults w' = faults w
             /\ trace w' = trace w ++ match onError (client w) with
                                      | Some h => [EvOnError h err]
                                      | None => []
                                      end.
Proof.
  unfold publishError. step. destruct (onError (client w)); simpl.
  - eexists. split; [reflexivity|]. simpl. auto.
  - eexists. split; [reflexivity|]. rewrite app_nil_r. auto.
Qed.

Lemma publishError_reported (err : error) (w : World) :
  publishError err w = Ok tt (reported err w).
Proof.
  unfold publishError, reported. step. destruct (onError (client w)); reflexivity.
Qed.

Lemma reported_facts (err : error) (w : World) :
  client (reported err w) = client w
  /\ chans (reported err w) = chans w
  /\ remote (reported err w) = remote w
  /\ faults (reported err w) = faults w
  /\ trace (reported err w) = trace w ++ match onError (client w) with
                                         | Some h => [EvOnError h err]
                                         | None => []
                                         end.
Proof.
  unfold reported. destruct (onError (client w)); simpl; rewrite ?app_nil_r; auto.
Qed.

Lemma conn_Write_ok (bytes : string) (w : World) :
  exists r w', conn_Write bytes w = Ok r w'
    /\ chans w' = chans w
    /\ requests (client w') = requests (client w)
    /\ receiver (client w') = receiver (client w)
    /\ trace w' = trace w ++ [EvConnWrite bytes r].
Proof.
  unfold conn_Write. destruct (conn_closed _).
  - do 2 eexists. split; [reflexivity|]. simpl. auto.
  - destruct (faults w) as [|[e|] fl];
      (do 2 eexists; split; [reflexivity|]; simpl; auto).
Qed.

(** ** The dispatcher *)

(** A command reply that no registry entry is waiting for changes nothing. *)
Lemma dispatch_unmatched (w : World) (response : ipcResponse.t) :
  ipcResponse.Event response = "" ->
  requestMu (client w) = false ->
  (forall m, requests (client w) = Some m -> m !! ipcResponse.RequestID response = None) ->
  dispatch response w = Ok tt w.
Proof.
  intros Hev Hmu Hnone. destruct_world w. subst.
  unfold dispatch. rewrite Hev. step.
  destruct reqs as [m|]; [rewrite (Hnone m eq_refl)|]; reflexivity.
Qed.

Lemma sends_app (ch : chan_id) (tr1 tr2 : list event) :
  sends ch (tr1 ++ tr2) = (sends ch tr1 + sends ch tr2)%nat.
Proof. unfold sends. rewrite List.filter_app, length_app. reflexivity. Qed.

Lemma sends_delivery (ch ch' : chan_id) (r : ipcResponse.t) :
  sends ch [EvSend ch' r; EvCloseChan ch'] = if Nat.eqb ch ch' then 1%nat else 0%nat.
Proof. unfold sends. simpl. destruct (Nat.eqb ch ch'); reflexivity. Qed.

Lemma registry_live_log (e : event) (w : World) : registry_live w -> registry_live (log e w).
Proof. intros [H1 H2 H3 H4 H5]. destruct w. constructor; simpl in *; auto. Qed.

(** One frame: the dispatcher completes, the registry stays live, no
    request starts waiting, and a channel gets a response only if a request
    was waiting on it, which then waits no more. *)
Lemma dispatch_live (response : ipcResponse.t) (w : World) :
  registry_live w ->
  exists w1, dispatch response w = Ok tt w1
    /\ registry_live w1
    /\ (forall ch, waiting_on w1 ch -> waiting_on w ch)
    /\ (forall ch, sends ch (trace w1) = sends ch (trace w)
                   \/ (sends ch (trace w1) = S (sends ch (trace w))
                       /\ waiting_on w ch /\ ~ waiting_on w1 ch)).
Proof.
  intros Hlive. pose proof Hlive as [Hrmu Hlmu Homu Hchan Hdist].
  unfold dispatch.
  destruct (ipcResponse.Event response =? "")%string eqn:Hev;
    [|destruct (ipcResponse.Event response =? "property-change")%string].
  - apply String.eqb_eq in Hev.
    destruct (requests (client w)) as [m|] eqn:Hreq.
    + destruct (m !! ipcResponse.RequestID response) as [request|] eqn:Hm.
      * destruct (Hchan m _ request eq_refl Hm) as (c & Hc & Hopen & Hbuf).
        exists (delivered response request c w).
        assert (Hrun : (Lock RequestMu;;
                        m <- gets requests;;
                        match m with
                        | Some m =>
                            match m !! ipcResponse.RequestID response with
                            | Some request =>
                                chan_send (ipcRequest.responseChan request) response;;
                                chan_close (ipcRequest.responseChan request);;
                                modify (set_requests
                                  (Some (delete (ipcResponse.RequestID response) m)));;
                                Unlock RequestMu
                            | None => Unlock RequestMu
                            end
                        | None => Unlock RequestMu
                        end) w = Ok tt (delivered response request c w)).
        { clear Hlive Hchan Hdist. destruct_world w. subst. unfold delivered. step.
          unfold chan_send, chan_close. simpl.
          rewrite Hm. simpl. rewrite Hc, Hopen, Hbuf. simpl.
          rewrite lookup_insert_eq. simpl. step.
          rewrite insert_insert_eq, <- app_assoc. reflexivity. }
        split; [exact Hrun|].
        assert (Hreq1 : requests (client (delivered response request c w))
                        = Some (delete (ipcResponse.RequestID response) m)).
        { unfold delivered. destruct_world w. subst. reflexivity. }
        assert (Hch1 : forall ch, ch <> ipcRequest.responseChan request ->
                  chans (delivered response request c w) !! ch = chans w !! ch).
        { intros ch Hne. unfold delivered. destruct_world w. apply lookup_insert_ne. auto. }
        assert (Htr1 : trace (delivered response request c w)
                       = trace w ++ [EvSend (ipcRequest.responseChan request) response;
                                     EvCloseChan (ipcRequest.responseChan request)]).
        { unfold delivered. destruct_world w. rewrite <- app_assoc. reflexivity. }
        assert (Hgone : ~ waiting_on (delivered response request c w)
                            (ipcRequest.responseChan request)).
        { intros (m' & id & req & Hm' & Hid & Hsame). rewrite Hreq1 in Hm'.
          injection Hm' as <-. apply lookup_delete_Some in Hid as [Hne Hid].
          apply Hne. symmetry. eapply Hdist; eauto. }
        split; [|split].
        -- constructor.
           ++ unfold delivered. destruct_world w. exact Hrmu.
           ++ unfold delivered. destruct_world w. exact Hlmu.
           ++ unfold delivered. destruct_world w. exact Homu.
           ++ intros m' id req Hm' Hid. rewrite Hreq1 in Hm'. injection Hm' as <-.
              apply lookup_delete_Some in Hid as [Hne Hid].
              rewrite Hch1; [eapply Hchan; eauto|].
              intros Hsame. apply Hne. symmetry. eapply Hdist; eauto.
           ++ intros m' id1 id2 r1 r2 Hm' H1 H2. rewrite Hreq1 in Hm'. injection Hm' as <-.
              apply lookup_delete_Some in H1 as [_ H1].
              apply lookup_delete_Some in H2 as [_ H2]. eapply Hdist; eauto.
        -- intros ch (m' & id & req & Hm' & Hid & Hsame). rewrite Hreq1 in Hm'.
           injection Hm' as <-. apply lookup_delete_Some in Hid as [_ Hid].
           exists m, id, req. auto.
        -- intros ch. rewrite Htr1, sends_app, sends_delivery.
           destruct (Nat.eqb_spec ch (ipcRequest.responseChan request)) as [->|Hne].
           ++ right. split; [lia|]. split; [|exact Hgone].
              exists m, (ipcResponse.RequestID response), request. auto.
           ++ left. lia.
      * exists w. split.
        { clear Hlive Hchan Hdist. destruct_world w. subst. step. rewrite Hm. reflexivity. }
        split; [exact Hlive|]. split; auto.
    + exists w. split.
      { clear Hlive Hchan Hdist. destruct_world w. subst. reflexivity. }
      split; [exact Hlive|]. split; auto.
  - destruct (observers (client w)) as [m|] eqn:Hobs.
    + destruct (m !! ipcResponse.ID response) as [observer|] eqn:Hm.
      * exists (log (EvGo (go_observer observer (ipcResponse.Data response))) w). split.
        { clear Hlive Hchan Hdist. destruct_world w. subst. step. rewrite Hm. reflexivity. }
        split; [apply registry_live_log, Hlive|]. split.
        -- intros ch. destruct w. auto.
        -- intros ch. left. destruct w. simpl. rewrite sends_app. unfold sends at 2.
           simpl. lia.
      * exists w. split.
        { clear Hlive Hchan Hdist. destruct_world w. subst. step. rewrite Hm. reflexivity. }
        split; [exact Hlive|]. split; auto.
    + exists w. split.
      { clear Hlive Hchan Hdist. destruct_world w. subst. reflexivity. }
      split; [exact Hlive|]. split; auto.
  - destruct (listeners (client w)) as [m|] eqn:Hls.
    + destruct (m !! ipcResponse.Event response) as [listener|] eqn:Hm.
      * exists (log (EvGo (go_listener listener (ipcResponse.EventData response))) w). split.
        { clear Hlive Hchan Hdist. destruct_world w. subst. step. rewrite Hm. reflexivity. }
        split; [apply registry_live_log, Hlive|]. split.
        -- intros ch. destruct w. auto.
        -- intros ch. left. destruct w. simpl. rewrite sends_app. unfold sends at 2.
           simpl. lia.
      * exists w. split.
        { clear Hlive Hchan Hdist. destruct_world w. subst. step. rewrite Hm. reflexivity. }
        split; [exact Hlive|]. split; auto.
    + exists w. split.
      { clear Hlive Hchan Hdist. destruct_world w. subst. reflexivity. }
      split; [exact Hlive|]. split; auto.
Qed.

(** Any number of frames: each channel gets at most one response, and only
    a channel some request was waiting on. *)
Lemma dispatch_all_live (frames : list ipcResponse.t) :
  forall w, registry_live w ->
    exists w', dispatch_all frames w = Ok tt w'
      /\ registry_live w'
      /\ (forall ch, waiting_on w' ch -> waiting_on w ch)
      /\ (forall ch, sends ch (trace w') = sends ch (trace w)
                     \/ (sends ch (trace w') = S (sends ch (trace w))
                         /\ waiting_on w ch /\ ~ waiting_on w' ch)).
Proof.
  induction frames as [|response frames IH]; intros w Hlive.
  - exists w. split; [reflexivity|]. split; [exact Hlive|]. split; auto.
  - destruct (dispatch_live response w Hlive) as (w1 & Hrun & Hlive1 & Hwait1 & Hs1).
    destruct (IH w1 Hlive1) as (w' & Hrun' & Hlive' & Hwait' & Hs').
    exists w'. split; [simpl; unfold bind; rewrite Hrun; exact Hrun'|].
    split; [exact Hlive'|]. split; [auto|].
    intros ch. destruct (Hs1 ch) as [E1|(E1 & W1 & N1)], (Hs' ch) as [E2|(E2 & W2 & N2)].
    + left. congruence.
    + right. split; [congruence|]. auto.
    + right. split; [congruence|]. auto.
    + contradiction.
Qed.

(** C1.  The registry is a finite map, so an id has at most one entry, hence
    at most one reply channel.  When a command reply (empty event) arrives
    for a registered id whose channel is live, [dispatch] sends the response
    on that channel once, closes the channel and deletes the entry, all in
    the one call; a further frame with the same id finds no entry and
    changes nothing, as does any command reply whose id is not registered.
    When every registered request has a live channel of its own, whatever
    frames follow, no further response is ever sent on that channel. *)
Theorem dispatch_reply_exactly_once (w : World) (response : ipcResponse.t)
    (m : gmap Z ipcRequest.t) (request : ipcRequest.t) (c : rchan) :
  ipcResponse.Event response = "" ->
  requestMu (client w) = false ->
  requests (client w) = Some m ->
  m !! ipcResponse.RequestID response = Some request ->
  chans w !! ipcRequest.responseChan request = Some c ->
  chan_closed c = false ->
  buf c = [] ->
  let w1 := delivered response request c w in
  (forall request', m !! ipcResponse.RequestID response = Some request' -> request' = request)
  /\ dispatch response w = Ok tt w1
  /\ chans w1 !! ipcRequest.responseChan request = Some (mk_rchan [response] (cap c) true)
  /\ requests (client w1) = Some (delete (ipcResponse.RequestID response) m)
  /\ trace w1 = trace w ++ [EvSend (ipcRequest.responseChan request) response;
                            EvCloseChan (ipcRequest.responseChan request)]
  /\ (forall again, ipcResponse.Event again = "" ->
        ipcResponse.RequestID again = ipcResponse.RequestID response ->
        dispatch again w1 = Ok tt w1)
  /\ (forall other, ipcResponse.Event other = "" ->
        m !! ipcResponse.RequestID other = None ->
        dispatch other w = Ok tt w)
  /\ (registry_live w ->
      forall frames,
        exists w', dispatch_all frames w1 = Ok tt w'
                   /\ sends (ipcRequest.responseChan request) (trace w')
                      = sends (ipcRequest.responseChan request) (trace w1)).
Proof.
  intros Hev Hmu Hreq Hm Hch Hopen Hbuf w1.
  assert (Hrun : dispatch response w = Ok tt w1).
  { subst w1. destruct_world w. subst.
    unfold dispatch, delivered. rewrite Hev. step.
    unfold chan_send, chan_close. simpl.
    rewrite Hm. simpl. rewrite Hch, Hopen, Hbuf. simpl.
    rewrite lookup_insert_eq. simpl. step.
    rewrite insert_insert_eq, <- app_assoc. reflexivity. }
  split; [intros request' Hm'; congruence|].
  split; [exact Hrun|].
  assert (Hother : forall other, ipcResponse.Event other = "" ->
                     m !! ipcResponse.RequestID other = None ->
                     dispatch other w = Ok tt w).
  { intros other Hev' Hnone. apply dispatch_unmatched; auto.
    intros m' Hm'. rewrite Hreq in Hm'. injection Hm' as <-. exact Hnone. }
  assert (Htr : trace w1 = trace w ++ [EvSend (ipcRequest.responseChan request) response;
                                        EvCloseChan (ipcRequest.responseChan request)]).
  { subst w1. unfold delivered. destruct_world w. rewrite <- app_assoc. reflexivity. }
  assert (Hlater : registry_live w ->
            forall frames,
              exists w', dispatch_all frames w1 = Ok tt w'
                         /\ sends (ipcRequest.responseChan request) (trace w')
                            = sends (ipcRequest.responseChan request) (trace w1)).
  { intros Hlive frames.
    destruct (dispatch_live response w Hlive) as (w1' & Hrun' & Hlive1 & _ & Hs).
    rewrite Hrun in Hrun'. injection Hrun' as <-.
    destruct (Hs (ipcRequest.responseChan request)) as [E|(_ & _ & Hgone)].
    { rewrite Htr, sends_app, sends_delivery, Nat.eqb_refl in E. lia. }
    destruct (dispatch_all_live frames w1 Hlive1) as (w' & Hall & _ & _ & Hs').
    exists w'. split; [exact Hall|].
    destruct (Hs' (ipcRequest.responseChan request)) as [E|(_ & Hw & _)];
      [exact E | contradiction]. }
  split; [|split; [|split; [exact Htr|split; [|split; [exact Hother|exact Hlater]]]]].
  - subst w1. unfold delivered. destruct_world w. apply lookup_insert_eq.
  - subst w1. unfold delivered. destruct_world w. subst. reflexivity.
  - intros again Hev' Hid.
    apply dispatch_unmatched; [exact Hev'| |].
    + subst w1. unfold delivered. destruct_world w. exact Hmu.
    + intros m' Hm'. subst w1. unfold delivered in Hm'. destruct_world w. subst.
      injection Hm' as <-. rewrite Hid. apply lookup_delete_eq.
Qed.

Lemma busy_world_live : registry_live busy_world.
Proof.
  constructor; try reflexivity.
  - intros m id req [= <-] Hid. apply lookup_singleton_Some in Hid as [_ <-].
    exists (mk_rchan [] 0 false). repeat split; reflexivity.
  - intros m id1 id2 r1 r2 [= <-] H1 H2 _.
    apply lookup_singleton_Some in H1 as [<- _].
    apply lookup_singleton_Some in H2 as [<- _]. reflexivity.
Qed.

Lemma dispatch_reply_exactly_once_witness :
  let w1 := delivered reply_50 get_volume (mk_rchan [] 0 false) busy_world in
  dispatch reply_50 busy_world = Ok tt w1
  /\ exists w', dispatch_all [reply_50; volume_changed; reply_50] w1 = Ok tt w'
                /\ sends 1%nat (trace w') = sends 1%nat (trace w1).
Proof.
  pose proof (dispatch_reply_exactly_once busy_world reply_50 {[ 42 := get_volume ]}
                get_volume (mk_rchan [] 0 false) eq_refl eq_refl eq_refl eq_refl eq_refl
                eq_refl eq_refl) as H.
  cbv zeta in H. destruct H as (_ & Hrun & _ & _ & _ & _ & _ & Hlater).
  split; [exact Hrun|].
  exact (Hlater busy_world_live [reply_50; volume_changed; reply_50]).
Defined.

(** What the decoder makes of the members [id] and [data] of a frame. *)
Lemma member_id_decoded (data : string) (kvs : list (string * any)) (n : Z)
    (response : ipcResponse.t) :
  decode_json data = Some (Map kvs) ->
  member "id" kvs = Some (Float64 n) ->
  UnmarshalWith data = inl response ->
  ipcResponse.ID response = n
  /\ ipcResponse.Data response = default Nil (member "data" kvs).
Proof.
  intros Hd Hid. unfold UnmarshalWith. rewrite Hd.
  destruct (with_member "error" kvs "" (as_string "error")); [|discriminate].
  destruct (with_member "request_id" kvs 0 (as_int "request_id")); [|discriminate].
  destruct (with_member "event" kvs "" (as_string "event")); [|discriminate].
  unfold with_member at 1. rewrite Hid. simpl.
  destruct (in_int_range n); [|discriminate].
  intros [= <-]. simpl. auto.
Qed.

(** ** The reader loop *)

(** C7.  An iteration of the reader loop on what [ReadBytes] returns: on
    end of stream it closes the client down and the loop ends; on another
    read error the error handler, when one is set, is called on the error,
    nothing else changes, and the loop goes on; on a line that does not
    decode the handler is called on the decoding error, neither client nor
    channels are touched (nothing is dispatched), and the loop goes on; a
    decoded line is handed to [dispatch] and the loop goes on. *)
Theorem read_body_cases (w : World) (data : string) (result : option error)
    (rest : list (string * option error)) :
  remote w = (data, result) :: rest ->
  let w0 := set_remote rest w in
  let sink err := match onError (client w) with
                  | Some h => [EvOnError h err]
                  | None => []
                  end in
  (result = Some io_EOF ->
     read_body w = (Close;; ret Return) w0
     /\ (forall n, read_loop (S n) w = Close w0)
     /\ (forall l w', read_body w = Ok l w' -> l = Return /\ closed (client w') = true))
  /\ (forall err, result = Some err -> err <> io_EOF ->
        read_body w = Ok Continue (reported err w0)
        /\ trace (reported err w0) = trace w ++ sink err
        /\ client (reported err w0) = client w /\ chans (reported err w0) = chans w
        /\ (forall n, read_loop (S n) w = read_loop n (reported err w0)))
  /\ (forall err, result = None -> UnmarshalWith data = inr err ->
        read_body w = Ok Continue (reported err w0)
        /\ trace (reported err w0) = trace w ++ sink err
        /\ client (reported err w0) = client w /\ chans (reported err w0) = chans w
        /\ (forall n, read_loop (S n) w = read_loop n (reported err w0)))
  /\ (forall response, result = None -> UnmarshalWith data = inl response ->
        read_body w = (dispatch response;; ret Continue) w0
        /\ (forall n, read_loop (S n) w = (dispatch response;; read_loop n) w0)).
Proof.
  intros Hrem w0 sink.
  assert (Hread : ReadBytes w = Ok (data, result) w0).
  { unfold ReadBytes. rewrite Hrem. reflexivity. }
  assert (Hfacts : forall err,
             trace (reported err w0) = trace w ++ sink err
             /\ client (reported err w0) = client w /\ chans (reported err w0) = chans w).
  { intros err. destruct (reported_facts err w0) as (Hc & Hch & _ & _ & Ht).
    rewrite Hc, Hch, Ht. subst w0 sink. destruct w. auto. }
  split; [|split; [|split]].
  - intros ->. split; [|split].
    + unfold read_body, bind at 1. rewrite Hread. reflexivity.
    + intros n. simpl. unfold read_body, bind at 1 2. rewrite Hread. simpl.
      unfold bind. destruct (Close w0) as [[] w1| |]; reflexivity.
    + intros l w'. unfold read_body, bind at 1. rewrite Hread. simpl.
      unfold bind. destruct (Close w0) as [[] w1| |] eqn:HC; [|discriminate..].
      intros [= <- <-]. split; [reflexivity|].
      revert HC. unfold Close. step.
      unfold close_receiver, conn_Close. simpl.
      destruct (receiver_closed _); [discriminate|]. intros [= <-]. reflexivity.
  - intros err -> Hne.
    assert (Hb : read_body w = Ok Continue (reported err w0)).
    { unfold read_body, bind at 1. rewrite Hread. simpl.
      destruct err; try congruence; simpl; unfold bind;
        rewrite publishError_reported; reflexivity. }
    split; [exact Hb|]. destruct (Hfacts err) as (Ht & Hc & Hch).
    repeat split; auto.
    intros n. simpl. unfold bind at 1. rewrite Hb. reflexivity.
  - intros err -> Herr.
    assert (Hb : read_body w = Ok Continue (reported err w0)).
    { unfold read_body, bind at 1. rewrite Hread. simpl. rewrite Herr.
      unfold bind. rewrite publishError_reported. reflexivity. }
    split; [exact Hb|]. destruct (Hfacts err) as (Ht & Hc & Hch).
    repeat split; auto.
    intros n. simpl. unfold bind at 1. rewrite Hb. reflexivity.
  - intros response -> Hdec. split.
    + unfold read_body, bind at 1. rewrite Hread. simpl. rewrite Hdec. reflexivity.
    + intros n. simpl. unfold read_body, bind at 1 2. rewrite Hread. simpl.
      rewrite Hdec. unfold bind. destruct (dispatch response w0) as [[] w1| |]; reflexivity.
Qed.

Lemma read_body_cases_witness :
  read_body (set_remote [line "{'error':'success','data':50,'request_id':42}"] busy_world)
  = (dispatch reply_50;; ret Continue) busy_world
  /\ read_body (set_remote [("not json", None)] busy_world)
     = Ok Continue (log (EvOnError 0 json_SyntaxError) busy_world)
  /\ read_body (set_remote [("", Some (net_Error "timeout"))] busy_world)
     = Ok Continue (log (EvOnError 0 (net_Error "timeout")) busy_world).
Proof.
  split; [|split].
  - apply (proj1 (proj2 (proj2 (proj2
             (read_body_cases
                (set_remote [line "{'error':'success','data':50,'request_id':42}"] busy_world)
                (fst (line "{'error':'success','data':50,'request_id':42}")) None []
                eq_refl))) reply_50 eq_refl eq_refl)).
  - apply (proj1 (proj1 (proj2 (proj2
             (read_body_cases (set_remote [("not json", None)] busy_world)
                "not json" None [] eq_refl))) json_SyntaxError eq_refl eq_refl)).
  - apply (proj1 (proj1 (proj2
             (read_body_cases (set_remote [("", Some (net_Error "timeout"))] busy_world)
                "" (Some (net_Error "timeout")) [] eq_refl))
             (net_Error "timeout") eq_refl ltac:(discriminate))).
Defined.

(** *** The reader loop as a whole *)

Lemma publishError_remote (err : error) (w : World) :
  remote (final (publishError err w)) = remote w.
Proof. unfold publishError. step. destruct (onError (client w)); reflexivity. Qed.

Lemma Close_remote (w : World) : remote (final (Close w)) = remote w.
Proof.
  unfold Close. step. unfold close_receiver, conn_Close. simpl.
  destruct (receiver_closed _); reflexivity.
Qed.

Lemma dispatch_remote (response : ipcResponse.t) (w : World) :
  remote (final (dispatch response w)) = remote w.
Proof.
  destruct_world w. unfold dispatch.
  destruct (ipcResponse.Event response =? "")%string;
    [|destruct (ipcResponse.Event response =? "property-change")%string]; step.
  - destruct rmu; simpl; [reflexivity|].
    destruct reqs as [m|]; simpl; [|reflexivity].
    destruct (m !! _) as [request|]; simpl; [|reflexivity].
    unfold chan_send. simpl.
    destruct (chs !! _) as [c|]; simpl; [|reflexivity].
    destruct (chan_closed c); simpl; [reflexivity|].
    destruct (buf c); simpl; [|reflexivity].
    unfold chan_close. simpl. rewrite lookup_insert_eq. reflexivity.
  - destruct omu; simpl; [reflexivity|].
    destruct obs as [m|]; simpl; [|reflexivity].
    destruct (m !! _); reflexivity.
  - destruct lmu; simpl; [reflexivity|].
    destruct lsn as [m|]; simpl; [|reflexivity].
    destruct (m !! _); reflexivity.
Qed.

(** An iteration of the reader that completes has consumed exactly what
    [ReadBytes] returned. *)
Lemma read_body_consumes (w w' : World) (l : loop) :
  read_body w = Ok l w' -> exists r, remote w = r :: remote w'.
Proof.
  unfold read_body, bind at 1, ReadBytes.
  destruct (remote w) as [|[data res] rest] eqn:Hrem; [discriminate|]. simpl.
  exists (data, res). f_equal.
  assert (Hrest : remote (set_remote rest w) = rest) by (destruct w; reflexivity).
  revert H. destruct res as [err|].
  - destruct (is_EOF err); unfold bind.
    + pose proof (Close_remote (set_remote rest w)) as HC.
      destruct (Close _); [|discriminate..]. intros [= _ <-]. simpl in HC. congruence.
    + pose proof (publishError_remote err (set_remote rest w)) as HC.
      destruct (publishError _ _); [|discriminate..]. intros [= _ <-]. simpl in HC. congruence.
  - destruct (UnmarshalWith data) as [response|err]; unfold bind.
    + pose proof (dispatch_remote response (set_remote rest w)) as HC.
      destruct (dispatch _ _); [|discriminate..]. intros [= _ <-]. simpl in HC. congruence.
    + pose proof (publishError_remote err (set_remote rest w)) as HC.
      destruct (publishError _ _); [|discriminate..]. intros [= _ <-]. simpl in HC. congruence.
Qed.

(** The iterations allowed by [read] are enough: more of them change
    nothing. *)
Lemma read_loop_fuel (n : nat) :
  forall w, (length (remote w) < n)%nat ->
            read_loop n w = read_loop (S (length (remote w))) w.
Proof.
  induction n as [|n IH]; intros w Hn; [lia|].
  simpl. unfold bind. destruct (read_body w) as [[] w'| |] eqn:Hb; try reflexivity.
  destruct (read_body_consumes _ _ _ Hb) as (r & Hr).
  rewrite Hr in *. simpl in *.
  rewrite IH by lia. reflexivity.
Qed.

Lemma await_fuel (n : nat) (ch : chan_id) :
  forall w, (length (remote w) <= n)%nat ->
            await n ch w = await (length (remote w)) ch w.
Proof.
  induction n as [|n IH]; intros w Hn.
  - destruct (remote w); simpl in *; [reflexivity|lia].
  - simpl. destruct (chan_poll ch w) as [[r w1]|] eqn:Hp.
    + destruct (length (remote w)); simpl; rewrite Hp; reflexivity.
    + destruct (read_body w) as [[] w'| |] eqn:Hb.
      * destruct (read_body_consumes _ _ _ Hb) as (r & Hr).
        rewrite Hr in *. simpl in *. rewrite Hp, Hb. apply IH. lia.
      * destruct (read_body_consumes _ _ _ Hb) as (r & Hr).
        rewrite Hr. simpl. rewrite Hp, Hb. reflexivity.
      * destruct (remote w) eqn:Hr; simpl; rewrite Hp; [|rewrite Hb; reflexivity].
        revert Hb. unfold read_body, bind, ReadBytes. rewrite Hr. discriminate.
      * destruct (remote w) eqn:Hr; simpl; rewrite Hp; [|rewrite Hb; reflexivity].
        revert Hb. unfold read_body, bind, ReadBytes. rewrite Hr. intros [= <-]. reflexivity.
Qed.


(** ** The writer loop *)

(** C3.  An iteration of the writer loop on the request [req] it took from
    the queue always completes, so that the loop goes on with the rest of
    the queue, and the iteration itself leaves every reply channel as it
    was.  If [req] does not serialize, the error handler, when one is set,
    is called on the error and that is all: [req] is not registered.
    Otherwise [req] is put into the registry under its id first, and only
    in the world so reached the bytes are written, then the newline; when
    either write fails the handler is called on its error and nothing
    else happens.  Whatever the writes did, [req] stays in the registry. *)
Theorem write_registers_then_writes (w0 : World) (req : ipcRequest.t)
    (rest : list ipcRequest.t) :
  receiver (client w0) = mk_receiver (req :: rest) false ->
  requestMu (client w0) = false ->
  let w := set_client (set_receiver (mk_receiver rest false)) w0 in
  exists w',
    write_body req w = Ok tt w'
    /\ (forall n, write_loop (S n) w0 = write_loop n w')
    /\ chans w' = chans w0
    /\ (forall err, Marshal req = inr err ->
          w' = reported err w
          /\ requests (client w') = requests (client w0)
          /\ written (conn (client w')) = written (conn (client w0)))
    /\ (forall body, Marshal req = inl body ->
          let w_reg := registered req w in
          requests (client w_reg)
          = Some (<[ipcRequest.RequestID req := req]> (default ∅ (requests (client w0))))
          /\ written (conn (client w_reg)) = written (conn (client w0))
          /\ trace w_reg = trace w0 ++ [EvRegister (ipcRequest.RequestID req)]
          /\ requests (client w') = requests (client w_reg)
          /\ exists r1 w1,
               conn_Write body w_reg = Ok r1 w1
               /\ trace w1 = trace w_reg ++ [EvConnWrite body r1]
               /\ match r1 with
                  | Some err => w' = reported err w1
                  | None =>
                      exists r2 w2,
                        conn_Write (chr newline) w1 = Ok r2 w2
                        /\ trace w2 = trace w1 ++ [EvConnWrite (chr newline) r2]
                        /\ match r2 with
                           | Some err => w' = reported err w2
                           | None => w' = w2
                           end
                  end).
Proof.
  intros Hrecv Hmu w.
  assert (Hloop : forall n w', write_body req w = Ok tt w' ->
                               write_loop (S n) w0 = write_loop n w').
  { intros n w' Hb. simpl. unfold bind at 1, recv_receiver. rewrite Hrecv. simpl.
    fold w. unfold bind. rewrite Hb. reflexivity. }
  destruct (Marshal req) as [body|err] eqn:HM.
  - (* the request was serialized *)
    assert (Hreg : forall k : M unit,
              (Lock RequestMu;; m <- gets requests;;
               match m with
               | None => modify (set_requests (Some ∅))
               | Some _ => ret tt
               end;;
               modify (fun c => set_requests
                 (Some (<[ipcRequest.RequestID req := req]> (default ∅ (requests c)))) c);;
               emit (EvRegister (ipcRequest.RequestID req));;
               Unlock RequestMu;; k) w = k (registered req w)).
    { intros k. subst w. unfold registered. destruct_world w0. subst. step.
      destruct reqs; reflexivity. }
    assert (Hbody : write_body req w
                    = (err <- conn_Write body;;
                       match err with
                       | Some err => publishError err
                       | None => err <- conn_Write (chr newline);;
                                 match err with
                                 | Some err => publishError err
                                 | None => ret tt
                                 end
                       end) (registered req w)).
    { unfold write_body. rewrite HM. rewrite <- Hreg. reflexivity. }
    destruct (conn_Write_ok body (registered req w)) as (r1 & w1 & H1 & Hc1 & Hq1 & _ & Ht1).
    assert (Hcreg : chans (registered req w) = chans w0).
    { subst w. destruct w0. reflexivity. }
    assert (Hfacts : requests (client (registered req w))
                     = Some (<[ipcRequest.RequestID req := req]>
                               (default ∅ (requests (client w0))))
                     /\ written (conn (client (registered req w))) = written (conn (client w0))
                     /\ trace (registered req w)
                        = trace w0 ++ [EvRegister (ipcRequest.RequestID req)]).
    { subst w. destruct_world w0. repeat split; reflexivity. }
    destruct Hfacts as (Hf1 & Hf2 & Hf3).
    destruct r1 as [e1|].
    + destruct (reported_facts e1 w1) as (Hc & Hch & _).
      exists (reported e1 w1).
      assert (Hb : write_body req w = Ok tt (reported e1 w1)).
      { rewrite Hbody. unfold bind. rewrite H1. apply publishError_reported. }
      split; [exact Hb|]. split; [intros n; apply Hloop, Hb|].
      split; [congruence|]. split; [discriminate|].
      intros body' [= <-]. cbv zeta. split; [exact Hf1|]. split; [exact Hf2|].
      split; [exact Hf3|]. split; [rewrite Hc; exact Hq1|].
      exists (Some e1), w1. auto.
    + destruct (conn_Write_ok (chr newline) w1) as (r2 & w2 & H2 & Hc2 & Hq2 & _ & Ht2).
      destruct r2 as [e2|].
      * destruct (reported_facts e2 w2) as (Hc & Hch & _).
        exists (reported e2 w2).
        assert (Hb : write_body req w = Ok tt (reported e2 w2)).
        { rewrite Hbody. unfold bind. rewrite H1, H2. apply publishError_reported. }
        split; [exact Hb|]. split; [intros n; apply Hloop, Hb|].
        split; [congruence|]. split; [discriminate|].
        intros body' [= <-]. cbv zeta. split; [exact Hf1|]. split; [exact Hf2|].
        split; [exact Hf3|]. split; [rewrite Hc; congruence|].
        exists None, w1. split; [exact H1|]. split; [exact Ht1|].
        exists (Some e2), w2. auto.
      * exists w2. assert (Hb : write_body req w = Ok tt w2).
        { rewrite Hbody. unfold bind. rewrite H1, H2. reflexivity. }
        split; [exact Hb|]. split; [intros n; apply Hloop, Hb|].
        split; [congruence|]. split; [discriminate|].
        intros body' [= <-]. cbv zeta. split; [exact Hf1|]. split; [exact Hf2|].
        split; [exact Hf3|]. split; [congruence|].
        exists None, w1. split; [exact H1|]. split; [exact Ht1|].
        exists None, w2. auto.
  - (* the request could not be serialized *)
    destruct (reported_facts err w) as (Hc & Hch & _).
    exists (reported err w). assert (Hb : write_body req w = Ok tt (reported err w)).
    { unfold write_body. rewrite HM. apply publishError_reported. }
    split; [exact Hb|]. split; [intros n; apply Hloop, Hb|].
    split; [rewrite Hch; subst w; destruct w0; reflexivity|].
    split; [|discriminate].
    intros ? [= <-]. split; [reflexivity|].
    rewrite Hc. subst w. destruct w0. split; reflexivity.
Qed.

Lemma write_registers_then_writes_witness :
  exists w', write_body get_volume
               (set_client (set_receiver (mk_receiver [] false))
                  (queued_world (Some 0%nat) [Some (net_Error "broken pipe")]))
             = Ok tt w'
             /\ chans w' = chans (queued_world (Some 0%nat) [Some (net_Error "broken pipe")])
             /\ requests (client w') = Some {[ 42 := get_volume ]}
             /\ trace w' = [EvRegister 42;
                            EvConnWrite get_volume_line (Some (net_Error "broken pipe"));
                            EvOnError 0 (net_Error "broken pipe")].
Proof.
  destruct (write_registers_then_writes
              (queued_world (Some 0%nat) [Some (net_Error "broken pipe")])
              get_volume [] eq_refl eq_refl)
    as (w' & Hrun & _ & Hchans & _ & Hok).
  destruct (Hok get_volume_line eq_refl) as (Hreg & _ & _ & Hstay & r1 & w1 & Hw1 & _ & Hr1).
  exists w'. split; [exact Hrun|]. split; [exact Hchans|].
  split; [rewrite Hstay; exact Hreg|].
  injection Hw1 as <- <-. rewrite Hr1. reflexivity.
Defined.

(** C3 as stated fails: a request whose write failed stays registered, and
    when a reply bearing its id arrives its channel is signaled; the call
    returns the reply's data although nothing reached the transport. *)
Theorem write_failure_then_reply :
  exists w',
    RequestSync [Str "get_property"; Str "volume"]
      (connectInternal (Some 0%nat) (fun _ => 42)
         [line "{'error':'success','data':50,'request_id':42}"]
         [Some (net_Error "broken pipe")])
    = Ok (Float64 50, None) w'
    /\ written (conn (client w')) = []
    /\ trace w'
       = [EvGo go_write; EvGo go_read; EvEnqueue get_volume;
          EvRegister 42;
          EvConnWrite get_volume_line (Some (net_Error "broken pipe"));
          EvOnError 0 (net_Error "broken pipe");
          EvSend 1%nat reply_50; EvCloseChan 1%nat].
Proof. eexists. vm_compute. repeat split; reflexivity. Qed.

(** *** The writer loop as a whole *)

Lemma write_body_frame (req : ipcRequest.t) (w : World) :
  requestMu (client w) = false ->
  exists w', write_body req w = Ok tt w'
             /\ requestMu (client w') = false
             /\ receiver (client w') = receiver (client w)
             /\ chans w' = chans w.
Proof.
  intros Hmu. destruct_world w. subst.
  unfold write_body, publishError, conn_Write.
  destruct (Marshal req) as [body|err]; step.
  - destruct reqs; destruct cn as [wr [|]]; destruct sink;
      destruct flt as [|[e|] [|[e2|] fl2]]; simpl;
      eexists; (split; [reflexivity|]); simpl; auto.
  - destruct sink; eexists; (split; [reflexivity|]); simpl; auto.
Qed.

(** The writer takes every queued request in turn and then waits for the
    next one: the iterations allowed by [write] are enough. *)
Lemma write_loop_parks (q : list ipcRequest.t) :
  forall (w : World) (n : nat),
    receiver (client w) = mk_receiver q false ->
    requestMu (client w) = false ->
    (length q < n)%nat ->
    exists w', write_loop n w = Blocked w'
               /\ receiver (client w') = mk_receiver [] false
               /\ requestMu (client w') = false.
Proof.
  induction q as [|req q IH]; intros w n Hq Hmu Hn.
  - destruct n as [|n]; [lia|]. simpl. unfold bind, recv_receiver. rewrite Hq. simpl.
    exists w. auto.
  - destruct n as [|n]; [simpl in Hn; lia|]. simpl in Hn.
    simpl. unfold bind at 1, recv_receiver. rewrite Hq. simpl.
    set (w1 := set_client (set_receiver (mk_receiver q false)) w).
    assert (Hmu1 : requestMu (client w1) = false).
    { subst w1. destruct_world w. exact Hmu. }
    destruct (write_body_frame req w1 Hmu1) as (w2 & Hb & Hmu2 & Hr2 & _).
    unfold bind. rewrite Hb.
    apply IH; [|exact Hmu2|lia].
    rewrite Hr2. subst w1. destruct_world w. reflexivity.
Qed.

Lemma write_parks (w : World) :
  receiver_closed (receiver (client w)) = false ->
  requestMu (client w) = false ->
  exists w', write w = Blocked w'
             /\ receiver (client w') = mk_receiver [] false.
Proof.
  intros Hopen Hmu. unfold write.
  destruct (write_loop_parks (waiting (receiver (client w))) w
              (S (length (waiting (receiver (client w)))))) as (w' & H & Hr & _); auto.
  - destruct (receiver (client w)) as [q cl]. simpl in *. subst. reflexivity.
  - exists w'. auto.
Qed.

Lemma write_returns (w : World) :
  receiver_closed (receiver (client w)) = true -> write w = Ok tt w.
Proof.
  intros Hcl. unfold write. simpl. unfold bind, recv_receiver. rewrite Hcl. reflexivity.
Qed.


(** ** The closed flag is never reset *)

Section StaysClosed.
Context {A B : Type}.

Lemma stays_closed_ret (a : A) : stays_closed (ret a).
Proof. intros w H. exact H. Qed.

Lemma stays_closed_bind (m : M A) (k : A -> M B) :
  stays_closed m -> (forall a, stays_closed (k a)) -> stays_closed (bind m k).
Proof.
  intros Hm Hk w H. unfold bind. specialize (Hm w H).
  destruct (m w); simpl in *; auto. apply Hk, Hm.
Qed.

Lemma stays_closed_gets (f : Client -> A) : stays_closed (gets f).
Proof. intros w H. exact H. Qed.

Lemma stays_closed_panic (msg : string) : stays_closed (@panic A msg).
Proof. intros w H. exact H. Qed.
End StaysClosed.

Lemma stays_closed_modify (f : Client -> Client) :
  (forall c, closed (f c) = closed c) -> stays_closed (modify f).
Proof. intros Hf w H. simpl. rewrite Hf. exact H. Qed.

Lemma stays_closed_set_closed : stays_closed (modify (set_closed true)).
Proof. intros w H. reflexivity. Qed.

Lemma stays_closed_emit (e : event) : stays_closed (emit e).
Proof. intros w H. exact H. Qed.

Lemma stays_closed_Lock (mu : Mutex) : stays_closed (Lock mu).
Proof. intros w H. unfold Lock. destruct (held mu _); simpl; auto. destruct mu; exact H. Qed.

Lemma stays_closed_Unlock (mu : Mutex) : stays_closed (Unlock mu).
Proof. apply stays_closed_modify. intros c. destruct mu; reflexivity. Qed.

Lemma stays_closed_rand_Int : stays_closed rand_Int.
Proof. intros w H. exact H. Qed.

Lemma stays_closed_make_chan (n : nat) : stays_closed (make_chan n).
Proof. intros w H. exact H. Qed.

Lemma stays_closed_chan_send (ch : chan_id) (r : ipcResponse.t) : stays_closed (chan_send ch r).
Proof.
  intros w H. unfold chan_send. destruct (chans w !! ch) as [c|]; simpl; auto.
  destruct (chan_closed c); simpl; auto. destruct (buf c); simpl; auto.
Qed.

Lemma stays_closed_chan_close (ch : chan_id) : stays_closed (chan_close ch).
Proof.
  intros w H. unfold chan_close. destruct (chans w !! ch) as [c|]; simpl; auto.
  destruct (chan_closed c); simpl; auto.
Qed.

Lemma stays_closed_send_receiver (req : ipcRequest.t) : stays_closed (send_receiver req).
Proof. intros w H. unfold send_receiver. destruct (receiver_closed _); simpl; auto. Qed.

Lemma stays_closed_recv_receiver : stays_closed recv_receiver.
Proof.
  intros w H. unfold recv_receiver. destruct (receiver_closed _); simpl; auto.
  destruct (waiting _); simpl; auto.
Qed.

Lemma stays_closed_close_receiver : stays_closed close_receiver.
Proof. intros w H. unfold close_receiver. destruct (receiver_closed _); simpl; auto. Qed.

Lemma stays_closed_conn_Write (bytes : string) : stays_closed (conn_Write bytes).
Proof.
  intros w H. unfold conn_Write. destruct (conn_closed _); simpl; auto.
  destruct (faults w) as [|[e|] fl]; simpl; auto.
Qed.

Lemma stays_closed_conn_Close : stays_closed conn_Close.
Proof. intros w H. exact H. Qed.

Lemma stays_closed_ReadBytes : stays_closed ReadBytes.
Proof. intros w H. unfold ReadBytes. destruct (remote w); simpl; auto. Qed.

Create HintDb closed_flag.
#[local] Hint Resolve stays_closed_emit stays_closed_Lock stays_closed_Unlock
  stays_closed_rand_Int stays_closed_make_chan stays_closed_chan_send
  stays_closed_chan_close stays_closed_send_receiver stays_closed_recv_receiver
  stays_closed_close_receiver stays_closed_conn_Write stays_closed_conn_Close
  stays_closed_ReadBytes stays_closed_set_closed : closed_flag.

Ltac stays_closed_tac :=
  repeat first
    [ solve [auto with closed_flag]
    | apply stays_closed_ret
    | apply stays_closed_gets
    | apply stays_closed_panic
    | apply stays_closed_bind; [|intros]
    | apply stays_closed_modify; intros []; reflexivity
    | progress unfold go
    | match goal with
      | |- stays_closed (match ?x with _ => _ end) => destruct x
      | |- stays_closed (if ?x then _ else _) => destruct x
      end ].

Lemma stays_closed_publishError (err : error) : stays_closed (publishError err).
Proof. unfold publishError. stays_closed_tac. Qed.

Lemma stays_closed_Close : stays_closed Close.
Proof. unfold Close. stays_closed_tac. Qed.

#[local] Hint Resolve stays_closed_publishError stays_closed_Close : closed_flag.

Lemma stays_closed_write_body (req : ipcRequest.t) : stays_closed (write_body req).
Proof. unfold write_body. stays_closed_tac. Qed.

#[local] Hint Resolve stays_closed_write_body : closed_flag.

Lemma stays_closed_write_loop (fuel : nat) : stays_closed (write_loop fuel).
Proof.
  induction fuel as [|fuel IH]; simpl.
  - intros w H. exact H.
  - stays_closed_tac.
Qed.

Lemma stays_closed_write : stays_closed write.
Proof. intros w H. unfold write. apply stays_closed_write_loop, H. Qed.

Lemma stays_closed_dispatch (response : ipcResponse.t) : stays_closed (dispatch response).
Proof. unfold dispatch. stays_closed_tac. Qed.

#[local] Hint Resolve stays_closed_write stays_closed_dispatch : closed_flag.

Lemma stays_closed_read_body : stays_closed read_body.
Proof. unfold read_body. stays_closed_tac. Qed.

#[local] Hint Resolve stays_closed_read_body : closed_flag.

Lemma stays_closed_read_loop (fuel : nat) : stays_closed (read_loop fuel).
Proof.
  induction fuel as [|fuel IH]; simpl.
  - intros w H. exact H.
  - stays_closed_tac.
Qed.

Lemma stays_closed_read : stays_closed read.
Proof. intros w H. unfold read. apply stays_closed_read_loop, H. Qed.

Lemma stays_closed_run_writer : stays_closed run_writer.
Proof.
  intros w H. unfold run_writer. pose proof (stays_closed_write w H) as Hw.
  destruct (write w); exact Hw.
Qed.

Lemma chan_poll_client (ch : chan_id) (w : World) r w' :
  chan_poll ch w = Some (r, w') -> client w' = client w.
Proof.
  unfold chan_poll. destruct (chans w !! ch) as [c|]; [|discriminate].
  destruct (buf c).
  - destruct (chan_closed c); [|discriminate]. intros [= _ <-]. reflexivity.
  - intros [= _ <-]. reflexivity.
Qed.

Lemma stays_closed_await (fuel : nat) (ch : chan_id) : stays_closed (await fuel ch).
Proof.
  induction fuel as [|fuel IH]; intros w H; simpl.
  - destruct (chan_poll ch w) as [[r w']|] eqn:Hp; simpl; auto.
    rewrite (chan_poll_client _ _ _ _ Hp). exact H.
  - destruct (chan_poll ch w) as [[r w']|] eqn:Hp; simpl.
    + rewrite (chan_poll_client _ _ _ _ Hp). exact H.
    + pose proof (stays_closed_read_body w H) as Hr.
      destruct (read_body w) as [[] w'| |]; simpl in *; auto.
Qed.

Lemma stays_closed_chan_recv (ch : chan_id) : stays_closed (chan_recv ch).
Proof.
  unfold chan_recv. apply stays_closed_bind; [apply stays_closed_run_writer|].
  intros _ w H. apply stays_closed_await, H.
Qed.

#[local] Hint Resolve stays_closed_read stays_closed_chan_recv : closed_flag.

Lemma stays_closed_requestSend (request : ipcRequest.t) : stays_closed (requestSend request).
Proof. unfold requestSend. stays_closed_tac. Qed.

#[local] Hint Resolve stays_closed_requestSend : closed_flag.

Lemma stays_closed_Request (command : list any) : stays_closed (Request command).
Proof. unfold Request, requestInternal. stays_closed_tac. Qed.

Lemma stays_closed_RequestSync (command : list any) : stays_closed (RequestSync command).
Proof. unfold RequestSync, requestInternal. stays_closed_tac. Qed.

Lemma stays_closed_RequestJSON (raw : string) : stays_closed (RequestJSON raw).
Proof. unfold RequestJSON. stays_closed_tac. Qed.

#[local] Hint Resolve stays_closed_Request : closed_flag.

Lemma stays_closed_RegisterListener (event : string) (listener : nat) :
  stays_closed (RegisterListener event listener).
Proof. unfold RegisterListener. stays_closed_tac. Qed.

Lemma stays_closed_UnregisterListener (event : string) :
  stays_closed (UnregisterListener event).
Proof. unfold UnregisterListener. stays_closed_tac. Qed.

Lemma stays_closed_ObserveProperty (property : string) (observer : nat) :
  stays_closed (ObserveProperty property observer).
Proof. unfold ObserveProperty. stays_closed_tac. Qed.

Lemma stays_closed_UnobserveProperty (id : Z) : stays_closed (UnobserveProperty id).
Proof. unfold UnobserveProperty. stays_closed_tac. Qed.

(** ** Requests *)

(** C4.  A caller of [requestSend] (and so of [Request] and [RequestSync],
    which end in it) that has handed its request over and received
    [response] on its reply channel returns a protocol error carrying the
    reply's error string when that string is not "success", and the reply's
    data with no error when it is. *)
Theorem requestSend_reply (w w' : World) (request : ipcRequest.t) (response : ipcResponse.t) :
  closed (client w) = false ->
  (send_receiver request;; chan_recv (ipcRequest.responseChan request)) w
  = Ok (Some response) w' ->
  (ipcResponse.Error response <> "success" ->
     requestSend request w = Ok (Nil, Some (MpvError (ipcResponse.Error response))) w')
  /\ (ipcResponse.Error response = "success" ->
     requestSend request w = Ok (ipcResponse.Data response, None) w').
Proof.
  intros Hopen Hrecv.
  assert (Hrun : requestSend request w = Ok (reply_result response) w').
  { unfold requestSend. unfold bind at 1, gets. rewrite Hopen.
    revert Hrecv. unfold bind.
    destruct (send_receiver request w) as [[] w1| |]; [|discriminate..].
    destruct (chan_recv _ w1) as [r w2| |]; [|discriminate..].
    intros [= -> ->]. reflexivity. }
  rewrite Hrun. unfold reply_result. split.
  - intros Hne. apply String.eqb_neq in Hne. rewrite Hne. reflexivity.
  - intros Heq. apply String.eqb_eq in Heq. rewrite Heq. reflexivity.
Qed.


Lemma requestSend_reply_witness :
  exists w', requestSend get_volume not_found_world
             = Ok (Nil, Some (MpvError "property not found")) w'.
Proof.
  eexists.
  refine (proj1 (requestSend_reply not_found_world _ get_volume
                   (ipcResponse.mk "property not found" Nil 42 "" ∅ 0) eq_refl _) _).
  - vm_compute. reflexivity.
  - discriminate.
Defined.

Lemma Close_sets_closed (w w1 : World) : Close w = Ok tt w1 -> closed (client w1) = true.
Proof.
  unfold Close. step. unfold close_receiver, conn_Close. simpl.
  destruct (receiver_closed _); [discriminate|]. intros [= <-]. reflexivity.
Qed.

Lemma requestSend_closed (w : World) (request : ipcRequest.t) :
  closed (client w) = true -> requestSend request w = Ok (Nil, Some ErrClosed) w.
Proof. intros H. unfold requestSend, bind, gets. rewrite H. reflexivity. Qed.

Lemma requestInternal_closed (w : World) (command : option (list any)) (async : bool) :
  closed (client w) = true ->
  exists w', requestInternal command async w = Ok (Nil, Some ErrClosed) w'
             /\ client w' = client w /\ trace w' = trace w
             /\ remote w' = remote w /\ faults w' = faults w.
Proof.
  intros H. unfold requestInternal, bind, rand_Int, make_chan.
  eexists. split; [apply requestSend_closed; exact H|]. auto.
Qed.


(** C5.  Once [Close] has returned the closed flag is set, and from then on
    [Request], [RequestSync] and [requestSend] return [ErrClosed] at once:
    the client (connection, queue, registries) and the history of steps are
    what they were, so nothing was written and nothing registered. *)
Theorem Request_after_Close (w w1 : World) :
  Close w = Ok tt w1 ->
  closed (client w1) = true
  /\ (forall command,
        exists w2, Request command w1 = Ok (Nil, Some ErrClosed) w2
                   /\ client w2 = client w1 /\ trace w2 = trace w1)
  /\ (forall command,
        exists w2, RequestSync command w1 = Ok (Nil, Some ErrClosed) w2
                   /\ client w2 = client w1 /\ trace w2 = trace w1)
  /\ (forall request, requestSend request w1 = Ok (Nil, Some ErrClosed) w1).
Proof.
  intros HC. pose proof (Close_sets_closed _ _ HC) as Hcl.
  split; [exact Hcl|].
  split; [|split].
  - intros command.
    destruct (requestInternal_closed w1 (variadic command) true Hcl) as (w2 & H & ? & ? & _).
    exists w2. auto.
  - intros command.
    destruct (requestInternal_closed w1 (variadic command) false Hcl) as (w2 & H & ? & ? & _).
    exists w2. auto.
  - intros request. apply requestSend_closed, Hcl.
Qed.


Lemma Request_after_Close_witness :
  exists w1 w2,
    Close (connectInternal None (fun _ => 42) [] []) = Ok tt w1
    /\ Request [Str "get_property"; Str "volume"] w1 = Ok (Nil, Some ErrClosed) w2
    /\ client w2 = client w1 /\ trace w2 = trace w1.
Proof.
  eexists.
  destruct (proj1 (proj2 (Request_after_Close
              (connectInternal None (fun _ => 42) [] []) _ eq_refl))
              [Str "get_property"; Str "volume"]) as (w2 & H).
  exists w2. split; [reflexivity | exact H].
Defined.

(** ** Close *)

(** C6, as the code has it.  [Close] on a client whose request queue is
    open sets the closed flag, closes the queue and releases the transport,
    each once.  [Close] on a client whose queue is already closed sets the
    flag and panics at closing the queue, before it reaches the transport.
    No operation of the client resets the flag. *)
Theorem Close_once (w : World) :
  (receiver_closed (receiver (client w)) = false ->
     exists w1, Close w = Ok tt w1
                /\ closed (client w1) = true
                /\ receiver_closed (receiver (client w1)) = true
                /\ conn_closed (conn (client w1)) = true
                /\ trace w1 = trace w ++ [EvConnClose])
  /\ (receiver_closed (receiver (client w)) = true ->
        Close w = Panic "close of closed channel" (set_client (set_closed true) w))
  /\ stays_closed Close
  /\ stays_closed read /\ stays_closed write
  /\ (forall response, stays_closed (dispatch response))
  /\ (forall command, stays_closed (Request command))
  /\ (forall command, stays_closed (RequestSync command))
  /\ (forall raw, stays_closed (RequestJSON raw))
  /\ (forall event listener, stays_closed (RegisterListener event listener))
  /\ (forall event, stays_closed (UnregisterListener event))
  /\ (forall property observer, stays_closed (ObserveProperty property observer))
  /\ (forall id, stays_closed (UnobserveProperty id)).
Proof.
  split; [|split].
  - intros Hopen. unfold Close. step. unfold close_receiver, conn_Close. simpl.
    destruct_world w. subst. rewrite Hopen. eexists. split; [reflexivity|]. simpl. auto.
  - intros Hcl. unfold Close. step. unfold close_receiver. simpl.
    destruct_world w. rewrite Hcl. reflexivity.
  - repeat split; intros.
    + apply stays_closed_Close.
    + apply stays_closed_read.
    + apply stays_closed_write.
    + apply stays_closed_dispatch.
    + apply stays_closed_Request.
    + apply stays_closed_RequestSync.
    + apply stays_closed_RequestJSON.
    + apply stays_closed_RegisterListener.
    + apply stays_closed_UnregisterListener.
    + apply stays_closed_ObserveProperty.
    + apply stays_closed_UnobserveProperty.
Qed.


Lemma Close_once_witness :
  exists w1, Close (connectInternal None (fun _ => 42) [] []) = Ok tt w1
             /\ closed (client w1) = true.
Proof.
  destruct (proj1 (Close_once (connectInternal None (fun _ => 42) [] [])) eq_refl)
    as (w1 & H & Hc & _).
  exists w1. split; [exact H | exact Hc].
Defined.

(** C6 as stated fails: after the reader loop closed the client down on
    end of stream, [Close] panics; so does a second of two [Close] calls. *)
Lemma Close_twice_panics :
  let w0 := connectInternal None (fun _ => 0) [("", Some io_EOF)] [] in
  exists w1 w2 w3,
    read w0 = Ok tt w1
    /\ closed (client w1) = true
    /\ Close w1 = Panic "close of closed channel" w2
    /\ (Close;; Close) w0 = Panic "close of closed channel" w3.
Proof. do 3 eexists. vm_compute. repeat split; reflexivity. Qed.


(** C10.  When the text does not decode, [RequestJSON] returns the decoding
    error in an unchanged world.  When it decodes, the request that goes on
    to [requestSend] has the command and the async flag of the text, the
    number drawn from [rand.Int()] as its id whatever id the text gave, and
    a new channel of capacity one that was not in use; on an open client
    that is the request handed to the writer. *)
Theorem RequestJSON_fresh_id (w : World) (requestRaw : string) :
  (forall err, Unmarshal requestRaw ipcRequest.zero = inr err ->
     RequestJSON requestRaw w = Ok (Nil, Some err) w)
  /\ (forall parsed, Unmarshal requestRaw ipcRequest.zero = inl parsed ->
        let id := rand_source w (rand_used w) in
        let ch := fresh ({[nil_chan]} ∪ dom (chans w) : gset nat) in
        let request := ipcRequest.mk (ipcRequest.Command parsed) id
                                     (ipcRequest.Async parsed) ch in
        let w1 := set_chans (insert ch (mk_rchan [] 1 false))
                    (set_rand_used (S (rand_used w)) w) in
        chans w !! ch = None /\ ch <> nil_chan
        /\ RequestJSON requestRaw w = requestSend request w1
        /\ (closed (client w) = false ->
            receiver_closed (receiver (client w)) = false ->
            send_receiver request w1
            = Ok tt (log (EvEnqueue request)
                (set_client (set_receiver
                   (mk_receiver (waiting (receiver (client w)) ++ [request]) false)) w1)))).
Proof.
  split.
  - intros err H. unfold RequestJSON. rewrite H. reflexivity.
  - intros parsed H id ch request w1.
    pose proof (is_fresh ({[nil_chan]} ∪ dom (chans w) : gset nat)) as Hfresh.
    fold ch in Hfresh.
    split; [apply not_elem_of_dom; set_solver|].
    split; [set_solver|].
    split.
    + unfold RequestJSON. rewrite H. reflexivity.
    + intros Hopen Hrecv. unfold send_receiver. subst w1. destruct_world w. subst.
      rewrite Hrecv. reflexivity.
Qed.

Lemma RequestJSON_fresh_id_witness :
  exists w', RequestJSON
               (wire "{'command':['get_property','volume'],'request_id':5,'async':false}")
               (connectInternal None (fun _ => 42)
                  [line "{'error':'success','data':50,'request_id':42}";
                   line "{'error':'success','data':7,'request_id':5}"] [])
             = Ok (Float64 50, None) w'
             /\ written (conn (client w')) = [get_volume_line; chr newline].
Proof.
  eexists.
  pose proof (proj2 (RequestJSON_fresh_id
             (connectInternal None (fun _ => 42)
                [line "{'error':'success','data':50,'request_id':42}";
                 line "{'error':'success','data':7,'request_id':5}"] [])
             (wire "{'command':['get_property','volume'],'request_id':5,'async':false}"))
            (ipcRequest.mk (Some [Str "get_property"; Str "volume"]) 5 false nil_chan)
            eq_refl) as H.
  cbv zeta in H. destruct H as (_ & _ & H & _).
  rewrite H. vm_compute. split; reflexivity.
Defined.

(** ** Listeners *)

(** On a client that never had a listener the map is nil: [RegisterListener]
    makes the map and stores the callback, and that is all it does. *)
Lemma RegisterListener_nil (w : World) (event : string) (listener : nat) :
  listeners (client w) = None ->
  listenerMu (client w) = false ->
  RegisterListener event listener w
  = Ok None (set_client (set_listeners (Some {[ event := listener ]})) w).
Proof.
  intros Hnil Hmu. destruct_world w. subst. unfold RegisterListener. step.
  rewrite insert_empty. reflexivity.
Qed.

(** X17.  A name that has a listener gets the new callback in place of the
    old one, and no request is made: the world is otherwise what it was. *)
Lemma RegisterListener_again (w : World) (event : string) (listener old : nat)
    (m : gmap string nat) :
  listeners (client w) = Some m ->
  m !! event = Some old ->
  listenerMu (client w) = false ->
  RegisterListener event listener w
  = Ok None (set_client (set_listeners (Some (<[ event := listener ]> m))) w).
Proof.
  intros Hm Hold Hmu. destruct_world w. subst. unfold RegisterListener. step.
  rewrite Hold. reflexivity.
Qed.

(** With a map that lacks the name, [RegisterListener] makes the one
    request [enable_event]; an error of that request is returned and the
    listeners stay what they were when the request returned. *)
Lemma RegisterListener_enable (w : World) (event : string) (listener : nat)
    (m : gmap string nat) :
  listeners (client w) = Some m ->
  m !! event = None ->
  listenerMu (client w) = false ->
  RegisterListener event listener w
  = (r <- Request [Str "enable_event"; Str event];;
     match snd r with
     | Some err => Unlock ListenerMu;; ret (Some err)
     | None =>
         modify (fun c => set_listeners
                   (Some (<[event := listener]> (default ∅ (listeners c)))) c);;
         Unlock ListenerMu;; ret None
     end) (set_client (set_held ListenerMu true) w)
  /\ (forall v err w',
        Request [Str "enable_event"; Str event] (set_client (set_held ListenerMu true) w)
        = Ok (v, Some err) w' ->
        RegisterListener event listener w
        = Ok (Some err) (set_client (set_held ListenerMu false) w')).
Proof.
  intros Hm Hnone Hmu.
  assert (Hrun : RegisterListener event listener w
    = (r <- Request [Str "enable_event"; Str event];;
       match snd r with
       | Some err => Unlock ListenerMu;; ret (Some err)
       | None =>
           modify (fun c => set_listeners
                     (Some (<[event := listener]> (default ∅ (listeners c)))) c);;
           Unlock ListenerMu;; ret None
       end) (set_client (set_held ListenerMu true) w)).
  { destruct_world w. subst. unfold RegisterListener.
    unfold bind at 1, Lock. simpl. unfold bind at 1, gets. simpl. rewrite Hnone.
    unfold bind.
    destruct (Request _ _) as [[v e] w'| |]; reflexivity. }
  split; [exact Hrun|].
  intros v err w' HR. rewrite Hrun. unfold bind at 1. rewrite HR. reflexivity.
Qed.

(** C2, where the code departs from it.  On a client fresh from
    [connectInternal] the first [RegisterListener] stores the callback
    without any request: nothing is handed to the writer and nothing is
    written, so the event is never enabled.  Only the next registration, of
    another name, makes the [enable_event] request. *)
Theorem RegisterListener_first_skips_enable :
  let w0 := connectInternal None (fun _ => 7)
              [line "{'error':'success','data':null,'request_id':7}"] [] in
  exists w1 w2,
    RegisterListener "seek" 1 w0 = Ok None w1
    /\ listeners (client w1) = Some {[ "seek" := 1%nat ]}
    /\ trace w1 = trace w0
    /\ written (conn (client w1)) = []
    /\ RegisterListener "pause" 2 w1 = Ok None w2
    /\ written (conn (client w2))
       = [wire "{'command':['enable_event','pause'],'request_id':7,'async':true}";
          chr newline]
    /\ listeners (client w2) = Some {[ "seek" := 1%nat; "pause" := 2%nat ]}.
Proof.
  do 2 eexists. split; [vm_compute; reflexivity|].
  split; [reflexivity|]. split; [reflexivity|]. split; [reflexivity|].
  split; [vm_compute; reflexivity|]. split; [reflexivity|]. vm_compute. reflexivity.
Qed.

(** ** The frame codec *)

(** C9.  The request with command ["get_property","volume"], id 42 and
    async false is encoded as the line
    [{"command":["get_property","volume"],"request_id":42,"async":false}],
    which the writer puts on the transport followed by one newline; the
    reply line [{"error":"success","data":50,"request_id":42}] decodes to a
    response from which the caller gets the value 50 and no error; and a
    [RequestSync] whose id is 42 does both ends of it. *)
Theorem codec_round_trip :
  let reply := wire "{'error':'success','data':50,'request_id':42}" +:+ chr newline in
  Marshal get_volume = inl get_volume_line
  /\ (exists w, write (queued_world None []) = Blocked w
                /\ written (conn (client w)) = [get_volume_line; chr newline]
                /\ requests (client w) = Some {[ 42 := get_volume ]})
  /\ (exists response, UnmarshalWith reply = inl response
                       /\ reply_result response = (Float64 50, None))
  /\ (exists w, RequestSync [Str "get_property"; Str "volume"]
                  (connectInternal None (fun _ => 42) [(reply, None)] [])
                = Ok (Float64 50, None) w
                /\ written (conn (client w)) = [get_volume_line; chr newline]).
Proof.
  split; [vm_compute; reflexivity|].
  split; [eexists; vm_compute; repeat split; reflexivity|].
  split; [eexists; vm_compute; split; reflexivity|].
  eexists. vm_compute. split; reflexivity.
Qed.

(** * More of the client *)

(** ** Named events *)

(** The value of key [k] in the map made of the members: the last member
    named [k]. *)
Lemma member_fold (k : string) (kvs : list (string * any)) (acc : option any) :
  fold_left (fun acc kv => if String.eqb (fst kv) k then Some (snd kv) else acc) kvs acc
  = match member k kvs with Some v => Some v | None => acc end.
Proof.
  unfold member. revert acc. induction kvs as [|[k' v] kvs IH]; intros acc; simpl.
  - reflexivity.
  - rewrite IH. rewrite (IH (if (k' =? k)%string then Some v else None)).
    destruct (fold_left _ kvs None); [reflexivity|].
    destruct (k' =? k)%string; reflexivity.
Qed.

Lemma member_cons (k k' : string) (v : any) (kvs : list (string * any)) :
  member k ((k', v) :: kvs)
  = match member k kvs with
    | Some x => Some x
    | None => if String.eqb k' k then Some v else None
    end.
Proof. unfold member at 1. simpl. rewrite member_fold. reflexivity. Qed.

Lemma lookup_last_wins (k : string) (kvs : list (string * any)) :
  (list_to_map (reverse kvs) : gmap string any) !! k = member k kvs.
Proof.
  induction kvs as [|[k' v] kvs IH].
  - reflexivity.
  - rewrite reverse_cons, list_to_map_app, member_cons. simpl.
    rewrite lookup_union, IH, insert_empty.
    destruct (String.eqb_spec k' k) as [->|Hne].
    + rewrite lookup_singleton_eq. destruct (member k kvs); reflexivity.
    + rewrite lookup_singleton_ne by exact Hne. destruct (member k kvs); reflexivity.
Qed.

Lemma member_filter (P : string -> bool) (k : string) (kvs : list (string * any)) :
  member k (filter (fun kv : string * any => P (fst kv)) kvs)
  = if P k then member k kvs else None.
Proof.
  induction kvs as [|[k' v] kvs IH].
  - destruct (P k); reflexivity.
  - rewrite filter_cons. simpl. destruct (decide (P k')) as [Hp|Hp].
    + rewrite !member_cons, IH.
      destruct (String.eqb_spec k' k) as [->|Hne].
      * destruct (P k); [reflexivity|]. contradiction.
      * destruct (P k); [reflexivity|]. reflexivity.
    + rewrite IH, member_cons.
      destruct (String.eqb_spec k' k) as [->|Hne].
      * destruct (P k); [|reflexivity]. exfalso. apply Hp. exact I.
      * destruct (P k); [|reflexivity]. destruct (member k kvs); reflexivity.
Qed.

(** What a decoded frame carries in [EventData]: every member of the
    object but those named by a struct tag. *)
Lemma EventData_decoded (data : string) (kvs : list (string * any))
    (response : ipcResponse.t) (k : string) :
  decode_json data = Some (Map kvs) ->
  UnmarshalWith data = inl response ->
  ipcResponse.EventData response !! k
  = if existsb (String.eqb k) response_tags then None else member k kvs.
Proof.
  intros Hd. unfold UnmarshalWith. rewrite Hd.
  destruct (with_member "error" kvs "" (as_string "error")); [|discriminate].
  destruct (with_member "request_id" kvs 0 (as_int "request_id")); [|discriminate].
  destruct (with_member "event" kvs "" (as_string "event")); [|discriminate].
  destruct (with_member "id" kvs 0 (as_int "id")); [|discriminate].
  intros [= <-]. simpl ipcResponse.EventData.
  rewrite lookup_last_wins.
  rewrite (member_filter (fun k => negb (existsb (String.eqb k) response_tags))).
  destruct (existsb _ _); reflexivity.
Qed.

Lemma Event_decoded (data : string) (kvs : list (string * any))
    (response : ipcResponse.t) (name : string) :
  decode_json data = Some (Map kvs) ->
  member "event" kvs = Some (Str name) ->
  UnmarshalWith data = inl response ->
  ipcResponse.Event response = name.
Proof.
  intros Hd Hev. unfold UnmarshalWith. rewrite Hd.
  destruct (with_member "error" kvs "" (as_string "error")); [|discriminate].
  destruct (with_member "request_id" kvs 0 (as_int "request_id")); [|discriminate].
  unfold with_member at 1. rewrite Hev. simpl.
  destruct (with_member "id" kvs 0 (as_int "id")); [|discriminate].
  intros [= <-]. reflexivity.
Qed.

(** X1.  For a frame whose event is neither empty nor "property-change",
    [dispatch] starts the listener registered under the event's name on the
    frame's [EventData]; with no listener under that name the world stays
    as it was.  [EventData] holds every member of the decoded frame that no
    struct tag claims, with the last value of a repeated key. *)
Theorem dispatch_named_event (w : World) (response : ipcResponse.t) :
  ipcResponse.Event response <> "" ->
  ipcResponse.Event response <> "property-change" ->
  listenerMu (client w) = false ->
  (forall m listener,
      listeners (client w) = Some m ->
      m !! ipcResponse.Event response = Some listener ->
      dispatch response w
      = Ok tt (log (EvGo (go_listener listener (ipcResponse.EventData response))) w))
  /\ ((forall m, listeners (client w) = Some m -> m !! ipcResponse.Event response = None) ->
      dispatch response w = Ok tt w)
  /\ (forall data kvs name k,
        decode_json data = Some (Map kvs) ->
        member "event" kvs = Some (Str name) ->
        UnmarshalWith data = inl response ->
        ipcResponse.Event response = name
        /\ ipcResponse.EventData response !! k
           = if existsb (String.eqb k) response_tags then None else member k kvs).
Proof.
  intros H1 H2 Hmu.
  apply String.eqb_neq in H1. apply String.eqb_neq in H2.
  split; [|split].
  - intros m listener Hm Hl. destruct_world w. subst. unfold dispatch. rewrite H1, H2. step.
    rewrite Hl. reflexivity.
  - intros Hnone. destruct_world w. subst. unfold dispatch. rewrite H1, H2. step.
    destruct lsn as [m|]; [rewrite (Hnone m eq_refl)|]; reflexivity.
  - intros data kvs name k Hd Hev Hu. split.
    + eapply Event_decoded; eauto.
    + eapply EventData_decoded; eauto.
Qed.

Lemma dispatch_named_event_witness :
  exists response,
    UnmarshalWith seek_line = inl response
    /\ dispatch response (set_client (set_listeners (Some {[ "seek" := 5%nat ]})) busy_world)
       = Ok tt (log (EvGo (go_listener 5 {[ "target" := Float64 15 ]}))
                  (set_client (set_listeners (Some {[ "seek" := 5%nat ]})) busy_world)).
Proof.
  eexists. split; [vm_compute; reflexivity|].
  apply (proj1 (dispatch_named_event
                  (set_client (set_listeners (Some {[ "seek" := 5%nat ]})) busy_world)
                  (ipcResponse.mk "" Nil 0 "seek" {[ "target" := Float64 15 ]} 3)
                  ltac:(discriminate) ltac:(discriminate) eq_refl)
           {[ "seek" := 5%nat ]} 5%nat); reflexivity.
Defined.

(** ** Sequences of frames *)

(** A command reply for a registered request with a live channel is
    delivered. *)
Lemma dispatch_delivers (w : World) (response : ipcResponse.t) (m : gmap Z ipcRequest.t)
    (request : ipcRequest.t) (c : rchan) :
  ipcResponse.Event response = "" ->
  requestMu (client w) = false ->
  requests (client w) = Some m ->
  m !! ipcResponse.RequestID response = Some request ->
  chans w !! ipcRequest.responseChan request = Some c ->
  chan_closed c = false ->
  buf c = [] ->
  dispatch response w = Ok tt (delivered response request c w).
Proof.
  intros Hev Hmu Hreq Hm Hch Hopen Hbuf.
  destruct_world w. subst.
  unfold dispatch, delivered. rewrite Hev. step.
  unfold chan_send, chan_close. simpl.
  rewrite Hm. simpl. rewrite Hch, Hopen, Hbuf. simpl.
  rewrite lookup_insert_eq. simpl. step.
  rewrite insert_insert_eq, <- app_assoc. reflexivity.
Qed.

(** X2.  On a registry whose requests have live channels of their own, the
    dispatcher gets through any sequence of frames without panic and
    without waiting; the registry stays so; every channel gets at most one
    response, and a channel that no request waits on gets none; and no
    request starts waiting. *)
Theorem dispatch_frames_at_most_once (w : World) (frames : list ipcResponse.t) :
  registry_live w ->
  exists w', dispatch_all frames w = Ok tt w'
    /\ registry_live w'
    /\ (forall ch, sends ch (trace w') <= S (sends ch (trace w)))%nat
    /\ (forall ch, ~ waiting_on w ch -> sends ch (trace w') = sends ch (trace w))
    /\ (forall ch, waiting_on w' ch -> waiting_on w ch).
Proof.
  intros Hlive.
  destruct (dispatch_all_live frames w Hlive) as (w' & Hrun & Hlive' & Hwait & Hs).
  exists w'. split; [exact Hrun|]. split; [exact Hlive'|].
  split; [|split; [|exact Hwait]].
  - intros ch. destruct (Hs ch) as [E|(E & _)]; lia.
  - intros ch Hn. destruct (Hs ch) as [E|(_ & Hw & _)]; [exact E|contradiction].
Qed.

Lemma dispatch_frames_at_most_once_witness :
  exists w', dispatch_all [reply_50; volume_changed; reply_50] busy_world = Ok tt w'
             /\ (sends 1%nat (trace w') <= S (sends 1%nat (trace busy_world)))%nat.
Proof.
  destruct (dispatch_frames_at_most_once busy_world [reply_50; volume_changed; reply_50]
              busy_world_live) as (w' & Hrun & _ & Hle & _).
  exists w'. split; [exact Hrun | exact (Hle 1%nat)].
Defined.

(** X3.  Replies are matched by id, not by order: with two requests
    outstanding, the reply to the second arriving before the reply to the
    first, each caller gets its own reply on its own channel and both
    entries leave the registry. *)
Theorem replies_matched_by_id (w : World) (m : gmap Z ipcRequest.t)
    (first second : ipcRequest.t) (c1 c2 : rchan) (r1 r2 : ipcResponse.t) :
  requestMu (client w) = false ->
  requests (client w) = Some m ->
  m !! ipcRequest.RequestID first = Some first ->
  m !! ipcRequest.RequestID second = Some second ->
  ipcRequest.RequestID first <> ipcRequest.RequestID second ->
  ipcRequest.responseChan first <> ipcRequest.responseChan second ->
  chans w !! ipcRequest.responseChan first = Some c1 ->
  chans w !! ipcRequest.responseChan second = Some c2 ->
  chan_closed c1 = false -> buf c1 = [] ->
  chan_closed c2 = false -> buf c2 = [] ->
  ipcResponse.Event r1 = "" -> ipcResponse.RequestID r1 = ipcRequest.RequestID first ->
  ipcResponse.Event r2 = "" -> ipcResponse.RequestID r2 = ipcRequest.RequestID second ->
  exists w',
    (dispatch r2;; dispatch r1) w = Ok tt w'
    /\ chans w' !! ipcRequest.responseChan first = Some (mk_rchan [r1] (cap c1) true)
    /\ chans w' !! ipcRequest.responseChan second = Some (mk_rchan [r2] (cap c2) true)
    /\ requests (client w')
       = Some (delete (ipcRequest.RequestID first) (delete (ipcRequest.RequestID second) m)).
Proof.
  intros Hmu Hreq Hm1 Hm2 Hid Hch Hc1 Hc2 Ho1 Hb1 Ho2 Hb2 He1 Hr1 He2 Hr2.
  pose (w1 := delivered r2 second c2 w).
  assert (Hd2 : dispatch r2 w = Ok tt w1).
  { apply (dispatch_delivers w r2 m second c2); auto. rewrite Hr2. exact Hm2. }
  assert (Hreq1 : requests (client w1) = Some (delete (ipcRequest.RequestID second) m)).
  { subst w1. unfold delivered. destruct_world w. subst. rewrite Hr2. reflexivity. }
  assert (Hmu1 : requestMu (client w1) = false).
  { subst w1. unfold delivered. destruct_world w. exact Hmu. }
  assert (Hch1 : chans w1 !! ipcRequest.responseChan first = Some c1).
  { subst w1. unfold delivered. destruct_world w.
    rewrite lookup_insert_ne by (intros E; apply Hch; symmetry; exact E). exact Hc1. }
  assert (Hch2 : chans w1 !! ipcRequest.responseChan second = Some (mk_rchan [r2] (cap c2) true)).
  { subst w1. unfold delivered. destruct_world w. apply lookup_insert_eq. }
  assert (Hd1 : dispatch r1 w1 = Ok tt (delivered r1 first c1 w1)).
  { apply (dispatch_delivers w1 r1 (delete (ipcRequest.RequestID second) m) first c1); auto.
    rewrite Hr1. rewrite lookup_delete_ne by (intros E; apply Hid; symmetry; exact E).
    exact Hm1. }
  exists (delivered r1 first c1 w1).
  split; [unfold bind; rewrite Hd2; exact Hd1|].
  clearbody w1. unfold delivered. destruct_world w1. subst.
  split; [apply lookup_insert_eq|].
  split; [rewrite lookup_insert_ne by exact Hch; exact Hch2|].
  rewrite Hr1. reflexivity.
Qed.

Lemma replies_matched_by_id_witness :
  exists w',
    (dispatch (reply_to 8 (Float64 50));; dispatch (reply_to 7 (Bool true))) two_pending_world
    = Ok tt w'
    /\ chans w' !! 1%nat = Some (mk_rchan [reply_to 7 (Bool true)] 0 true)
    /\ chans w' !! 2%nat = Some (mk_rchan [reply_to 8 (Float64 50)] 0 true).
Proof.
  destruct (replies_matched_by_id two_pending_world {[ 7 := request_7; 8 := request_8 ]}
              request_7 request_8 (mk_rchan [] 0 false) (mk_rchan [] 0 false)
              (reply_to 7 (Bool true)) (reply_to 8 (Float64 50)))
    as (w' & Hrun & H1 & H2 & _); try reflexivity; try discriminate.
  exists w'. split; [exact Hrun|]. split; [exact H1 | exact H2].
Defined.

(** ** The writer loop on its queue *)

Lemma write_body_effect (req : ipcRequest.t) (w : World) :
  requestMu (client w) = false ->
  exists w', write_body req w = Ok tt w'
    /\ requestMu (client w') = false
    /\ receiver (client w') = receiver (client w)
    /\ chans w' = chans w
    /\ remote w' = remote w
    /\ listeners (client w') = listeners (client w)
    /\ observers (client w') = observers (client w)
    /\ closed (client w') = closed (client w)
    /\ listenerMu (client w') = listenerMu (client w)
    /\ observerMu (client w') = observerMu (client w)
    /\ registered_ids w' = encodable_id req ∪ registered_ids w
    /\ (conn_closed (conn (client w)) = false -> faults w = [] ->
        conn_closed (conn (client w')) = false /\ faults w' = []
        /\ written (conn (client w')) = written (conn (client w)) ++ frame_bytes req).
Proof.
  intros Hmu. destruct_world w. subst.
  unfold write_body, publishError, conn_Write, registered_ids, encodable_id, frame_bytes.
  destruct (Marshal req) as [body|err]; step.
  - destruct reqs; destruct cn as [wr [|]]; destruct sink;
      destruct flt as [|[e|] [|[e2|] fl2]]; simpl;
      eexists; (split; [reflexivity|]); simpl;
      repeat (split; [try reflexivity; try (rewrite dom_insert_L; reflexivity);
                      try (rewrite dom_insert_L, dom_empty_L; reflexivity)|]);
      try (intros; try discriminate; repeat split; try reflexivity;
           rewrite <- app_assoc; reflexivity).
  - destruct sink; eexists; (split; [reflexivity|]); simpl;
      repeat (split; [try reflexivity; rewrite (left_id_L ∅ (∪)); reflexivity|]);
      intros; rewrite app_nil_r; auto.
Qed.

Lemma write_loop_effect (q : list ipcRequest.t) :
  forall (w : World) (n : nat),
    receiver (client w) = mk_receiver q false ->
    requestMu (client w) = false ->
    (length q < n)%nat ->
    exists w', write_loop n w = Blocked w'
      /\ receiver (client w') = mk_receiver [] false
      /\ requestMu (client w') = false
      /\ chans w' = chans w
      /\ remote w' = remote w
      /\ listeners (client w') = listeners (client w)
      /\ observers (client w') = observers (client w)
      /\ closed (client w') = closed (client w)
      /\ listenerMu (client w') = listenerMu (client w)
      /\ observerMu (client w') = observerMu (client w)
      /\ registered_ids w' = ⋃ (map encodable_id q) ∪ registered_ids w
      /\ (conn_closed (conn (client w)) = false -> faults w = [] ->
          conn_closed (conn (client w')) = false /\ faults w' = []
          /\ written (conn (client w'))
             = written (conn (client w)) ++ concat (map frame_bytes q)).
Proof.
  induction q as [|req q IH]; intros w n Hq Hmu Hn.
  - destruct n as [|n]; [lia|]. simpl. unfold bind, recv_receiver. rewrite Hq. simpl.
    exists w. repeat (split; [try reflexivity; auto|]).
    + unfold union_list. simpl. rewrite (left_id_L ∅ (∪)). reflexivity.
    + intros. rewrite app_nil_r. auto.
  - destruct n as [|n]; [simpl in Hn; lia|]. simpl in Hn.
    simpl. unfold bind at 1, recv_receiver. rewrite Hq. simpl.
    set (w1 := set_client (set_receiver (mk_receiver q false)) w).
    assert (Hw1 : requestMu (client w1) = false /\ chans w1 = chans w
                  /\ remote w1 = remote w /\ listeners (client w1) = listeners (client w)
                  /\ observers (client w1) = observers (client w)
                  /\ closed (client w1) = closed (client w)
                  /\ listenerMu (client w1) = listenerMu (client w)
                  /\ observerMu (client w1) = observerMu (client w)
                  /\ registered_ids w1 = registered_ids w
                  /\ conn (client w1) = conn (client w) /\ faults w1 = faults w
                  /\ receiver (client w1) = mk_receiver q false).
    { subst w1. clear IH Hq. destruct_world w. repeat split; auto. }
    destruct Hw1 as (Hmu1 & Hc1 & Hr1 & Hl1 & Ho1 & Hcl1 & Hlm1 & Hom1 & Hid1 & Hcn1 & Hf1 & Hq1).
    destruct (write_body_effect req w1 Hmu1)
      as (w2 & Hb & Hmu2 & Hr2 & Hc2 & Hrem2 & Hl2 & Ho2 & Hcl2 & Hlm2 & Hom2 & Hid2 & Hwr2).
    unfold bind. rewrite Hb.
    destruct (IH w2 n)
      as (w' & Hrun & Hq' & Hmu' & Hc' & Hrem' & Hl' & Ho' & Hcl' & Hlm' & Hom' & Hid' & Hwr');
      [congruence | exact Hmu2 | lia |].
    exists w'. split; [exact Hrun|]. split; [exact Hq'|]. split; [exact Hmu'|].
    split; [congruence|]. split; [congruence|]. split; [congruence|].
    split; [congruence|]. split; [congruence|]. split; [congruence|].
    split; [congruence|]. split.
    + rewrite Hid', Hid2, Hid1. simpl.
      rewrite (assoc_L (∪)). f_equal. apply (comm_L (∪)).
    + intros Hopen Hnof. rewrite <- Hcn1 in Hopen. rewrite <- Hf1 in Hnof.
      destruct (Hwr2 Hopen Hnof) as (Ho & Hf & Hw).
      destruct (Hwr' Ho Hf) as (Ho3 & Hf3 & Hw3).
      split; [exact Ho3|]. split; [exact Hf3|].
      rewrite Hw3, Hw, Hcn1. simpl. rewrite <- app_assoc. reflexivity.
Qed.

(** X4.  The writer loop on a closed queue returns at once and changes
    nothing.  On an open queue it takes every parked request in turn, never
    returns, and at the end waits with the queue empty: no reply channel
    was touched, and the ids registered are the old ones and those of the
    queued requests that have an encoding.  It returns only on a closed
    queue. *)
Theorem write_takes_whole_queue (w : World) :
  requestMu (client w) = false ->
  (receiver_closed (receiver (client w)) = true -> write w = Ok tt w)
  /\ (receiver_closed (receiver (client w)) = false ->
      exists w', write w = Blocked w'
        /\ receiver (client w') = mk_receiver [] false
        /\ chans w' = chans w
        /\ registered_ids w'
           = ⋃ (map encodable_id (waiting (receiver (client w)))) ∪ registered_ids w)
  /\ (forall w', write w = Ok tt w' ->
        receiver_closed (receiver (client w)) = true /\ w' = w).
Proof.
  intros Hmu.
  assert (Hclosed : receiver_closed (receiver (client w)) = true -> write w = Ok tt w).
  { intros Hcl. unfold write. simpl. unfold bind, recv_receiver. rewrite Hcl. reflexivity. }
  assert (Hopen : receiver_closed (receiver (client w)) = false ->
      exists w', write w = Blocked w'
        /\ receiver (client w') = mk_receiver [] false
        /\ chans w' = chans w
        /\ registered_ids w'
           = ⋃ (map encodable_id (waiting (receiver (client w)))) ∪ registered_ids w).
  { intros Hop.
    destruct (write_loop_effect (waiting (receiver (client w))) w
                (S (length (waiting (receiver (client w))))))
      as (w' & Hrun & Hq & _ & Hc & _ & _ & _ & _ & _ & _ & Hid & _); [| exact Hmu | lia |].
    + destruct (receiver (client w)) as [q cl]. simpl in *. subst. reflexivity.
    + exists w'. auto. }
  split; [exact Hclosed|]. split; [exact Hopen|].
  intros w' Hrun. destruct (receiver_closed (receiver (client w))) eqn:Hcl.
  - rewrite (Hclosed eq_refl) in Hrun. injection Hrun as <-. auto.
  - destruct (Hopen eq_refl) as (w2 & Hb & _). rewrite Hb in Hrun. discriminate.
Qed.

Lemma write_takes_whole_queue_witness :
  exists w', write (queued_world None []) = Blocked w'
             /\ receiver (client w') = mk_receiver [] false.
Proof.
  destruct (proj1 (proj2 (write_takes_whole_queue (queued_world None []) eq_refl)) eq_refl)
    as (w' & Hrun & Hq & _).
  exists w'. split; [exact Hrun | exact Hq].
Defined.

(** X5.  On a transport that works, what the writer loop puts on the
    connection is, after what was there, the frames of the queued requests
    in the order of the queue: for each request its encoding, then a
    newline; a request without an encoding contributes nothing. *)
Theorem write_keeps_queue_order (w : World) :
  requestMu (client w) = false ->
  receiver_closed (receiver (client w)) = false ->
  conn_closed (conn (client w)) = false ->
  faults w = [] ->
  exists w', write w = Blocked w'
    /\ written (conn (client w'))
       = written (conn (client w)) ++ concat (map frame_bytes (waiting (receiver (client w)))).
Proof.
  intros Hmu Hopen Hconn Hf.
  destruct (write_loop_effect (waiting (receiver (client w))) w
              (S (length (waiting (receiver (client w))))))
    as (w' & Hrun & _ & _ & _ & _ & _ & _ & _ & _ & _ & _ & Hwr); [| exact Hmu | lia |].
  - destruct (receiver (client w)) as [q cl]. simpl in *. subst. reflexivity.
  - exists w'. split; [exact Hrun|]. apply Hwr; assumption.
Qed.

Lemma write_keeps_queue_order_witness :
  exists w', write two_queued_world = Blocked w'
             /\ written (conn (client w'))
                = [wire "{'command':['get_property','pause'],'request_id':7,'async':true}";
                   chr newline;
                   wire "{'command':['get_property','volume'],'request_id':8,'async':true}";
                   chr newline].
Proof.
  destruct (write_keeps_queue_order two_queued_world eq_refl eq_refl eq_refl eq_refl)
    as (w' & Hrun & Hw).
  exists w'. split; [exact Hrun|]. rewrite Hw. vm_compute. reflexivity.
Defined.

(** ** A request from call to return *)

Lemma await_ready (n : nat) (ch : chan_id) (w w' : World) (r : option ipcResponse.t) :
  chan_poll ch w = Some (r, w') -> await n ch w = Ok r w'.
Proof. intros H. destruct n; simpl; rewrite H; reflexivity. Qed.

(** The whole way of a request on an open client with nothing queued,
    whose transport works and delivers the reply to it next: handed to the
    writer, registered, written, answered, dispatched, returned. *)
Lemma requestInternal_round_trip (w : World) (command : option (list any)) (async : bool)
    (body data : string) (response : ipcResponse.t) (rest : list (string * option error)) :
  let id := rand_source w (rand_used w) in
  let ch := fresh ({[nil_chan]} ∪ dom (chans w) : gset nat) in
  let request := ipcRequest.mk command id async ch in
  closed (client w) = false ->
  receiver (client w) = mk_receiver [] false ->
  requestMu (client w) = false ->
  conn_closed (conn (client w)) = false ->
  faults w = [] ->
  Marshal request = inl body ->
  remote w = (data, None) :: rest ->
  UnmarshalWith data = inl response ->
  ipcResponse.Event response = "" ->
  ipcResponse.RequestID response = id ->
  exists w',
    requestInternal command async w = Ok (reply_result response) w'
    /\ client w'
       = set_requests (Some (delete id (default ∅ (requests (client w)))))
           (set_conn (mk_conn (written (conn (client w)) ++ [body; chr newline]) false)
              (client w))
    /\ chans w' !! ch = Some (mk_rchan [] 0 true)
    /\ remote w' = rest
    /\ faults w' = [].
Proof.
  intros id ch request Hopen Hq Hmu Hconn Hf HM Hrem Hdec Hev Hid.
  subst request id ch.
  destruct_world w. destruct cn as [wr cc]. simpl in *. subst.
  remember (fresh ({[nil_chan]} ∪ dom chs)) as c eqn:Hc.
  unfold requestInternal, requestSend, chan_recv, run_writer, write, rand_Int, make_chan,
    send_receiver, gets, bind. simpl. rewrite <- ?Hc.
  unfold recv_receiver, bind. simpl. unfold write_body. rewrite HM.
  unfold conn_Write. step.
  destruct reqs as [m0|]; simpl.
  all: unfold chan_poll; simpl; rewrite lookup_insert_eq; simpl.
  all: unfold read_body, ReadBytes, bind; simpl; rewrite Hdec.
  all: unfold dispatch; rewrite Hev; step.
  all: rewrite Hid, lookup_insert_eq; simpl.
  all: unfold chan_send, chan_close; simpl; rewrite lookup_insert_eq; simpl.
  all: step.
  all: rewrite (lookup_insert_eq (<[c:={| buf := []; cap := 0; chan_closed := false |}]> chs) c).
  all: simpl. all: step.
  all: erewrite await_ready
         by (unfold chan_poll; simpl; rewrite lookup_insert_eq; reflexivity).
  all: eexists; split; [reflexivity|]; simpl.
  all: rewrite <- app_assoc, delete_insert_eq, lookup_insert_eq.
  all: repeat split; reflexivity.
Qed.

(** ** Unsubscribing *)

(** X10.  [UnobserveProperty] removes the observer at once and leaves the
    [unobserve_property] request to a goroutine of its own, without waiting
    for it.  From then on a property-change frame with that id changes
    nothing.  The other observers stay, and on a client that never had an
    observer the nil map stays nil. *)
Theorem UnobserveProperty_forgets (w : World) (id : Z) :
  observerMu (client w) = false ->
  let w' := log (EvGo (go_Request [Str "unobserve_property"; Int id]))
              (set_client (fun c => set_observers (delete id <$> observers c) c) w) in
  UnobserveProperty id w = Ok tt w'
  /\ (forall response,
        ipcResponse.Event response = "property-change" ->
        ipcResponse.ID response = id ->
        dispatch response w' = Ok tt w')
  /\ (forall m other, observers (client w) = Some m -> other <> id ->
        exists m', observers (client w') = Some m' /\ m' !! other = m !! other)
  /\ (observers (client w) = None -> observers (client w') = None).
Proof.
  intros Hmu w'. subst w'. destruct_world w. subst.
  split; [reflexivity|]. split; [|split].
  - intros response Hev Hid. unfold dispatch. rewrite Hev. step.
    destruct obs as [m|]; simpl; [|reflexivity].
    rewrite Hid, lookup_delete_eq. reflexivity.
  - intros m other -> Hne. eexists. split; [reflexivity|].
    apply lookup_delete_ne. auto.
  - intros ->. reflexivity.
Qed.

Lemma UnobserveProperty_forgets_witness :
  UnobserveProperty 1 busy_world
  = Ok tt (log (EvGo (go_Request [Str "unobserve_property"; Int 1]))
             (set_client (fun c => set_observers (delete 1 <$> observers c) c) busy_world)).
Proof. exact (proj1 (UnobserveProperty_forgets busy_world 1 eq_refl)). Defined.

(** X11.  [UnregisterListener] removes the listener at once and leaves the
    [disable_event] request to a goroutine of its own.  From then on a
    frame of that event changes nothing.  The other listeners stay, and on
    a client that never had a listener the nil map stays nil. *)
Theorem UnregisterListener_forgets (w : World) (event : string) :
  listenerMu (client w) = false ->
  event <> "" -> event <> "property-change" ->
  let w' := log (EvGo (go_Request [Str "disable_event"; Str event]))
              (set_client (fun c => set_listeners (delete event <$> listeners c) c) w) in
  UnregisterListener event w = Ok tt w'
  /\ (forall response,
        ipcResponse.Event response = event ->
        dispatch response w' = Ok tt w')
  /\ (forall m other, listeners (client w) = Some m -> other <> event ->
        exists m', listeners (client w') = Some m' /\ m' !! other = m !! other)
  /\ (listeners (client w) = None -> listeners (client w') = None).
Proof.
  intros Hmu H1 H2 w'. subst w'. destruct_world w. subst.
  apply String.eqb_neq in H1. apply String.eqb_neq in H2.
  split; [reflexivity|]. split; [|split].
  - intros response Hev. unfold dispatch. rewrite Hev, H1, H2. step.
    destruct lsn as [m|]; simpl; [|reflexivity].
    rewrite lookup_delete_eq. reflexivity.
  - intros m other -> Hne. eexists. split; [reflexivity|].
    apply lookup_delete_ne. auto.
  - intros ->. reflexivity.
Qed.

Lemma UnregisterListener_forgets_witness :
  UnregisterListener "seek" (listening_world [])
  = Ok tt (log (EvGo (go_Request [Str "disable_event"; Str "seek"]))
             (set_client (fun c => set_listeners (delete "seek" <$> listeners c) c)
                (listening_world []))).
Proof.
  exact (proj1 (UnregisterListener_forgets (listening_world []) "seek" eq_refl
                  ltac:(discriminate) ltac:(discriminate))).
Defined.

(** [ObserveProperty] around its request. *)
Lemma ObserveProperty_result (w : World) (property : string) (observer : nat) :
  let id := rand_source w (rand_used w) in
  let w1 := set_rand_used (S (rand_used w)) w in
  (forall v err w2,
      Request [Str "observe_property"; Int id; Str property] w1 = Ok (v, Some err) w2 ->
      ObserveProperty property observer w = Ok (0, Some err) w2)
  /\ (forall v w2,
        Request [Str "observe_property"; Int id; Str property] w1 = Ok (v, None) w2 ->
        observerMu (client w2) = false ->
        ObserveProperty property observer w
        = Ok (id, None)
            (set_client (fun c => set_observers
               (Some (<[id := observer]> (default ∅ (observers c)))) c) w2)).
Proof.
  intros id w1. split.
  - intros v err w2 HR. unfold ObserveProperty, bind at 1, rand_Int. fold id w1.
    unfold bind at 1. rewrite HR. reflexivity.
  - intros v w2 HR Hmu. unfold ObserveProperty, bind at 1, rand_Int. fold id w1.
    unfold bind at 1. rewrite HR. simpl. clear HR. destruct_world w2. subst. step.
    destruct obs; reflexivity.
Qed.

(** ** Calls that end in a request *)

(** X6.  [Request] and [RequestSync] on an open client with nothing queued
    and a working transport, when the next line from the remote process is
    the command reply bearing the request's id: the call returns the
    reply's data, or the protocol error when the reply's error is not
    "success"; the encoded request and a newline were written; the request
    is out of the registry again; listeners, observers and the closed flag
    are untouched; and the line is consumed. *)
Theorem Request_round_trip (w : World) (command : list any) (async : bool)
    (body data : string) (response : ipcResponse.t) (rest : list (string * option error)) :
  let id := rand_source w (rand_used w) in
  let ch := fresh ({[nil_chan]} ∪ dom (chans w) : gset nat) in
  closed (client w) = false ->
  receiver (client w) = mk_receiver [] false ->
  requestMu (client w) = false ->
  conn_closed (conn (client w)) = false ->
  faults w = [] ->
  Marshal (ipcRequest.mk (variadic command) id async ch) = inl body ->
  remote w = (data, None) :: rest ->
  UnmarshalWith data = inl response ->
  ipcResponse.Event response = "" ->
  ipcResponse.RequestID response = id ->
  exists w',
    (if async then Request command else RequestSync command) w
    = Ok (if String.eqb (ipcResponse.Error response) "success"
          then (ipcResponse.Data response, None)
          else (Nil, Some (MpvError (ipcResponse.Error response)))) w'
    /\ written (conn (client w')) = written (conn (client w)) ++ [body; chr newline]
    /\ requests (client w') = Some (delete id (default ∅ (requests (client w))))
    /\ listeners (client w') = listeners (client w)
    /\ observers (client w') = observers (client w)
    /\ closed (client w') = false
    /\ remote w' = rest.
Proof.
  intros id ch Hopen Hq Hmu Hconn Hf HM Hrem Hdec Hev Hid.
  destruct (requestInternal_round_trip w (variadic command) async body data response rest
              Hopen Hq Hmu Hconn Hf HM Hrem Hdec Hev Hid)
    as (w' & Hrun & Hcl & _ & Hrest & _).
  exists w'. split.
  - replace (if async then Request command else RequestSync command)
      with (requestInternal (variadic command) async) by (destruct async; reflexivity).
    rewrite Hrun. unfold reply_result. destruct (_ =? _)%string; reflexivity.
  - rewrite Hcl. destruct (client w). simpl in *. rewrite Hopen. repeat split; auto.
Qed.

Lemma Request_round_trip_witness :
  exists w',
    Request [Str "get_property"; Str "volume"]
      (connectInternal None (fun _ => 42)
         [line "{'error':'success','data':50,'request_id':42}"] [])
    = Ok (Float64 50, None) w'
    /\ requests (client w') = Some (delete 42 ∅).
Proof.
  destruct (Request_round_trip
              (connectInternal None (fun _ => 42)
                 [line "{'error':'success','data':50,'request_id':42}"] [])
              [Str "get_property"; Str "volume"] true
              (wire "{'command':['get_property','volume'],'request_id':42,'async':true}")
              (fst (line "{'error':'success','data':50,'request_id':42}"))
              reply_50 [])
    as (w' & Hrun & _ & Hreq & _); try reflexivity.
  exists w'. split; [exact Hrun | exact Hreq].
Defined.

(** X7.  [ObserveProperty] draws the subscription id first and the request
    id second, and sends [observe_property] with the subscription id.  On a
    "success" reply it returns that id and stores the observer under it,
    so that a later property-change frame with this id starts the observer
    on the frame's data.  On another reply it returns 0 and the protocol
    error, and the observers are what they were. *)
Theorem ObserveProperty_round_trip (w : World) (property : string) (observer : nat)
    (data : string) (response : ipcResponse.t) (rest : list (string * option error)) :
  let id := rand_source w (rand_used w) in
  let rid := rand_source w (S (rand_used w)) in
  let ch := fresh ({[nil_chan]} ∪ dom (chans w) : gset nat) in
  closed (client w) = false ->
  receiver (client w) = mk_receiver [] false ->
  requestMu (client w) = false ->
  observerMu (client w) = false ->
  conn_closed (conn (client w)) = false ->
  faults w = [] ->
  remote w = (data, None) :: rest ->
  UnmarshalWith data = inl response ->
  ipcResponse.Event response = "" ->
  ipcResponse.RequestID response = rid ->
  exists body w',
    Marshal (ipcRequest.mk (Some [Str "observe_property"; Int id; Str property]) rid true ch)
    = inl body
    /\ written (conn (client w')) = written (conn (client w)) ++ [body; chr newline]
    /\ (ipcResponse.Error response = "success" ->
        ObserveProperty property observer w = Ok (id, None) w'
        /\ observers (client w')
           = Some (<[id := observer]> (default ∅ (observers (client w))))
        /\ forall notification,
             ipcResponse.Event notification = "property-change" ->
             ipcResponse.ID notification = id ->
             dispatch notification w'
             = Ok tt (log (EvGo (go_observer observer (ipcResponse.Data notification))) w'))
    /\ (ipcResponse.Error response <> "success" ->
        ObserveProperty property observer w
        = Ok (0, Some (MpvError (ipcResponse.Error response))) w'
        /\ observers (client w') = observers (client w)).
Proof.
  intros id rid ch Hopen Hq Hmu Homu Hconn Hf Hrem Hdec Hev Hid.
  pose (w1 := set_rand_used (S (rand_used w)) w).
  assert (HM : exists body,
    Marshal (ipcRequest.mk (Some [Str "observe_property"; Int id; Str property]) rid true ch)
    = inl body) by (eexists; reflexivity).
  destruct HM as (body & HM). exists body.
  destruct (requestInternal_round_trip w1
              (Some [Str "observe_property"; Int id; Str property]) true body data response rest)
    as (w2 & Hrun & Hcl & _ & Hrest & _);
    try (subst w1; destruct w; simpl in *; assumption).
  destruct (ObserveProperty_result w property observer) as (Hfail & Hok).
  fold id w1 in Hfail, Hok.
  assert (Hmu2 : observerMu (client w2) = false).
  { rewrite Hcl. subst w1. destruct_world w. exact Homu. }
  assert (Hobs2 : observers (client w2) = observers (client w)).
  { rewrite Hcl. subst w1. destruct_world w. reflexivity. }
  assert (Hwr2 : written (conn (client w2)) = written (conn (client w)) ++ [body; chr newline]).
  { rewrite Hcl. subst w1. destruct_world w. reflexivity. }
  destruct (String.eqb_spec (ipcResponse.Error response) "success") as [Hs|Hs].
  - assert (HR : Request [Str "observe_property"; Int id; Str property] w1
                 = Ok (ipcResponse.Data response, None) w2).
    { unfold Request. simpl variadic. rewrite Hrun. unfold reply_result.
      rewrite Hs. reflexivity. }
    specialize (Hok _ _ HR Hmu2).
    exists (set_client (fun c => set_observers
              (Some (<[id := observer]> (default ∅ (observers c)))) c) w2).
    split; [exact HM|]. split; [|split].
    + clear Hok HR Hrun. destruct_world w2. exact Hwr2.
    + intros _. split; [exact Hok|]. clear Hok HR Hrun. split.
      * destruct_world w2. rewrite Hobs2. reflexivity.
      * intros notification Hne Hnid. destruct_world w2. subst omu.
        unfold dispatch. rewrite Hne. step.
        rewrite Hnid, lookup_insert_eq. reflexivity.
    + intros Hn. contradiction.
  - assert (HR : Request [Str "observe_property"; Int id; Str property] w1
                 = Ok (Nil, Some (MpvError (ipcResponse.Error response))) w2).
    { unfold Request. simpl variadic. rewrite Hrun. unfold reply_result.
      apply String.eqb_neq in Hs. rewrite Hs. reflexivity. }
    exists w2. split; [exact HM|]. split; [exact Hwr2|]. split.
    + intros Hn. contradiction.
    + intros _. split; [exact (Hfail _ _ _ HR)|exact Hobs2].
Qed.

Lemma ObserveProperty_round_trip_witness :
  exists w',
    ObserveProperty "volume" 9
      (connectInternal None (fun n => 7 + Z.of_nat n)
         [line "{'error':'success','data':null,'request_id':8}"] [])
    = Ok (7, None) w'
    /\ observers (client w') = Some (<[ 7 := 9%nat ]> ∅).
Proof.
  destruct (ObserveProperty_round_trip
              (connectInternal None (fun n => 7 + Z.of_nat n)
                 [line "{'error':'success','data':null,'request_id':8}"] [])
              "volume" 9
              (fst (line "{'error':'success','data':null,'request_id':8}"))
              (reply_to 8 Nil) [])
    as (body & w' & _ & _ & Hok & _); try reflexivity.
  destruct (Hok eq_refl) as (Hrun & Hobs & _).
  exists w'. split; [exact Hrun | exact Hobs].
Defined.

(** X8.  [RegisterListener] for a name without a listener, on a client
    that already has the listener map: it sends the one request
    [enable_event] for the name; on a "success" reply it stores the
    callback, on another reply it returns the protocol error and the
    listeners are what they were; either way the listener lock is free
    again. *)
Theorem RegisterListener_new_name (w : World) (event : string) (listener : nat)
    (m : gmap string nat)
    (data : string) (response : ipcResponse.t) (rest : list (string * option error)) :
  let id := rand_source w (rand_used w) in
  let ch := fresh ({[nil_chan]} ∪ dom (chans w) : gset nat) in
  listeners (client w) = Some m ->
  m !! event = None ->
  listenerMu (client w) = false ->
  closed (client w) = false ->
  receiver (client w) = mk_receiver [] false ->
  requestMu (client w) = false ->
  conn_closed (conn (client w)) = false ->
  faults w = [] ->
  remote w = (data, None) :: rest ->
  UnmarshalWith data = inl response ->
  ipcResponse.Event response = "" ->
  ipcResponse.RequestID response = id ->
  exists body w',
    Marshal (ipcRequest.mk (Some [Str "enable_event"; Str event]) id true ch) = inl body
    /\ written (conn (client w')) = written (conn (client w)) ++ [body; chr newline]
    /\ listenerMu (client w') = false
    /\ (ipcResponse.Error response = "success" ->
        RegisterListener event listener w = Ok None w'
        /\ listeners (client w') = Some (<[event := listener]> m))
    /\ (ipcResponse.Error response <> "success" ->
        RegisterListener event listener w
        = Ok (Some (MpvError (ipcResponse.Error response))) w'
        /\ listeners (client w') = Some m).
Proof.
  intros id ch Hls Hnew Hlmu Hopen Hq Hmu Hconn Hf Hrem Hdec Hev Hid.
  pose (w1 := set_client (set_held ListenerMu true) w).
  assert (HM : exists body,
    Marshal (ipcRequest.mk (Some [Str "enable_event"; Str event]) id true ch) = inl body)
    by (eexists; reflexivity).
  destruct HM as (body & HM). exists body.
  destruct (requestInternal_round_trip w1
              (Some [Str "enable_event"; Str event]) true body data response rest)
    as (w2 & Hrun & Hcl & _ & Hrest & _);
    try (subst w1; destruct_world w; assumption).
  destruct (RegisterListener_enable w event listener m Hls Hnew Hlmu) as (Heq & _).
  fold w1 in Heq.
  assert (Hls2 : listeners (client w2) = Some m).
  { rewrite Hcl. subst w1. destruct_world w. exact Hls. }
  assert (Hwr2 : written (conn (client w2)) = written (conn (client w)) ++ [body; chr newline]).
  { rewrite Hcl. subst w1. destruct_world w. reflexivity. }
  destruct (String.eqb_spec (ipcResponse.Error response) "success") as [Hs|Hs].
  - exists (set_client (set_held ListenerMu false)
             (set_client (fun c => set_listeners
                (Some (<[event := listener]> (default ∅ (listeners c)))) c) w2)).
    split; [exact HM|]. split; [|split; [|split]].
    + clear Hrun Heq. destruct_world w2. exact Hwr2.
    + clear Hrun Heq. destruct_world w2. reflexivity.
    + intros _. split.
      * rewrite Heq. unfold bind at 1, Request. simpl variadic. rewrite Hrun.
        unfold reply_result. rewrite Hs. reflexivity.
      * clear Hrun Heq. destruct_world w2. rewrite Hls2. reflexivity.
    + intros Hn. contradiction.
  - exists (set_client (set_held ListenerMu false) w2).
    split; [exact HM|]. split; [|split; [|split]].
    + clear Hrun Heq. destruct_world w2. exact Hwr2.
    + clear Hrun Heq. destruct_world w2. reflexivity.
    + intros Hn. contradiction.
    + intros _. split.
      * rewrite Heq. unfold bind at 1, Request. simpl variadic. rewrite Hrun.
        unfold reply_result. apply String.eqb_neq in Hs. rewrite Hs. reflexivity.
      * clear Hrun Heq. destruct_world w2. exact Hls2.
Qed.

Lemma RegisterListener_new_name_witness :
  exists w',
    RegisterListener "pause" 2
      (listening_world [line "{'error':'success','data':null,'request_id':7}"])
    = Ok None w'
    /\ listeners (client w') = Some (<[ "pause" := 2%nat ]> {[ "seek" := 1%nat ]}).
Proof.
  destruct (RegisterListener_new_name
              (listening_world [line "{'error':'success','data':null,'request_id':7}"])
              "pause" 2 {[ "seek" := 1%nat ]}
              (fst (line "{'error':'success','data':null,'request_id':7}"))
              (reply_to 7 Nil) [])
    as (body & w' & _ & _ & _ & Hok & _); try reflexivity.
  destruct (Hok eq_refl) as (Hrun & Hls).
  exists w'. split; [exact Hrun | exact Hls].
Defined.

(** ** Waiting under the listener lock *)

(** A caller that holds the listener lock while it waits for its reply
    waits for ever when the next frame is a named event: the reader needs
    that lock to dispatch the frame and gets no further. *)
Lemma requestInternal_blocked_by_event (w : World) (command : option (list any))
    (async : bool) (data : string) (response : ipcResponse.t)
    (rest : list (string * option error)) :
  closed (client w) = false ->
  receiver (client w) = mk_receiver [] false ->
  requestMu (client w) = false ->
  listenerMu (client w) = true ->
  remote w = (data, None) :: rest ->
  UnmarshalWith data = inl response ->
  ipcResponse.Event response <> "" ->
  ipcResponse.Event response <> "property-change" ->
  exists w', requestInternal command async w = Blocked w'
             /\ listeners (client w') = listeners (client w)
             /\ listenerMu (client w') = true.
Proof.
  intros Hopen Hq Hmu Hlmu Hrem Hdec Hev1 Hev2.
  apply String.eqb_neq in Hev1. apply String.eqb_neq in Hev2.
  set (id := rand_source w (rand_used w)).
  set (ch := fresh ({[nil_chan]} ∪ dom (chans w) : gset nat)).
  set (request := ipcRequest.mk command id async ch).
  set (w2 := log (EvEnqueue request)
               (set_client (set_receiver (mk_receiver [request] false))
                  (set_chans (insert ch (mk_rchan [] 0 false))
                     (set_rand_used (S (rand_used w)) w)))).
  assert (Hstart : requestInternal command async w
                   = (response <- chan_recv ch;;
                      match response with
                      | None => panic "nil pointer dereference"
                      | Some response => ret (reply_result response)
                      end) w2).
  { subst w2 request ch id. destruct_world w. subst.
    unfold requestInternal, requestSend, rand_Int, make_chan, send_receiver, gets.
    unfold bind at 1 2 3 4. simpl. reflexivity. }
  assert (Hw2 : receiver (client w2) = mk_receiver [request] false
                /\ requestMu (client w2) = false
                /\ chans w2 !! ch = Some (mk_rchan [] 0 false)
                /\ remote w2 = remote w
                /\ listeners (client w2) = listeners (client w)
                /\ listenerMu (client w2) = true).
  { subst w2. destruct_world w. subst. repeat split; auto. apply lookup_insert_eq. }
  destruct Hw2 as (Hq2 & Hmu2 & Hch2 & Hrem2 & Hls2 & Hlmu2).
  clearbody w2.
  destruct (write_loop_effect [request] w2 2 Hq2 Hmu2 ltac:(simpl; lia))
    as (w3 & Hrun & _ & _ & Hc3 & Hrem3 & Hls3 & _ & _ & Hlmu3 & _).
  assert (Hwriter : run_writer w2 = Ok tt w3).
  { unfold run_writer, write. rewrite Hq2. simpl length. rewrite Hrun. reflexivity. }
  exists (set_remote rest w3).
  split; [|split].
  - rewrite Hstart. unfold bind at 1, chan_recv, bind at 1. rewrite Hwriter.
    rewrite Hrem3, Hrem2, Hrem. simpl.
    unfold chan_poll. rewrite Hc3. unfold chan_id in *. rewrite Hch2. simpl.
    unfold read_body, bind at 1, ReadBytes. rewrite Hrem3, Hrem2, Hrem. simpl.
    rewrite Hdec. unfold bind at 1, dispatch. rewrite Hev1, Hev2.
    unfold bind at 1, Lock.
    replace (held ListenerMu (client (set_remote rest w3))) with true
      by (rewrite <- Hlmu2, <- Hlmu3; destruct w3; reflexivity).
    reflexivity.
  - rewrite <- Hls2, <- Hls3. destruct w3. reflexivity.
  - rewrite <- Hlmu2, <- Hlmu3. destruct w3. reflexivity.
Qed.

(** X9.  [RegisterListener] holds the listener lock while it waits for the
    reply to [enable_event].  When the reader then comes upon a named event
    before that reply, it cannot take the lock to dispatch it and never
    reaches the reply: the call does not return, the lock stays held and
    the listener is not registered. *)
Theorem RegisterListener_deadlock (w : World) (event : string) (listener : nat)
    (m : gmap string nat) (data : string) (response : ipcResponse.t)
    (rest : list (string * option error)) :
  listeners (client w) = Some m ->
  m !! event = None ->
  listenerMu (client w) = false ->
  closed (client w) = false ->
  receiver (client w) = mk_receiver [] false ->
  requestMu (client w) = false ->
  remote w = (data, None) :: rest ->
  UnmarshalWith data = inl response ->
  ipcResponse.Event response <> "" ->
  ipcResponse.Event response <> "property-change" ->
  exists w', RegisterListener event listener w = Blocked w'
             /\ listenerMu (client w') = true
             /\ listeners (client w') = Some m.
Proof.
  intros Hls Hnew Hlmu Hopen Hq Hmu Hrem Hdec Hev1 Hev2.
  pose (w1 := set_client (set_held ListenerMu true) w).
  destruct (requestInternal_blocked_by_event w1 (Some [Str "enable_event"; Str event]) true
              data response rest) as (w' & Hrun & Hls' & Hlmu');
    try (subst w1; destruct_world w; assumption); try assumption.
  { subst w1. destruct_world w. reflexivity. }
  destruct (RegisterListener_enable w event listener m Hls Hnew Hlmu) as (Heq & _).
  fold w1 in Heq.
  exists w'. split; [|split].
  - rewrite Heq. unfold bind at 1, Request. simpl variadic. rewrite Hrun. reflexivity.
  - exact Hlmu'.
  - rewrite Hls'. subst w1. destruct_world w. exact Hls.
Qed.

Lemma RegisterListener_deadlock_witness :
  exists w',
    RegisterListener "pause" 2
      (listening_world [(seek_line +:+ chr newline, None);
                        line "{'error':'success','data':null,'request_id':7}"])
    = Blocked w'
    /\ listenerMu (client w') = true.
Proof.
  destruct (RegisterListener_deadlock
              (listening_world [(seek_line +:+ chr newline, None);
                                line "{'error':'success','data':null,'request_id':7}"])
              "pause" 2 {[ "seek" := 1%nat ]}
              (seek_line +:+ chr newline)
              (ipcResponse.mk "" Nil 0 "seek" {[ "target" := Float64 15 ]} 3)
              [line "{'error':'success','data':null,'request_id':7}"])
    as (w' & Hrun & Hmu & _); try reflexivity; try discriminate.
  exists w'. split; [exact Hrun | exact Hmu].
Defined.

(** ** The reader loop on its input *)

Lemma read_body_bad (w : World) (r : string * option error) (rest : list (string * option error))
    (err : error) :
  remote w = r :: rest ->
  read_error r = Some err ->
  exists w', read_body w = Ok Continue w'
    /\ client w' = client w /\ chans w' = chans w /\ remote w' = rest
    /\ trace w' = trace w ++ match onError (client w) with
                             | Some h => [EvOnError h err]
                             | None => []
                             end.
Proof.
  intros Hrem Herr.
  destruct (publishError_ok err (set_remote rest w)) as (w' & Hp & Hc & Hch & Hr & _ & Ht).
  exists w'. split.
  - unfold read_body, bind at 1, ReadBytes. rewrite Hrem. destruct r as [data [e|]].
    + unfold read_error in Herr. simpl in *. destruct (is_EOF e); [discriminate|].
      injection Herr as <-. unfold bind. rewrite Hp. reflexivity.
    + unfold read_error in Herr. simpl in *.
      destruct (UnmarshalWith data); [discriminate|]. injection Herr as <-.
      unfold bind. rewrite Hp. reflexivity.
  - rewrite Hc, Hch, Hr, Ht. destruct w. auto.
Qed.

Lemma read_loop_bad (input : list (string * option error)) :
  forall (w : World) (n : nat),
    remote w = input ->
    Forall (fun r => is_Some (read_error r)) input ->
    (length input < n)%nat ->
    exists w', read_loop n w = Blocked w'
      /\ client w' = client w /\ chans w' = chans w /\ remote w' = []
      /\ trace w' = trace w ++ match onError (client w) with
                               | Some h => map (EvOnError h) (omap read_error input)
                               | None => []
                               end.
Proof.
  induction input as [|r rest IH]; intros w n Hrem Hbad Hn.
  - destruct n as [|n]; [lia|]. simpl. unfold bind, read_body, bind, ReadBytes.
    rewrite Hrem. exists w. repeat split; auto.
    destruct (onError (client w)); simpl; rewrite app_nil_r; reflexivity.
  - destruct n as [|n]; [simpl in Hn; lia|]. simpl in Hn.
    apply Forall_cons in Hbad as [[err Herr] Hbad].
    destruct (read_body_bad w r rest err Hrem Herr) as (w1 & Hb & Hc1 & Hch1 & Hr1 & Ht1).
    destruct (IH w1 n Hr1 Hbad ltac:(lia)) as (w' & Hrun & Hc & Hch & Hr & Ht).
    exists w'. split; [simpl; unfold bind; rewrite Hb; exact Hrun|].
    split; [congruence|]. split; [congruence|]. split; [exact Hr|].
    rewrite Ht, Ht1, Hc1. simpl. rewrite Herr.
    destruct (onError (client w)); simpl; rewrite <- app_assoc; reflexivity.
Qed.

(** X12.  While the connection is open, read errors other than end of
    stream and lines that do not decode do not tear the client down: the
    reader goes through all of them, reports each to the error sink in the
    order of arrival (or drops them when no sink is set), leaves the client
    and all channels as they were, the connection still open, and waits
    for more input. *)
Theorem read_survives_bad_input (w : World) :
  conn_closed (conn (client w)) = false ->
  Forall (fun r => is_Some (read_error r)) (remote w) ->
  exists w', read w = Blocked w'
    /\ client w' = client w /\ chans w' = chans w /\ remote w' = []
    /\ conn_closed (conn (client w')) = false
    /\ trace w' = trace w ++ match onError (client w) with
                             | Some h => map (EvOnError h) (omap read_error (remote w))
                             | None => []
                             end.
Proof.
  intros Hopen Hbad. unfold read.
  destruct (read_loop_bad (remote w) w (S (length (remote w))) eq_refl Hbad ltac:(lia))
    as (w' & Hrun & Hc & Hch & Hr & Ht).
  exists w'. rewrite Hc. auto 10.
Qed.

Lemma read_survives_bad_input_witness :
  exists w',
    read (connectInternal (Some 0%nat) (fun _ => 0)
            [("not json", None); ("", Some (net_Error "timeout"))] [])
    = Blocked w'
    /\ remote w' = []
    /\ trace w' = [EvGo go_write; EvGo go_read;
                   EvOnError 0 json_SyntaxError; EvOnError 0 (net_Error "timeout")].
Proof.
  destruct (read_survives_bad_input
              (connectInternal (Some 0%nat) (fun _ => 0)
                 [("not json", None); ("", Some (net_Error "timeout"))] []) eq_refl)
    as (w' & Hrun & _ & _ & Hrem & _ & Ht).
  - repeat constructor; vm_compute; eauto.
  - exists w'. split; [exact Hrun|]. split; [exact Hrem | exact Ht].
Defined.

Lemma read_body_Return (w w' : World) :
  read_body w = Ok Return w' ->
  closed (client w') = true
  /\ receiver_closed (receiver (client w')) = true
  /\ conn_closed (conn (client w')) = true
  /\ exists data, remote w = (data, Some io_EOF) :: remote w'.
Proof.
  unfold read_body, bind at 1, ReadBytes.
  destruct (remote w) as [|[data res] rest] eqn:Hrem; [discriminate|]. simpl.
  destruct res as [err|].
  - destruct err; simpl;
      try (unfold bind; destruct (publishError _ _) as [[] ?| |]; discriminate).
    unfold bind, Close, bind, modify, close_receiver, conn_Close. simpl.
    destruct (receiver_closed _); [discriminate|].
    intros [= <-]. simpl. repeat split; auto. exists data. reflexivity.
  - destruct (UnmarshalWith data) as [response|err]; unfold bind.
    + destruct (dispatch response _) as [[] ?| |]; discriminate.
    + destruct (publishError _ _) as [[] ?| |]; discriminate.
Qed.

Lemma read_body_Continue (w w' : World) :
  read_body w = Ok Continue w' ->
  exists r, remote w = r :: remote w' /\ snd r <> Some io_EOF.
Proof.
  intros Hb. destruct (read_body_consumes _ _ _ Hb) as (r & Hr).
  exists r. split; [exact Hr|]. intros Heof.
  revert Hb. unfold read_body, bind at 1, ReadBytes. rewrite Hr. simpl. rewrite Heof. simpl.
  unfold bind. destruct (Close _) as [[] ?| |]; discriminate.
Qed.

Lemma read_loop_returns (n : nat) :
  forall w w',
    read_loop n w = Ok tt w' ->
    closed (client w') = true
    /\ receiver_closed (receiver (client w')) = true
    /\ conn_closed (conn (client w')) = true
    /\ exists before data,
         remote w = before ++ (data, Some io_EOF) :: remote w'
         /\ Forall (fun r => snd r <> Some io_EOF) before.
Proof.
  induction n as [|n IH]; intros w w'; simpl; [discriminate|].
  unfold bind. destruct (read_body w) as [[] w1| |] eqn:Hb; try discriminate.
  - intros Hrun. destruct (IH _ _ Hrun) as (H1 & H2 & H3 & before & data & Hrem & Hall).
    destruct (read_body_Continue _ _ Hb) as (r & Hr & Hne).
    repeat split; auto. exists (r :: before), data. split.
    + rewrite Hr, Hrem. reflexivity.
    + constructor; assumption.
  - intros [= <-]. destruct (read_body_Return _ _ Hb) as (H1 & H2 & H3 & data & Hrem).
    repeat split; auto. exists [], data. split; [exact Hrem|constructor].
Qed.

(** X13.  The reader loop returns only after end of stream: when it has
    returned, the client is closed (flag, queue and connection), what it
    consumed ends with the first end of stream, and what followed is left
    unread. *)
Theorem read_returns_only_at_EOF (w w' : World) :
  read w = Ok tt w' ->
  closed (client w') = true
  /\ receiver_closed (receiver (client w')) = true
  /\ conn_closed (conn (client w')) = true
  /\ exists before data,
       remote w = before ++ (data, Some io_EOF) :: remote w'
       /\ Forall (fun r => snd r <> Some io_EOF) before.
Proof. unfold read. apply read_loop_returns. Qed.

Lemma read_returns_only_at_EOF_witness :
  exists w',
    read (connectInternal None (fun _ => 0)
            [("not json", None); ("", Some io_EOF); line "{'event':'seek'}"] [])
    = Ok tt w'
    /\ closed (client w') = true.
Proof.
  assert (H : exists w',
             read (connectInternal None (fun _ => 0)
                     [("not json", None); ("", Some io_EOF); line "{'event':'seek'}"] [])
             = Ok tt w') by (eexists; vm_compute; reflexivity).
  destruct H as (w' & H). exists w'. split; [exact H|].
  exact (proj1 (read_returns_only_at_EOF _ _ H)).
Defined.

(** ** Requests that cannot be answered *)

(** What [dispatch] does to a live registry: nothing, or it starts a
    callback, or it delivers a reply. *)
Lemma dispatch_cases (response : ipcResponse.t) (w : World) :
  registry_live w ->
  dispatch response w = Ok tt w
  \/ (exists g, dispatch response w = Ok tt (log (EvGo g) w))
  \/ (exists m request c,
        requests (client w) = Some m
        /\ m !! ipcResponse.RequestID response = Some request
        /\ chans w !! ipcRequest.responseChan request = Some c
        /\ dispatch response w = Ok tt (delivered response request c w)).
Proof.
  intros [Hrmu Hlmu Homu Hchan Hdist].
  unfold dispatch.
  destruct (ipcResponse.Event response =? "")%string eqn:Hev;
    [|destruct (ipcResponse.Event response =? "property-change")%string].
  - destruct (requests (client w)) as [m|] eqn:Hreq.
    + destruct (m !! ipcResponse.RequestID response) as [request|] eqn:Hm.
      * destruct (Hchan m _ request eq_refl Hm) as (c & Hc & Hopen & Hbuf).
        right. right. exists m, request, c. repeat split; auto.
        clear Hchan Hdist. destruct_world w. subst. unfold delivered. step.
        unfold chan_send, chan_close. simpl.
        rewrite Hm. simpl. rewrite Hc, Hopen, Hbuf. simpl.
        rewrite lookup_insert_eq. simpl. step.
        rewrite insert_insert_eq, <- app_assoc. reflexivity.
      * left. clear Hchan Hdist. destruct_world w. subst. step. rewrite Hm. reflexivity.
    + left. clear Hchan Hdist. destruct_world w. subst. reflexivity.
  - destruct (observers (client w)) as [m|] eqn:Hobs.
    + destruct (m !! ipcResponse.ID response) as [observer|] eqn:Hm.
      * right. left. eexists.
        clear Hchan Hdist. destruct_world w. subst. step. rewrite Hm. reflexivity.
      * left. clear Hchan Hdist. destruct_world w. subst. step. rewrite Hm. reflexivity.
    + left. clear Hchan Hdist. destruct_world w. subst. reflexivity.
  - destruct (listeners (client w)) as [m|] eqn:Hls.
    + destruct (m !! ipcResponse.Event response) as [listener|] eqn:Hm.
      * right. left. eexists.
        clear Hchan Hdist. destruct_world w. subst. step. rewrite Hm. reflexivity.
      * left. clear Hchan Hdist. destruct_world w. subst. step. rewrite Hm. reflexivity.
    + left. clear Hchan Hdist. destruct_world w. subst. reflexivity.
Qed.

(** A caller's channel that no registered request uses is out of the
    dispatcher's reach. *)
Lemma dispatch_spares (response : ipcResponse.t) (w : World) (ch : chan_id) :
  registry_live w ->
  ~ waiting_on w ch ->
  exists w1, dispatch response w = Ok tt w1
    /\ registry_live w1
    /\ ~ waiting_on w1 ch
    /\ chans w1 !! ch = chans w !! ch
    /\ receiver (client w1) = receiver (client w)
    /\ conn (client w1) = conn (client w).
Proof.
  intros Hlive Hfree.
  destruct (dispatch_live response w Hlive) as (w1 & Hrun & Hlive1 & Hwait & _).
  exists w1. split; [exact Hrun|]. split; [exact Hlive1|]. split; [auto|].
  destruct (dispatch_cases response w Hlive)
    as [H|[(g & H)|(m & request & c & Hm & Hid & Hc & H)]];
    rewrite Hrun in H; injection H as ->.
  - auto.
  - destruct w. auto.
  - unfold delivered. destruct_world w. repeat split; auto.
    apply lookup_insert_ne. intros <-. apply Hfree.
    exists m, (ipcResponse.RequestID response), request. auto.
Qed.

Lemma registry_live_client (w w' : World) :
  client w' = client w -> chans w' = chans w -> registry_live w -> registry_live w'.
Proof.
  intros Hc Hch [H1 H2 H3 H4 H5].
  constructor; rewrite ?Hc, ?Hch; auto.
Qed.

Lemma waiting_on_client (w w' : World) (ch : chan_id) :
  client w' = client w -> waiting_on w' ch -> waiting_on w ch.
Proof. intros Hc (m & id & req & H). rewrite Hc in H. exists m, id, req. exact H. Qed.

Lemma read_body_unanswerable (ch : chan_id) (w : World) :
  unanswerable ch w ->
  (remote w = [] /\ read_body w = Blocked w)
  \/ (exists w1, read_body w = Ok Return w1
                 /\ written (conn (client w1)) = written (conn (client w)))
  \/ (exists w1, read_body w = Ok Continue w1
                 /\ unanswerable ch w1
                 /\ written (conn (client w1)) = written (conn (client w))).
Proof.
  intros (Hlive & Hrecv & Hch & Hfree).
  destruct (remote w) as [|[data res] rest] eqn:Hrem.
  { left. split; [reflexivity|]. unfold read_body, bind, ReadBytes. rewrite Hrem. reflexivity. }
  right.
  set (w0 := set_remote rest w).
  assert (Hrb : read_body w
                = match res with
                  | Some err => if is_EOF err then Close;; ret Return
                                else publishError err;; ret Continue
                  | None => match UnmarshalWith data with
                            | inr err => publishError err;; ret Continue
                            | inl response => dispatch response;; ret Continue
                            end
                  end w0).
  { unfold read_body, bind at 1, ReadBytes. rewrite Hrem. reflexivity. }
  rewrite Hrb. clear Hrb.
  assert (Hw0 : client w0 = client w /\ chans w0 = chans w) by (destruct w; auto).
  destruct Hw0 as (Hc0 & Hch0). clearbody w0.
  assert (Hbad : forall err,
            exists w1, (publishError err;; ret Continue) w0 = Ok Continue w1
                       /\ unanswerable ch w1
                       /\ written (conn (client w1)) = written (conn (client w))).
  { intros err. destruct (publishError_ok err w0) as (w1 & Hp & Hc & Hchs & _).
    exists w1. split; [unfold bind; rewrite Hp; reflexivity|].
    split; [|rewrite Hc, Hc0; reflexivity].
    split; [|split; [|split]].
    - eapply registry_live_client; [| |exact Hlive]; congruence.
    - rewrite Hc, Hc0. exact Hrecv.
    - rewrite Hchs, Hch0. exact Hch.
    - intros Hw. apply Hfree. eapply waiting_on_client; [|exact Hw]. congruence. }
  destruct res as [err|].
  - destruct (is_EOF err).
    + left. unfold bind, Close, bind, modify, close_receiver, conn_Close. simpl.
      rewrite Hc0, Hrecv. eexists. split; [reflexivity|]. simpl. rewrite Hc0. reflexivity.
    + right. apply Hbad.
  - destruct (UnmarshalWith data) as [response|err]; [|right; apply Hbad].
    right.
    destruct (dispatch_spares response w0 ch) as (w1 & Hrun & Hlive1 & Hfree1 & Hch1 & Hr1 & Hcn1).
    { eapply registry_live_client; [| |exact Hlive]; congruence. }
    { intros Hw. apply Hfree. eapply waiting_on_client; [|exact Hw]. congruence. }
    exists w1. split; [unfold bind; rewrite Hrun; reflexivity|].
    split; [|rewrite Hcn1, Hc0; reflexivity].
    split; [exact Hlive1|]. split; [rewrite Hr1, Hc0; exact Hrecv|].
    split; [rewrite Hch1, Hch0; exact Hch|exact Hfree1].
Qed.

Lemma await_unanswerable (n : nat) (ch : chan_id) :
  forall w, unanswerable ch w ->
    exists w', await n ch w = Blocked w'
               /\ written (conn (client w')) = written (conn (client w)).
Proof.
  induction n as [|n IH]; intros w Hun.
  - pose proof Hun as (_ & _ & Hch & _).
    simpl. unfold chan_poll. unfold chan_id in *. rewrite Hch. simpl. eauto.
  - pose proof Hun as (_ & _ & Hch & _).
    simpl. unfold chan_poll. unfold chan_id in *. rewrite Hch. simpl.
    destruct (read_body_unanswerable ch w Hun)
      as [(_ & ->)|[(w1 & -> & Hw)|(w1 & -> & Hun1 & Hw)]].
    + eauto.
    + eauto.
    + destruct (IH w1 Hun1) as (w' & Hrun & Hw'). exists w'. split; [exact Hrun|congruence].
Qed.

Lemma requestInternal_unencodable (w : World) (command : option (list any)) (async : bool)
    (err : error) :
  let id := rand_source w (rand_used w) in
  let ch := fresh ({[nil_chan]} ∪ dom (chans w) : gset nat) in
  registry_live w ->
  closed (client w) = false ->
  receiver (client w) = mk_receiver [] false ->
  Marshal (ipcRequest.mk command id async ch) = inr err ->
  exists w', requestInternal command async w = Blocked w'
             /\ written (conn (client w')) = written (conn (client w)).
Proof.
  intros id ch Hlive Hopen Hq HM.
  pose proof (is_fresh ({[nil_chan]} ∪ dom (chans w) : gset nat)) as Hfresh. fold ch in Hfresh.
  assert (Hnew : chans w !! ch = None) by (apply not_elem_of_dom; set_solver).
  clear Hfresh. subst id.
  destruct Hlive as [H1 H2 H3 H4 H5].
  destruct_world w. subst.
  assert (Hch : ch = fresh ({[nil_chan]} ∪ dom chs : gset nat)) by reflexivity.
  clearbody ch.
  assert (Hun : forall tr' : list event,
            unanswerable ch
              (mk_world (mk_client (mk_receiver [] false) cn false reqs false lsn false obs
                                   sink false)
                        (<[ch := mk_rchan [] 0 false]> chs) rnd (S used) rem flt tr')).
  { intros tr'. split; [|split; [|split]]; simpl.
    - constructor; simpl; auto.
      intros m rid req Hm Hid. destruct (H4 m rid req Hm Hid) as (c & Hc & Ho & Hb).
      exists c. rewrite lookup_insert_ne; [auto|]. intros E. unfold chan_id in *. congruence.
    - reflexivity.
    - apply lookup_insert_eq.
    - intros (m & rid & req & Hm & Hid & Hsame). simpl in Hm.
      destruct (H4 m rid req Hm Hid) as (c & Hc & _). unfold chan_id in *. congruence. }
  unfold requestInternal, requestSend, chan_recv, run_writer, write, rand_Int, make_chan,
    send_receiver, gets, bind. simpl. rewrite <- Hch.
  unfold recv_receiver, bind. simpl. unfold write_body. rewrite HM.
  unfold publishError. step.
  destruct sink as [h|]; simpl;
    match goal with
    | |- context [await ?n ch ?W] =>
        destruct (await_unanswerable n ch W (Hun _)) as (w' & -> & Hw')
    end;
    exists w'; (split; [reflexivity|exact Hw']).
Qed.

(** X14.  A request whose command has no JSON encoding never returns,
    whatever the remote process sends: the writer reports the encoding
    error and neither registers nor writes the request, so no frame can be
    matched to it and the caller stays parked on its reply channel. *)
Theorem unencodable_request_never_returns (w : World) (command : list any) (async : bool)
    (err : error) :
  let id := rand_source w (rand_used w) in
  let ch := fresh ({[nil_chan]} ∪ dom (chans w) : gset nat) in
  registry_live w ->
  closed (client w) = false ->
  receiver (client w) = mk_receiver [] false ->
  Marshal (ipcRequest.mk (variadic command) id async ch) = inr err ->
  exists w', (if async then Request command else RequestSync command) w = Blocked w'
             /\ written (conn (client w')) = written (conn (client w)).
Proof.
  intros id ch Hlive Hopen Hq HM.
  destruct (requestInternal_unencodable w (variadic command) async err Hlive Hopen Hq HM)
    as (w' & Hrun & Hw).
  exists w'. split; [|exact Hw].
  destruct async; exact Hrun.
Qed.

Lemma connectInternal_live (onError : option nat) (rand : nat -> Z)
    (remote : list (string * option error)) (faults : list (option error)) :
  registry_live (connectInternal onError rand remote faults).
Proof. constructor; try reflexivity; discriminate. Qed.

Lemma unencodable_request_never_returns_witness :
  exists w',
    Request [Str "script-message"; Func 0]
      (connectInternal None (fun _ => 42)
         [line "{'error':'success','data':50,'request_id':42}"] [])
    = Blocked w'
    /\ written (conn (client w')) = [].
Proof.
  destruct (unencodable_request_never_returns
              (connectInternal None (fun _ => 42)
                 [line "{'error':'success','data':50,'request_id':42}"] [])
              [Str "script-message"; Func 0] true json_UnsupportedTypeError
              (connectInternal_live _ _ _ _) eq_refl eq_refl eq_refl)
    as (w' & Hrun & Hw).
  exists w'. split; [exact Hrun | exact Hw].
Defined.

(** ** Socket paths and colliding ids *)

Lemma append_inv_head (p s t : string) : p +:+ s = p +:+ t -> s = t.
Proof. induction p as [|c p IH]; simpl; [auto|]. intros [= H]. auto. Qed.

(** X16.  [generatePath] never fails on Windows and returns the pipe
    prefix followed by the decimal random number; on Unix it fails exactly
    with the error of [os.MkdirAll], returning the empty path, and
    otherwise returns the socket directory followed by the decimal random
    number.  Different random numbers give different paths. *)
Theorem generatePath_distinct (TempDir : string) (MkdirAll : string -> option error)
    (a b : N) :
  (generatePath_windows a = generatePath_windows b -> a = b)
  /\ snd (generatePath_windows a) = None
  /\ (MkdirAll (TempDir +:+ "/mpvsockets/") = None ->
      snd (generatePath_unix TempDir MkdirAll a) = None
      /\ (fst (generatePath_unix TempDir MkdirAll a)
          = fst (generatePath_unix TempDir MkdirAll b) -> a = b))
  /\ (forall err, MkdirAll (TempDir +:+ "/mpvsockets/") = Some err ->
        generatePath_unix TempDir MkdirAll a = ("", Some err)).
Proof.
  split; [|split; [reflexivity|split]].
  - unfold generatePath_windows. intros [= H]. apply append_inv_head in H.
    apply (inj pretty) in H. exact H.
  - intros Hok. unfold generatePath_unix. rewrite Hok. simpl. split; [reflexivity|].
    intros H. apply append_inv_head in H. apply (inj pretty) in H. exact H.
  - intros err Herr. unfold generatePath_unix. rewrite Herr. reflexivity.
Qed.

Lemma generatePath_distinct_witness :
  generatePath_unix "/tmp" (fun _ => None) 7 = ("/tmp/mpvsockets/7", None)
  /\ generatePath_windows 7 <> generatePath_windows 8.
Proof.
  split; [vm_compute; reflexivity|].
  intros H.
  pose proof (proj1 (generatePath_distinct "/tmp" (fun _ => None) 7 8) H) as E.
  discriminate E.
Defined.

Example generatePath_windows_example :
  generatePath_windows 1234 = ("\\.\pipe\1234", None).
Proof. vm_compute. reflexivity. Qed.

(** What the writer has registered when the request has an encoding. *)
Lemma write_body_effect_registry (req : ipcRequest.t) (w : World) (body : string) :
  requestMu (client w) = false ->
  Marshal req = inl body ->
  exists w', write_body req w = Ok tt w'
    /\ requestMu (client w') = false
    /\ chans w' = chans w
    /\ requests (client w')
       = Some (<[ipcRequest.RequestID req := req]> (default ∅ (requests (client w)))).
Proof.
  intros Hmu HM. destruct_world w. subst.
  unfold write_body, publishError, conn_Write. rewrite HM. step.
  destruct reqs; destruct cn as [wr [|]]; destruct sink;
    destruct flt as [|[e|] [|[e2|] fl2]]; simpl;
    eexists; (split; [reflexivity|]); simpl; auto.
Qed.

(** X15.  Two requests with the same id: writing the second replaces the
    first in the registry, and the reply goes to the second one's channel;
    the first caller's channel is left as it was and nothing is registered
    under the id any more. *)
Theorem id_collision_strands_first (w : World) (m : gmap Z ipcRequest.t)
    (old new : ipcRequest.t) (c_old c_new : rchan) (body : string)
    (response : ipcResponse.t) :
  requestMu (client w) = false ->
  requests (client w) = Some m ->
  m !! ipcRequest.RequestID old = Some old ->
  ipcRequest.RequestID new = ipcRequest.RequestID old ->
  ipcRequest.responseChan new <> ipcRequest.responseChan old ->
  chans w !! ipcRequest.responseChan old = Some c_old ->
  chans w !! ipcRequest.responseChan new = Some c_new ->
  chan_closed c_new = false -> buf c_new = [] ->
  Marshal new = inl body ->
  ipcResponse.Event response = "" ->
  ipcResponse.RequestID response = ipcRequest.RequestID old ->
  exists w',
    (write_body new;; dispatch response) w = Ok tt w'
    /\ chans w' !! ipcRequest.responseChan new = Some (mk_rchan [response] (cap c_new) true)
    /\ chans w' !! ipcRequest.responseChan old = Some c_old
    /\ requests (client w') = Some (delete (ipcRequest.RequestID old) m).
Proof.
  intros Hmu Hreq Hold Hsame Hch Hco Hcn Hopen Hbuf HM Hev Hid.
  destruct (write_body_effect_registry new w body Hmu HM) as (w1 & Hb & Hmu1 & Hc1 & Hr1).
  rewrite Hreq in Hr1. simpl in Hr1.
  assert (Hd : dispatch response w1 = Ok tt (delivered response new c_new w1)).
  { apply (dispatch_delivers w1 response (<[ipcRequest.RequestID new:=new]> m) new c_new);
      auto.
    - rewrite Hid, <- Hsame. apply lookup_insert_eq.
    - rewrite Hc1. exact Hcn. }
  exists (delivered response new c_new w1).
  split; [unfold bind; rewrite Hb; exact Hd|].
  clear Hb Hd. unfold delivered. destruct_world w1. subst.
  split; [apply lookup_insert_eq|].
  split; [rewrite lookup_insert_ne by exact Hch; exact Hco|].
  simpl. rewrite Hid, Hsame, delete_insert_eq. reflexivity.
Qed.

Lemma id_collision_strands_first_witness :
  exists w',
    (write_body request_7_again;; dispatch (reply_to 7 (Float64 50))) collision_world
    = Ok tt w'
    /\ chans w' !! 2%nat = Some (mk_rchan [reply_to 7 (Float64 50)] 0 true)
    /\ chans w' !! 1%nat = Some (mk_rchan [] 0 false).
Proof.
  destruct (id_collision_strands_first collision_world {[ 7 := request_7 ]}
              request_7 request_7_again (mk_rchan [] 0 false) (mk_rchan [] 0 false)
              (wire "{'command':['get_property','volume'],'request_id':7,'async':true}")
              (reply_to 7 (Float64 50)))
    as (w' & Hrun & Hnew & Hold & _); try reflexivity; try discriminate.
  exists w'. split; [exact Hrun|]. split; [exact Hnew | exact Hold].
Defined.

(** ** Registering again *)

Lemma RegisterListener_again_witness :
  RegisterListener "seek" 5 (listening_world [])
  = Ok None (set_client (set_listeners (Some (<[ "seek" := 5%nat ]> {[ "seek" := 1%nat ]})))
               (listening_world [])).
Proof.
  exact (RegisterListener_again (listening_world []) "seek" 5 1 {[ "seek" := 1%nat ]}
           eq_refl eq_refl eq_refl).
Defined.

(** ** The codec on plain requests *)

Lemma append_assoc' (a b c : string) : (a +:+ b) +:+ c = a +:+ (b +:+ c).
Proof.
  induction a as [|x a IH]; [reflexivity|].
  change (String x ((a +:+ b) +:+ c) = String x (a +:+ b +:+ c)). rewrite IH. reflexivity.
Qed.

(** A byte that [escape_byte] wrote is read back by [scan_string]. *)
Lemma scan_escape_byte (c : ascii) (t : string) :
  scan_string (escape_byte c +:+ t)
  = match scan_string t with
    | Some (u, r) => Some (String c u, r)
    | None => None
    end.
Proof.
  destruct c as [[] [] [] [] [] [] [] []]; reflexivity.
Qed.

Lemma scan_escape (s rest : string) :
  scan_string (escape s +:+ String dquote rest) = Some (s, rest).
Proof.
  induction s as [|c s IH]; simpl.
  - reflexivity.
  - rewrite append_assoc', scan_escape_byte, IH. reflexivity.
Qed.

Lemma append_nil_r (a : string) : a +:+ "" = a.
Proof.
  induction a as [|x a IH]; [reflexivity|].
  change (String x (a +:+ "") = String x a). rewrite IH. reflexivity.
Qed.

Lemma append_length (a b : string) :
  String.length (a +:+ b) = (String.length a + String.length b)%nat.
Proof.
  induction a as [|x a IH]; [reflexivity|].
  change (S (String.length (a +:+ b)) = S (String.length a + String.length b)).
  rewrite IH. reflexivity.
Qed.

Lemma digits_value_app (d : string) (c : ascii) :
  forall acc, digits_value acc (d +:+ chr c) = digits_value acc d * 10 + Z.of_N (code c - 48).
Proof.
  induction d as [|x d IH]; intros acc; [reflexivity|].
  change (digits_value (acc * 10 + Z.of_N (code x - 48)) (d +:+ chr c)
          = digits_value (acc * 10 + Z.of_N (code x - 48)) d * 10 + Z.of_N (code c - 48)).
  apply IH.
Qed.

Lemma all_digits_app (d : string) (c : ascii) :
  all_digits (d +:+ chr c) = all_digits d && is_digit c.
Proof.
  induction d as [|x d IH].
  - simpl. change (chr c) with (String c ""). simpl. rewrite andb_true_r. reflexivity.
  - change (is_digit x && all_digits (d +:+ chr c) = is_digit x && all_digits d && is_digit c).
    rewrite IH, andb_assoc. reflexivity.
Qed.

Lemma pretty_N_char_digit (k : N) :
  (k < 10)%N -> is_digit (pretty_N_char k) = true /\ (code (pretty_N_char k) - 48 = k)%N.
Proof.
  intros Hk.
  assert (H : (k = 0 \/ k = 1 \/ k = 2 \/ k = 3 \/ k = 4 \/ k = 5 \/ k = 6 \/ k = 7
              \/ k = 8 \/ k = 9)%N) by lia.
  repeat (destruct H as [->|H]; [split; reflexivity|]). subst. split; reflexivity.
Qed.

(** The digits that [pretty] writes for a number: what they are worth and
    how they begin. *)
Lemma pretty_N_go_digits (x : N) :
  forall s, exists d,
    pretty_N_go x s = d +:+ s
    /\ all_digits d = true
    /\ (forall acc, digits_value acc d
                    = acc * 10 ^ Z.of_nat (String.length d) + Z.of_N x)
    /\ ((0 < x)%N -> exists c d', d = String c d' /\ c <> "0"%char).
Proof.
  induction (N.lt_wf_0 x) as [x _ IH]. intros s.
  destruct (N.eq_dec x 0%N) as [->|Hx].
  - exists "". rewrite pretty_N_go_0. repeat split; auto.
    + intros acc. simpl. lia.
    + lia.
  - rewrite pretty_N_go_step by lia.
    destruct (IH (x / 10)%N ltac:(apply N.div_lt; lia) (String (pretty_N_char (x mod 10)) s))
      as (d' & Hgo & Hall & Hval & Hfirst).
    destruct (pretty_N_char_digit (x mod 10)) as (Hdig & Hcode);
      [apply N.mod_lt; lia|].
    exists (d' +:+ chr (pretty_N_char (x mod 10))).
    split; [rewrite Hgo, append_assoc'; reflexivity|].
    split; [rewrite all_digits_app, Hall, Hdig; reflexivity|].
    split.
    + intros acc. rewrite digits_value_app, Hval, Hcode, append_length. simpl String.length.
      rewrite Nat2Z.inj_add, Z.pow_add_r by lia.
      change (Z.of_nat 1) with 1. rewrite Z.pow_1_r.
      pose proof (N.div_mod x 10%N ltac:(lia)) as E.
      apply (f_equal Z.of_N) in E. rewrite N2Z.inj_add, N2Z.inj_mul in E.
      change (Z.of_N 10) with 10 in E. lia.
    + intros _. destruct (N.eq_dec (x / 10)%N 0%N) as [Hz|Hnz].
      * rewrite Hz, pretty_N_go_0 in Hgo.
        assert (d' = "") as ->.
        { destruct d' as [|y d'']; [reflexivity|].
          apply (f_equal String.length) in Hgo. rewrite append_length in Hgo.
          simpl in Hgo. lia. }
        exists (pretty_N_char (x mod 10)), "". split; [reflexivity|].
        assert (Hsmall : (x < 10)%N) by (apply N.div_small_iff in Hz; lia).
        rewrite (N.mod_small x 10 Hsmall).
        intros E. destruct (pretty_N_char_digit x Hsmall) as (_ & Hc).
        rewrite E in Hc. change (code "0" - 48)%N with 0%N in Hc. lia.
      * destruct (Hfirst (proj1 (N.neq_0_lt_0 _) Hnz)) as (c & d'' & -> & Hc).
        exists c, (d'' +:+ chr (pretty_N_char (x mod 10))). split; [reflexivity|exact Hc].
Qed.

Lemma scan_digits_app (d : string) (t : ascii) (rest : string) :
  all_digits d = true -> is_digit t = false ->
  scan_digits (d +:+ String t rest) = (d, String t rest).
Proof.
  intros Hd Ht. induction d as [|c d IH].
  - simpl. rewrite Ht. reflexivity.
  - simpl in Hd. apply andb_prop in Hd as [Hc Hd].
    change (scan_digits (String c (d +:+ String t rest)) = (String c d, String t rest)).
    simpl. rewrite Hc, (IH Hd). reflexivity.
Qed.

Lemma pretty_Z_digits (n : Z) :
  exists c0 d',
    all_digits (String c0 d') = true
    /\ (c0 = "0"%char -> d' = "")
    /\ digits_value 0 (String c0 d') = Z.abs n
    /\ pretty n = (if (n <? 0)%Z then "-" else "") +:+ String c0 d'.
Proof.
  assert (Hpos : forall p : positive,
            exists c0 d',
              all_digits (String c0 d') = true
              /\ (c0 = "0"%char -> d' = "")
              /\ digits_value 0 (String c0 d') = Z.pos p
              /\ pretty (N.pos p) = String c0 d').
  { intros p. destruct (pretty_N_go_digits (N.pos p) "") as (d & Hgo & Hall & Hval & Hfirst).
    destruct (Hfirst ltac:(lia)) as (c0 & d' & -> & Hc).
    exists c0, d'. split; [exact Hall|]. split; [intros E; contradiction|].
    split; [rewrite Hval; simpl; lia|].
    unfold pretty, pretty_N. simpl. rewrite Hgo, append_nil_r. reflexivity. }
  destruct n as [|p|p].
  - exists "0"%char, "". repeat split; auto.
  - destruct (Hpos p) as (c0 & d' & H1 & H2 & H3 & H4).
    exists c0, d'. repeat split; auto.
  - destruct (Hpos p) as (c0 & d' & H1 & H2 & H3 & H4).
    exists c0, d'. repeat split; auto.
    unfold pretty, pretty_Z. unfold pretty, pretty_positive. rewrite H4. reflexivity.
Qed.

(** A number that [pretty] wrote is read back. *)

(** An integer literal is read back as its value. *)
Lemma scan_number_digits (neg : bool) (c0 : ascii) (d' : string) (t : ascii) (rest : string) :
  all_digits (String c0 d') = true ->
  (c0 = "0"%char -> d' = "") ->
  terminator t ->
  scan_number ((if neg then "-" else "") +:+ String c0 d' +:+ String t rest)
  = Some (Float64 (if neg then - digits_value 0 (String c0 d')
                   else digits_value 0 (String c0 d')), String t rest).
Proof.
  intros Hd Hlead Ht.
  assert (Hscan : scan_digits (String c0 d' +:+ String t rest)
                  = (String c0 d', String t rest)).
  { apply scan_digits_app; [exact Hd|]. destruct Ht as [ -> | [ -> | -> ] ]; reflexivity. }
  assert (Hz : Ascii.eqb c0 "0" && negb (String.eqb d' "") = false).
  { destruct (Ascii.eqb_spec c0 "0") as [E|E]; [|reflexivity].
    rewrite (Hlead E). reflexivity. }
  pose proof Hd as Hc0. simpl in Hc0. apply andb_prop in Hc0 as [Hc0 _].
  destruct neg.
  - change ("-" +:+ String c0 d' +:+ String t rest)
      with (String "-" (String c0 d' +:+ String t rest)).
    unfold scan_number. cbv beta iota. rewrite Hscan. cbv beta iota. rewrite Hz.
    destruct Ht as [ -> | [ -> | -> ] ]; reflexivity.
  - change ("" +:+ String c0 d' +:+ String t rest)
      with (String c0 (d' +:+ String t rest)).
    clear Hd Hlead.
    destruct c0 as [[] [] [] [] [] [] [] []]; try discriminate Hc0;
      unfold scan_number; cbv beta iota;
      match goal with
      | |- context [scan_digits (String ?c (d' +:+ ?r))] =>
          change (String c (d' +:+ r)) with (String c d' +:+ r)
      end;
      rewrite Hscan; cbv beta iota; rewrite Hz;
      destruct Ht as [ -> | [ -> | -> ] ]; reflexivity.
Qed.

(** A number that [pretty] wrote is read back. *)
Lemma scan_number_pretty (n : Z) (t : ascii) (rest : string) :
  terminator t ->
  scan_number (pretty n +:+ String t rest) = Some (Float64 n, String t rest)
  /\ exists c s, pretty n = String c s /\ (is_digit c = true \/ c = "-"%char).
Proof.
  intros Ht. destruct (pretty_Z_digits n) as (c0 & d' & Hall & Hlead & Hval & Hp).
  rewrite Hp. pose proof Hall as Hall'. simpl in Hall'. apply andb_prop in Hall' as [Hc0 _].
  split.
  - pose proof (scan_number_digits (n <? 0)%Z c0 d' t rest Hall Hlead Ht) as H.
    rewrite append_assoc'. rewrite H, Hval. repeat f_equal.
    destruct (n <? 0)%Z eqn:Hneg; [apply Z.ltb_lt in Hneg|apply Z.ltb_ge in Hneg]; lia.
  - destruct (n <? 0)%Z.
    + exists "-"%char, (String c0 d'). split; [reflexivity|right; reflexivity].
    + exists c0, d'. split; [reflexivity|left; exact Hc0].
Qed.

Lemma any_ind_nested (P : any -> Prop) :
  P Nil -> (forall b, P (Bool b)) -> (forall n, P (Int n)) -> (forall n, P (Float64 n)) ->
  (forall lit, P (Number lit)) -> (forall s, P (Str s)) ->
  (forall l, Forall P l -> P (Slice l)) ->
  (forall kvs, P (Map kvs)) -> (forall h, P (Func h)) ->
  forall v, P v.
Proof.
  intros HNil HBool HInt HFloat HNumber HStr HSlice HMap HFunc.
  fix IH 1. intros [ |b|n|n|lit|s|l|kvs|h];
    [exact HNil|apply HBool|apply HInt|apply HFloat|apply HNumber|apply HStr| |apply HMap|apply HFunc].
  apply HSlice. induction l as [|v l IHl]; constructor; [apply IH|exact IHl].
Qed.

Lemma parse_value_S (fuel : nat) (c : ascii) (X : string) :
  is_space c = false ->
  parse_value (S fuel) (String c X)
  = if Ascii.eqb c dquote then
      match scan_string X with
      | Some (t, r) => Some (Str t, r)
      | None => None
      end
    else if Ascii.eqb c "[" then
      match skip_space X with
      | String "]" r => Some (Slice [], r)
      | _ => match parse_elements fuel X with
             | Some (l, r) => Some (Slice l, r)
             | None => None
             end
      end
    else if Ascii.eqb c "{" then
      match skip_space X with
      | String "}" r => Some (Map [], r)
      | _ => match parse_members fuel X with
             | Some (l, r) => Some (Map l, r)
             | None => None
             end
      end
    else if Ascii.eqb c "t" then
      match strip_prefix "rue" X with Some r => Some (Bool true, r) | None => None end
    else if Ascii.eqb c "f" then
      match strip_prefix "alse" X with Some r => Some (Bool false, r) | None => None end
    else if Ascii.eqb c "n" then
      match strip_prefix "ull" X with Some r => Some (Nil, r) | None => None end
    else scan_number (String c X).
Proof.
  intros Hc. change (parse_value (S fuel) (String c X))
    with (let s := skip_space (String c X) in
          match s with
          | EmptyString => None
          | String c rest =>
              if Ascii.eqb c dquote then
                match scan_string rest with
                | Some (t, r) => Some (Str t, r)
                | None => None
                end
              else if Ascii.eqb c "[" then
                match skip_space rest with
                | String "]" r => Some (Slice [], r)
                | _ => match parse_elements fuel rest with
                       | Some (l, r) => Some (Slice l, r)
                       | None => None
                       end
                end
              else if Ascii.eqb c "{" then
                match skip_space rest with
                | String "}" r => Some (Map [], r)
                | _ => match parse_members fuel rest with
                       | Some (l, r) => Some (Map l, r)
                       | None => None
                       end
                end
              else if Ascii.eqb c "t" then
                match strip_prefix "rue" rest with Some r => Some (Bool true, r) | None => None end
              else if Ascii.eqb c "f" then
                match strip_prefix "alse" rest with Some r => Some (Bool false, r) | None => None end
              else if Ascii.eqb c "n" then
                match strip_prefix "ull" rest with Some r => Some (Nil, r) | None => None end
              else scan_number s
          end).
  cbv zeta. simpl skip_space. rewrite Hc. reflexivity.
Qed.

Lemma parse_elements_S (fuel : nat) (s : string) :
  parse_elements (S fuel) s
  = match parse_value fuel s with
    | Some (v, r) =>
        match skip_space r with
        | String "," r' =>
            match parse_elements fuel r' with
            | Some (l, r'') => Some (v :: l, r'')
            | None => None
            end
        | String "]" r' => Some ([v], r')
        | _ => None
        end
    | None => None
    end.
Proof. reflexivity. Qed.

Lemma starts_value_not_space (c : ascii) : starts_value c = true -> is_space c = false.
Proof. destruct c as [[] [] [] [] [] [] [] []]; intros H; try discriminate H; reflexivity. Qed.

Lemma parse_value_number (fuel : nat) (c : ascii) (X : string) :
  is_digit c = true \/ c = "-"%char ->
  parse_value (S fuel) (String c X) = scan_number (String c X).
Proof.
  intros H.
  assert (Hs : is_space c = false).
  { apply starts_value_not_space. unfold starts_value.
    destruct H as [->| ->]; reflexivity. }
  rewrite parse_value_S by exact Hs.
  destruct H as [H| ->]; [|reflexivity].
  destruct c as [[] [] [] [] [] [] [] []]; try discriminate H; reflexivity.
Qed.

(** After an opening bracket that a value follows, the elements are read. *)
Lemma parse_value_open (fuel : nat) (c : ascii) (X : string) :
  starts_value c = true ->
  parse_value (S fuel) (String "[" (String c X))
  = match parse_elements fuel (String c X) with
    | Some (l, r) => Some (Slice l, r)
    | None => None
    end.
Proof.
  intros H. rewrite parse_value_S by reflexivity.
  destruct c as [[] [] [] [] [] [] [] []]; try discriminate H; reflexivity.
Qed.

Lemma skip_space_terminator (t : ascii) (rest : string) :
  terminator t -> skip_space (String t rest) = String t rest.
Proof. intros [ -> | [ -> | -> ] ]; reflexivity. Qed.

Lemma round_trips_elements (l : list any) :
  Forall (fun v => plain v = true -> round_trips v) l ->
  forallb plain l = true ->
  l <> [] ->
  exists parts c J,
    all_some (map marshal_any l) = Some parts
    /\ all_some (map marshal_any (map decoded l)) = Some parts
    /\ join "," parts = String c J
    /\ starts_value c = true
    /\ (list_sum (map (fun v => S (weight v)) l) <= S (String.length (String c J)))%nat
    /\ forall fuel rest, (list_sum (map (fun v => S (weight v)) l) <= fuel)%nat ->
         parse_elements fuel (String c J +:+ String "]" rest) = Some (map decoded l, rest).
Proof.
  induction 1 as [|v l Hv Hl IH]; intros Hplain Hne; [contradiction|].
  simpl in Hplain. apply andb_prop in Hplain as [Hpv Hpl].
  destruct (Hv Hpv) as (c & e & Hm & Hmd & Hc & Hw & Hparse).
  destruct l as [|v' l'].
  - exists [String c e], c, e. simpl. rewrite Hm, Hmd.
    repeat split; auto.
    + simpl in Hw. lia.
    + intros fuel rest Hfuel. destruct fuel as [|fuel]; [lia|].
      rewrite parse_elements_S, Hparse; [reflexivity|lia|right; left; reflexivity].
  - destruct (IH Hpl ltac:(discriminate)) as (parts & c' & J & Hall & Halld & Hj & Hc' & Hlen & Hpe).
    exists (String c e :: parts), c, (e +:+ "," +:+ String c' J).
    change (map marshal_any (v :: v' :: l')) with (marshal_any v :: map marshal_any (v' :: l')).
    change (map decoded (v :: v' :: l')) with (decoded v :: map decoded (v' :: l')).
    change (map marshal_any (decoded v :: map decoded (v' :: l')))
      with (marshal_any (decoded v) :: map marshal_any (map decoded (v' :: l'))).
    change (map (fun v => S (weight v)) (v :: v' :: l'))
      with (S (weight v) :: map (fun v => S (weight v)) (v' :: l')).
    cbn [all_some list_sum fold_right]. rewrite Hm, Hmd, Hall, Halld.
    split; [reflexivity|]. split; [reflexivity|].
    assert (Hparts : exists p ps, parts = p :: ps).
    { destruct parts as [|p ps]; [|eauto].
      simpl in Hall. destruct (marshal_any v'); [|discriminate].
      destruct (all_some (map marshal_any l')); discriminate. }
    destruct Hparts as (p & ps & ->).
    split.
    { change (join "," (String c e :: p :: ps))
        with (String c e +:+ "," +:+ join "," (p :: ps)).
      rewrite Hj. reflexivity. }
    split; [exact Hc|]. split.
    { change (String c (e +:+ "," +:+ String c' J))
        with (String c e +:+ String "," (String c' J)).
      rewrite append_length. simpl String.length in *. unfold list_sum in *. lia. }
    intros fuel rest Hfuel. unfold list_sum in *. destruct fuel as [|fuel]; [lia|].
    rewrite parse_elements_S.
    change (String c (e +:+ "," +:+ String c' J) +:+ String "]" rest)
      with (String c ((e +:+ String "," (String c' J)) +:+ String "]" rest)).
    rewrite append_assoc'.
    change (String c (e +:+ String "," (String c' J) +:+ String "]" rest))
      with (String c e +:+ String "," (String c' J +:+ String "]" rest)).
    rewrite Hparse; [|lia|left; reflexivity].
    change (skip_space (String "," (String c' J +:+ String "]" rest)))
      with (String "," (String c' J +:+ String "]" rest)).
    cbv beta iota. rewrite Hpe by lia. reflexivity.
Qed.

Lemma plain_round_trips (v : any) : plain v = true -> round_trips v.
Proof.
  induction v as [ |b|n|n|lit|s|l IH|kvs|h] using any_ind_nested; intros Hp;
    try discriminate Hp.
  - exists "n"%char, "ull". repeat split; auto; try (simpl; lia).
    intros [|fuel] t rest Hf Ht; [simpl in Hf; lia|reflexivity].
  - destruct b.
    + exists "t"%char, "rue". repeat split; auto; try (simpl; lia).
      intros [|fuel] t rest Hf Ht; [simpl in Hf; lia|reflexivity].
    + exists "f"%char, "alse". repeat split; auto; try (simpl; lia).
      intros [|fuel] t rest Hf Ht; [simpl in Hf; lia|reflexivity].
  - destruct (scan_number_pretty n ","%char "" ltac:(left; reflexivity))
      as (_ & c & e & He & Hc).
    exists c, e. simpl. rewrite He. repeat split; auto.
    + unfold starts_value. destruct Hc as [->| ->]; reflexivity.
    + simpl. lia.
    + intros [|fuel] t rest Hf Ht; [lia|].
      change (String c e +:+ String t rest) with (String c (e +:+ String t rest)).
      rewrite parse_value_number by exact Hc.
      change (String c (e +:+ String t rest)) with (String c e +:+ String t rest).
      rewrite <- He. apply scan_number_pretty. exact Ht.
  - destruct (scan_number_pretty n ","%char "" ltac:(left; reflexivity))
      as (_ & c & e & He & Hc).
    exists c, e. simpl. rewrite He. repeat split; auto.
    + unfold starts_value. destruct Hc as [->| ->]; reflexivity.
    + simpl. lia.
    + intros [|fuel] t rest Hf Ht; [lia|].
      change (String c e +:+ String t rest) with (String c (e +:+ String t rest)).
      rewrite parse_value_number by exact Hc.
      change (String c (e +:+ String t rest)) with (String c e +:+ String t rest).
      rewrite <- He. apply scan_number_pretty. exact Ht.
  - exists dquote, (escape s +:+ chr dquote). repeat split; auto; try (simpl; lia).
    intros [|fuel] t rest Hf Ht; [simpl in Hf; lia|].
    { change (String dquote (escape s +:+ chr dquote) +:+ String t rest)
        with (String dquote ((escape s +:+ chr dquote) +:+ String t rest)).
      rewrite parse_value_S by reflexivity.
      change (Ascii.eqb dquote dquote) with true. cbv iota.
      rewrite append_assoc'.
      change (chr dquote +:+ String t rest) with (String dquote (String t rest)).
      rewrite scan_escape. reflexivity. }
  - destruct l as [|v0 l0].
    + exists "["%char, "]". repeat split; auto; try (simpl; lia).
      intros [|fuel] t rest Hf Ht; [simpl in Hf; lia|reflexivity].
    + simpl in Hp.
      destruct (round_trips_elements (v0 :: l0) IH Hp ltac:(discriminate))
        as (parts & c & J & Hall & Halld & Hj & Hc & Hlen & Hpe).
      exists "["%char, (String c J +:+ "]").
      change (marshal_any (Slice (v0 :: l0)))
        with (match all_some (map marshal_any (v0 :: l0)) with
              | Some parts => Some ("[" +:+ join "," parts +:+ "]")
              | None => None
              end).
      change (marshal_any (decoded (Slice (v0 :: l0))))
        with (match all_some (map marshal_any (map decoded (v0 :: l0))) with
              | Some parts => Some ("[" +:+ join "," parts +:+ "]")
              | None => None
              end).
      rewrite Hall, Halld, Hj.
      split; [reflexivity|]. split; [reflexivity|]. split; [reflexivity|].
      split.
      { change (weight (Slice (v0 :: l0)))
          with (S (list_sum (map (fun v => S (weight v)) (v0 :: l0)))).
        change (String "[" (String c J +:+ "]")) with ("[" +:+ (String c J +:+ "]")).
        rewrite !append_length. simpl String.length in *. lia. }
      intros fuel t rest Hf Ht.
      change (weight (Slice (v0 :: l0)))
        with (S (list_sum (map (fun v => S (weight v)) (v0 :: l0)))) in Hf.
      destruct fuel as [|fuel]; [lia|].
      change (String "[" (String c J +:+ "]") +:+ String t rest)
        with (String "[" (String c ((J +:+ "]") +:+ String t rest))).
      rewrite parse_value_open by exact Hc.
      rewrite append_assoc'.
      change (String c (J +:+ "]" +:+ String t rest))
        with (String c J +:+ String "]" (String t rest)).
      rewrite Hpe by lia. reflexivity.
Qed.

Lemma parse_members_S (fuel : nat) (s : string) :
  parse_members (S fuel) s
  = match skip_space s with
    | String c rest =>
        if Ascii.eqb c dquote then
          match scan_string rest with
          | Some (k, r) =>
              match skip_space r with
              | String ":" r1 =>
                  match parse_value fuel r1 with
                  | Some (v, r2) =>
                      match skip_space r2 with
                      | String "," r3 =>
                          match parse_members fuel r3 with
                          | Some (l, r4) => Some ((k, v) :: l, r4)
                          | None => None
                          end
                      | String "}" r3 => Some ([(k, v)], r3)
                      | _ => None
                      end
                  | None => None
                  end
              | _ => None
              end
          | None => None
          end
        else None
    | EmptyString => None
    end.
Proof. reflexivity. Qed.

Lemma parse_request_text (f : nat) (command : string) (cv : any) (w : nat)
    (id : Z) (async : bool) :
  (forall fuel t rest, (w <= fuel)%nat -> terminator t ->
     parse_value fuel (command +:+ String t rest) = Some (cv, String t rest)) ->
  (w <= S (S (S f)))%nat ->
  parse_value (S (S (S (S (S f))))) (request_text command id async)
  = Some (Map [("command", cv); ("request_id", Float64 id); ("async", Bool async)], "").
Proof.
  intros Hcmd Hw.
  destruct (scan_number_pretty id ","%char "" ltac:(left; reflexivity))
    as (_ & c & e & He & Hc).
  change (request_text command id async)
    with (String "{" (wire "'command':" +:+ command
                      +:+ String "," (wire "'request_id':" +:+ pretty id
                      +:+ String "," (wire "'async':"
                      +:+ (if async then "true" else "false") +:+ "}")))).
  rewrite parse_value_S by reflexivity.
  change (Ascii.eqb "{" dquote) with false.
  change (Ascii.eqb "{" "[") with false.
  change (Ascii.eqb "{" "{") with true.
  cbv iota.
  change (skip_space (wire "'command':" +:+ ?X)) with (wire "'command':" +:+ X).
  change (wire "'command':" +:+ ?X)
    with (String dquote ("command" +:+ String dquote (String ":" X))).
  cbv iota.
  change (String dquote ("command" +:+ String dquote (String ":" ?X)))
    with (wire "'command':" +:+ X).
  rewrite parse_members_S.
  change (skip_space (wire "'command':" +:+ ?X)) with (wire "'command':" +:+ X).
  change (wire "'command':" +:+ ?X)
    with (String dquote ("command" +:+ String dquote (String ":" X))).
  cbv iota.
  change (Ascii.eqb dquote dquote) with true. cbv iota.
  change (scan_string ("command" +:+ String dquote (String ":" ?X)))
    with (Some ("command", String ":" X)).
  cbv iota beta.
  change (skip_space (String ":" ?X)) with (String ":" X).
  cbv iota.
  rewrite Hcmd; [|lia|left; reflexivity].
  cbv iota beta.
  change (skip_space (String "," ?X)) with (String "," X).
  cbv iota.
  rewrite parse_members_S.
  change (skip_space (wire "'request_id':" +:+ ?X))
    with (String dquote ("request_id" +:+ String dquote (String ":" X))).
  cbv iota.
  change (Ascii.eqb dquote dquote) with true. cbv iota.
  change (scan_string ("request_id" +:+ String dquote (String ":" ?X)))
    with (Some ("request_id", String ":" X)).
  cbv iota beta.
  change (skip_space (String ":" ?X)) with (String ":" X).
  cbv iota.
  rewrite He.
  change (String c e +:+ ?X) with (String c (e +:+ X)).
  rewrite parse_value_number by exact Hc.
  change (String c (e +:+ ?X)) with (String c e +:+ X).
  rewrite <- He.
  rewrite (proj1 (scan_number_pretty id ","%char _ ltac:(left; reflexivity))).
  cbv iota beta.
  change (skip_space (String "," ?X)) with (String "," X).
  cbv iota.
  destruct async; reflexivity.
Qed.

Lemma request_text_length (command : string) (id : Z) (async : bool) :
  (String.length command + 11 <= String.length (request_text command id async))%nat.
Proof.
  unfold request_text. rewrite append_length, append_length.
  change (String.length (wire "{'command':")) with 11%nat. lia.
Qed.

Lemma decode_request_text (command : string) (cv : any) (w : nat) (id : Z) (async : bool) :
  (forall fuel t rest, (w <= fuel)%nat -> terminator t ->
     parse_value fuel (command +:+ String t rest) = Some (cv, String t rest)) ->
  (w <= String.length command)%nat ->
  decode_json (request_text command id async)
  = Some (Map [("command", cv); ("request_id", Float64 id); ("async", Bool async)]).
Proof.
  intros Hcmd Hw. unfold decode_json.
  pose proof (request_text_length command id async) as Hlen.
  replace (2 * String.length (request_text command id async) + 2)%nat
    with (S (S (S (S (S (2 * String.length (request_text command id async) - 3))))))
    by lia.
  rewrite (parse_request_text _ command cv w id async Hcmd) by lia.
  reflexivity.
Qed.

Lemma Marshal_text (command : option (list any)) (id : Z) (async : bool) (ch : chan_id)
    (text : string) :
  match command with None => Some "null" | Some l => marshal_any (Slice l) end = Some text ->
  Marshal (ipcRequest.mk command id async ch) = inl (request_text text id async).
Proof.
  intros H. unfold Marshal.
  cbn [ipcRequest.Command ipcRequest.RequestID ipcRequest.Async].
  rewrite H. reflexivity.
Qed.

(** A plain command and what decoding makes of it have one encoding, and
    the decoder reads that encoding back. *)
Lemma plain_command_codec (command : option (list any)) :
  plain_command command = true ->
  exists text cv w,
    match command with None => Some "null" | Some l => marshal_any (Slice l) end = Some text
    /\ match option_map (map decoded) command with
       | None => Some "null"
       | Some l => marshal_any (Slice l)
       end = Some text
    /\ as_slice "command" cv = inl (option_map (map decoded) command)
    /\ (w <= String.length text)%nat
    /\ forall fuel t rest, (w <= fuel)%nat -> terminator t ->
         parse_value fuel (text +:+ String t rest) = Some (cv, String t rest).
Proof.
  intros Hcmd. destruct command as [l|].
  - destruct (plain_round_trips (Slice l) Hcmd) as (c & e & Hm & Hmd & _ & Hw & Hp).
    exists (String c e), (decoded (Slice l)), (weight (Slice l)).
    repeat split; assumption || reflexivity.
  - exists "null", Nil, 1%nat. repeat split; try reflexivity; [simpl; lia|].
    intros [|fuel] t rest Hf Ht; [lia|reflexivity].
Qed.

Lemma Unmarshal_text (text : string) (cv : any) (w : nat) (command : option (list any))
    (id : Z) (async : bool) :
  (forall fuel t rest, (w <= fuel)%nat -> terminator t ->
     parse_value fuel (text +:+ String t rest) = Some (cv, String t rest)) ->
  (w <= String.length text)%nat ->
  as_slice "command" cv = inl command ->
  in_int_range id = true ->
  Unmarshal (request_text text id async) ipcRequest.zero
  = inl (ipcRequest.mk command id async nil_chan).
Proof.
  intros Hp Hw Hslice Hid.
  unfold Unmarshal. rewrite (decode_request_text text cv w id async Hp Hw).
  cbn [set_request_fields]. unfold set_request_field at 1.
  change (request_field "command") with (Some "command").
  cbn [ipcRequest.zero]. cbv iota beta. rewrite Hslice.
  unfold set_request_field at 1.
  change (request_field "request_id") with (Some "request_id").
  cbv iota beta. unfold as_int. rewrite Hid.
  reflexivity.
Qed.

(** The whole way of a [RequestJSON] call whose text decodes, on an open
    client with nothing queued, whose transport works and delivers the
    reply to it next. *)
Lemma RequestJSON_answered (w : World) (raw : string) (request : ipcRequest.t)
    (body data : string) (response : ipcResponse.t) (rest : list (string * option error)) :
  let id := rand_source w (rand_used w) in
  let ch := fresh ({[nil_chan]} ∪ dom (chans w) : gset nat) in
  Unmarshal raw ipcRequest.zero = inl request ->
  closed (client w) = false ->
  receiver (client w) = mk_receiver [] false ->
  requestMu (client w) = false ->
  conn_closed (conn (client w)) = false ->
  faults w = [] ->
  Marshal (ipcRequest.mk (ipcRequest.Command request) id (ipcRequest.Async request) ch)
  = inl body ->
  remote w = (data, None) :: rest ->
  UnmarshalWith data = inl response ->
  ipcResponse.Event response = "" ->
  ipcResponse.RequestID response = id ->
  exists w',
    RequestJSON raw w = Ok (reply_result response) w'
    /\ client w'
       = set_requests (Some (delete id (default ∅ (requests (client w)))))
           (set_conn (mk_conn (written (conn (client w)) ++ [body; chr newline]) false)
              (client w))
    /\ remote w' = rest.
Proof.
  intros id ch Hraw Hopen Hq Hmu Hconn Hf HM Hrem Hdec Hev Hid.
  subst id ch.
  destruct_world w. destruct cn as [wr cc]. simpl in *. subst.
  remember (fresh ({[nil_chan]} ∪ dom chs)) as c eqn:Hc.
  unfold RequestJSON. rewrite Hraw.
  unfold requestSend, chan_recv, run_writer, write, rand_Int, make_chan,
    send_receiver, gets, bind. simpl. rewrite <- ?Hc.
  unfold recv_receiver, bind. simpl. unfold write_body. rewrite HM.
  unfold conn_Write. step.
  destruct reqs as [m0|]; simpl.
  all: unfold chan_poll; simpl; rewrite lookup_insert_eq; simpl.
  all: unfold read_body, ReadBytes, bind; simpl; rewrite Hdec.
  all: unfold dispatch; rewrite Hev; step.
  all: rewrite Hid, lookup_insert_eq; simpl.
  all: unfold chan_send, chan_close; simpl; rewrite lookup_insert_eq; simpl.
  all: step.
  all: rewrite (lookup_insert_eq (<[c:={| buf := []; cap := 1; chan_closed := false |}]> chs) c).
  all: simpl. all: step.
  all: erewrite await_ready
         by (unfold chan_poll; simpl; rewrite lookup_insert_eq; reflexivity).
  all: eexists; split; [reflexivity|]; simpl.
  all: rewrite <- app_assoc, delete_insert_eq.
  all: repeat split; reflexivity.
Qed.

(** X18.  A request whose command holds plain arguments (nil, booleans,
    integers up to 2^53 in size, ASCII text, and slices of these) and
    whose id is an int has an encoding; [json.Unmarshal] of that encoding
    into the zero request gives the same command with every number as a
    float64, the same id and the same async flag; and that request is
    encoded as the same text again. *)
Theorem Marshal_Unmarshal (req : ipcRequest.t) :
  plain_request req = true ->
  exists body,
    Marshal req = inl body
    /\ Unmarshal body ipcRequest.zero = inl (decoded_request req)
    /\ Marshal (decoded_request req) = inl body.
Proof.
  destruct req as [cmd id async ch]. unfold plain_request, decoded_request.
  cbn [ipcRequest.Command ipcRequest.RequestID ipcRequest.Async].
  intros H. apply andb_prop in H as [Hcmd Hid].
  destruct (plain_command_codec cmd Hcmd) as (text & cv & w & Hm & Hmd & Hslice & Hw & Hp).
  exists (request_text text id async). split; [|split].
  - apply Marshal_text. exact Hm.
  - apply (Unmarshal_text text cv w); assumption.
  - apply Marshal_text. exact Hmd.
Qed.

Lemma Marshal_Unmarshal_witness :
  exists body,
    Marshal set_volume = inl body
    /\ Unmarshal body ipcRequest.zero
       = inl (ipcRequest.mk
                (Some [Str "set_property"; Str "volume"; Float64 (-5); Slice [Bool true; Nil]])
                9 true nil_chan)
    /\ Marshal (decoded_request set_volume) = inl body.
Proof. exact (Marshal_Unmarshal set_volume eq_refl). Defined.

(** X19.  [RequestJSON] given the text that is the encoding of a plain
    request, on an open client with nothing queued and a working
    transport, when the next line from the remote process is the reply
    bearing the new id: the line written is the encoding of that request
    with its id replaced by the new one; the call returns what the reply
    says; the request is out of the registry again; and the line is
    consumed. *)
Theorem RequestJSON_of_Marshal (w : World) (req : ipcRequest.t)
    (data : string) (response : ipcResponse.t) (rest : list (string * option error)) :
  let id := rand_source w (rand_used w) in
  plain_request req = true ->
  closed (client w) = false ->
  receiver (client w) = mk_receiver [] false ->
  requestMu (client w) = false ->
  conn_closed (conn (client w)) = false ->
  faults w = [] ->
  remote w = (data, None) :: rest ->
  UnmarshalWith data = inl response ->
  ipcResponse.Event response = "" ->
  ipcResponse.RequestID response = id ->
  exists raw body w',
    Marshal req = inl raw
    /\ Marshal (ipcRequest.mk (ipcRequest.Command req) id (ipcRequest.Async req) nil_chan)
       = inl body
    /\ RequestJSON raw w = Ok (reply_result response) w'
    /\ written (conn (client w')) = written (conn (client w)) ++ [body; chr newline]
    /\ requests (client w') = Some (delete id (default ∅ (requests (client w))))
    /\ remote w' = rest.
Proof.
  intros id Hplain Hopen Hq Hmu Hconn Hf Hrem Hdec Hev Hid.
  destruct req as [cmd rid async ch]. unfold plain_request in Hplain.
  cbn [ipcRequest.Command ipcRequest.RequestID ipcRequest.Async] in *.
  apply andb_prop in Hplain as [Hcmd Hrid].
  destruct (plain_command_codec cmd Hcmd) as (text & cv & k & Hm & Hmd & Hslice & Hk & Hp).
  pose proof (Unmarshal_text text cv k _ rid async Hp Hk Hslice Hrid) as Hraw.
  destruct (RequestJSON_answered w (request_text text rid async) _
              (request_text text id async) data response rest
              Hraw Hopen Hq Hmu Hconn Hf
              (Marshal_text _ _ _ _ text Hmd) Hrem Hdec Hev Hid)
    as (w' & Hrun & Hcl & Hrest).
  exists (request_text text rid async), (request_text text id async), w'.
  split; [apply Marshal_text; exact Hm|].
  split; [apply Marshal_text; exact Hm|].
  split; [exact Hrun|].
  rewrite Hcl. destruct w as [[rcv cn rmu reqs lmu lsn omu obs sink cf] chs rnd used rem flt tr].
  repeat split; try reflexivity. exact Hrest.
Qed.

Lemma RequestJSON_of_Marshal_witness :
  exists raw body w',
    Marshal set_volume = inl raw
    /\ Marshal (ipcRequest.mk (ipcRequest.Command set_volume) 42 true nil_chan) = inl body
    /\ RequestJSON raw
         (connectInternal None (fun _ => 42)
            [line "{'error':'success','data':50,'request_id':42}"] [])
       = Ok (Float64 50, None) w'
    /\ written (conn (client w')) = [body; chr newline].
Proof.
  destruct (RequestJSON_of_Marshal
              (connectInternal None (fun _ => 42)
                 [line "{'error':'success','data':50,'request_id':42}"] [])
              set_volume
              (fst (line "{'error':'success','data':50,'request_id':42}"))
              reply_50 [])
    as (raw & body & w' & Hraw & Hbody & Hrun & Hwr & _); try reflexivity.
  exists raw, body, w'. repeat split; assumption.
Defined.

(** ** Property changes from the line to the observer *)

Lemma parse_value_quote (fuel : nat) (s rest : string) :
  parse_value (S fuel) (quote s +:+ rest) = Some (Str s, rest).
Proof.
  unfold quote. rewrite !append_assoc'.
  change (chr dquote +:+ escape s +:+ chr dquote +:+ rest)
    with (String dquote (escape s +:+ String dquote rest)).
  rewrite parse_value_S by reflexivity.
  change (Ascii.eqb dquote dquote) with true. cbv iota.
  rewrite scan_escape. reflexivity.
Qed.

Lemma parse_value_pretty (fuel : nat) (n : Z) (t : ascii) (rest : string) :
  terminator t ->
  parse_value (S fuel) (pretty n +:+ String t rest) = Some (Float64 n, String t rest).
Proof.
  intros Ht. destruct (scan_number_pretty n t rest Ht) as (Hscan & c & e & He & Hc).
  rewrite <- Hscan. rewrite He.
  change (String c e +:+ String t rest) with (String c (e +:+ String t rest)).
  apply parse_value_number. exact Hc.
Qed.

(** A member of an object: the key, the colon, and then the value. *)
Lemma parse_members_key (fuel : nat) (k X : string) :
  parse_members (S fuel) (quote k +:+ String ":" X)
  = match parse_value fuel X with
    | Some (v, r2) =>
        match skip_space r2 with
        | String "," r3 =>
            match parse_members fuel r3 with
            | Some (l, r4) => Some ((k, v) :: l, r4)
            | None => None
            end
        | String "}" r3 => Some ([(k, v)], r3)
        | _ => None
        end
    | None => None
    end.
Proof.
  rewrite parse_members_S. unfold quote. rewrite !append_assoc'.
  change (chr dquote +:+ escape k +:+ chr dquote +:+ String ":" X)
    with (String dquote (escape k +:+ String dquote (String ":" X))).
  change (skip_space (String dquote ?Y)) with (String dquote Y).
  cbv iota. change (Ascii.eqb dquote dquote) with true. cbv iota.
  rewrite scan_escape. reflexivity.
Qed.

Lemma parse_property_change_text (f : nat) (id : Z) (name data : string) (dv : any)
    (w : nat) (rest : string) :
  (forall fuel t rest, (w <= fuel)%nat -> terminator t ->
     parse_value fuel (data +:+ String t rest) = Some (dv, String t rest)) ->
  (w <= S f)%nat ->
  parse_value (S (S (S (S (S (S f)))))) (property_change_text id name data +:+ rest)
  = Some (Map [("event", Str "property-change"); ("id", Float64 id);
               ("name", Str name); ("data", dv)], rest).
Proof.
  intros Hdata Hw.
  replace (property_change_text id name data +:+ rest)
    with (String "{" (quote "event" +:+ String ":" (quote "property-change"
            +:+ String "," (quote "id" +:+ String ":" (pretty id
            +:+ String "," (quote "name" +:+ String ":" (quote name
            +:+ String "," (quote "data" +:+ String ":" (data
            +:+ String "}" rest))))))))).
  2:{ unfold property_change_text. rewrite !append_assoc'. reflexivity. }
  rewrite parse_value_S by reflexivity.
  change (Ascii.eqb "{" dquote) with false.
  change (Ascii.eqb "{" "[") with false.
  change (Ascii.eqb "{" "{") with true.
  cbv iota.
  change (skip_space (quote "event" +:+ ?X)) with (String dquote ("event" +:+ String dquote X)).
  cbv iota.
  rewrite parse_members_key, parse_value_quote.
  change (skip_space (String "," ?X)) with (String "," X). cbv iota.
  rewrite parse_members_key, parse_value_pretty by (left; reflexivity).
  change (skip_space (String "," ?X)) with (String "," X). cbv iota.
  rewrite parse_members_key, parse_value_quote.
  change (skip_space (String "," ?X)) with (String "," X). cbv iota.
  rewrite parse_members_key, Hdata; [|lia|right; right; reflexivity].
  reflexivity.
Qed.

Lemma property_change_text_length (id : Z) (name data : string) (rest : string) :
  (String.length data + 4
   <= String.length (property_change_text id name data +:+ rest))%nat.
Proof.
  unfold property_change_text. rewrite !append_length.
  change (String.length (wire "{'event':'property-change','id':")) with 32%nat. lia.
Qed.

(** A property-change line with a plain value is decoded: the event, the
    subscription id, the value, and the name among the event data. *)
Lemma UnmarshalWith_property_change_text (id : Z) (name : string) (v : any) (e : string) :
  in_int_range id = true ->
  plain v = true ->
  marshal_any v = Some e ->
  UnmarshalWith (property_change_text id name e +:+ chr newline)
  = inl (ipcResponse.mk "" (decoded v) 0 "property-change" {[ "name" := Str name ]} id).
Proof.
  intros Hid Hplain He.
  destruct (plain_round_trips v Hplain) as (c & e' & Hm & _ & _ & Hw & Hp).
  rewrite He in Hm. injection Hm as ->.
  pose proof (property_change_text_length id name (String c e') (chr newline)) as Hlen.
  unfold UnmarshalWith, decode_json.
  replace (2 * String.length (property_change_text id name (String c e') +:+ chr newline) + 2)%nat
    with (S (S (S (S (S (S (2 * String.length
            (property_change_text id name (String c e') +:+ chr newline) - 4)))))))
    by lia.
  rewrite (parse_property_change_text _ id name (String c e') (decoded v) (weight v)
             (chr newline) Hp) by lia.
  change (skip_space (chr newline)) with "". cbv iota.
  unfold with_member, member. cbn [fold_left fst snd String.eqb Ascii.eqb Bool.eqb].
  unfold as_int. rewrite Hid. reflexivity.
Qed.

(** C8.  For a frame whose event is "property-change", [dispatch] looks the
    frame's subscription id up among the observers: a registered observer is
    started on the frame's data; with no observer under that id (or no
    observer at all) the world stays as it was, so no error is reported and
    no registration changes.  The id and the data are the members "id" and
    "data" of the frame that was decoded.  A property-change line that
    carries an id, the ASCII name of the property and a plain value is
    decoded to such a frame, and the reader iteration that takes it from
    the transport starts the observer registered under its id on the
    decoded value, or changes nothing but the input when there is none. *)
Theorem dispatch_property_change (w : World) :
  observerMu (client w) = false ->
  (forall response,
      ipcResponse.Event response = "property-change" ->
      (forall m observer,
          observers (client w) = Some m ->
          m !! ipcResponse.ID response = Some observer ->
          dispatch response w
          = Ok tt (log (EvGo (go_observer observer (ipcResponse.Data response))) w))
      /\ ((forall m, observers (client w) = Some m -> m !! ipcResponse.ID response = None) ->
          dispatch response w = Ok tt w)
      /\ (forall data kvs n,
            decode_json data = Some (Map kvs) ->
            member "id" kvs = Some (Float64 n) ->
            UnmarshalWith data = inl response ->
            ipcResponse.ID response = n
            /\ ipcResponse.Data response = default Nil (member "data" kvs)))
  /\ (forall id name v e rest,
        in_int_range id = true ->
        ascii_text name = true ->
        plain v = true ->
        marshal_any v = Some e ->
        remote w = (property_change_text id name e +:+ chr newline, None) :: rest ->
        UnmarshalWith (property_change_text id name e +:+ chr newline)
        = inl (ipcResponse.mk "" (decoded v) 0 "property-change" {[ "name" := Str name ]} id)
        /\ read_body w
           = Ok Continue
               match observers (client w) ≫= (fun m => m !! id) with
               | Some observer =>
                   log (EvGo (go_observer observer (decoded v))) (set_remote rest w)
               | None => set_remote rest w
               end).
Proof.
  intros Hmu. split.
  - intros response Hev. destruct_world w. subst.
    split; [|split].
    + intros m observer -> Hm. unfold dispatch. rewrite Hev. step. rewrite Hm. reflexivity.
    + intros Hnone. unfold dispatch. rewrite Hev. step.
      destruct obs as [m|]; [rewrite (Hnone m eq_refl)|]; reflexivity.
    + intros data kvs n. apply member_id_decoded.
  - intros id name v e rest Hid _ Hplain He Hrem.
    pose proof (UnmarshalWith_property_change_text id name v e Hid Hplain He) as Hdec.
    split; [exact Hdec|].
    unfold read_body, bind at 1, ReadBytes. rewrite Hrem. cbn [snd fst]. rewrite Hdec.
    destruct_world w. subst. unfold dispatch.
    cbn [ipcResponse.Event ipcResponse.ID ipcResponse.Data].
    step. destruct obs as [m|]; simpl; [|reflexivity].
    destruct (m !! id); reflexivity.
Qed.

Lemma dispatch_property_change_witness :
  read_body
    (set_remote [line "{'event':'property-change','id':1,'name':'volume','data':61}"]
       busy_world)
  = Ok Continue (log (EvGo (go_observer 9 (Float64 61))) busy_world)
  /\ dispatch volume_changed busy_world
     = Ok tt (log (EvGo (go_observer 9 (Float64 61))) busy_world).
Proof.
  split.
  - apply (proj2 (proj2 (dispatch_property_change
             (set_remote [line "{'event':'property-change','id':1,'name':'volume','data':61}"]
                busy_world) eq_refl)
             1 "volume" (Int 61) "61" [] eq_refl eq_refl eq_refl eq_refl eq_refl)).
  - apply (proj1 (proj1 (dispatch_property_change busy_world eq_refl)
             volume_changed eq_refl) {[ 1 := 9%nat ]} 9%nat); reflexivity.
Defined.
